(** * PDF password conversion: UTF-8 to PDFDocEncoding

    A shallow embedding of [utf8_password_to_pdfdoc] and of its table
    [unicode_latin_extended_windows_map] (pdftk/passwords.cc), with the
    properties of the conversion that the design document states.

    Conventions of the embedding.
    - A [char] of the input and a [jbyte] of the output are modelled by their
      8-bit pattern, a [Z] in [0, 255].  The function only masks input bytes
      ([& 0x80], [& 0xE0], ...) or copies one whose high bit is clear, so the
      signedness of [char] does not change a result (lemma
      [signed_char_masks]).
    - [int] and [unsigned long] values are modelled by [Z] without wrap-around:
      [ii] never exceeds [ss_size], [ret_val] never exceeds [ii] (lemma
      [convert_returns_bounds]), and a decoded point is below [2^16] (lemma
      [decode_head_range]).
    - Octal constants of the source are written in hexadecimal, with the
      source's spelling in a comment.

    The module [CombineTessdata] embeds [main] of
    training/combine_tessdata.cpp as the tree of the calls that it makes;
    its properties are in [CombineTessdataFacts]. *)

From Stdlib Require Import ZArith List Bool Lia.
From Stdlib Require String Ascii.
Import ListNotations.
Open Scope Z_scope.

(** * The program *)

(** ** The table *)

(** [unicode_latin_extended_windows_map]: unicode 0x100 - 0x1FF. *)
Definition unicode_latin_extended_windows_map : list Z :=
  [
    (* U+0100 *) 0x41; 0x61; 0xC3; 0xC4; 0xA5; 0xB9; 0xC6; 0xE6;
    (* U+0108 *) 0x2E; 0x2E; 0x2E; 0x2E; 0xC8; 0xE8; 0xCF; 0xEF;
    (* U+0110 *) 0xD0; 0xF0; 0x45; 0x65; 0x2E; 0x2E; 0x45; 0x65;
    (* U+0118 *) 0xCA; 0xEA; 0xCC; 0xEC; 0x2E; 0x2E; 0x47; 0x67;
    (* U+0120 *) 0x2E; 0x2E; 0x47; 0x67; 0x2E; 0x2E; 0x2E; 0x2E;
    (* U+0128 *) 0x2E; 0x2E; 0x49; 0x69; 0x2E; 0x2E; 0x49; 0x69;
    (* U+0130 *) 0x49; 0x69; 0x2E; 0x2E; 0x2E; 0x2E; 0x4B; 0x6B;
    (* U+0138 *) 0x2E; 0xC5; 0xE5; 0x4C; 0x6C; 0xBC; 0xBE; 0x2E;
    (* U+0140 *) 0x2E; 0xA3; 0xB3; 0xD1; 0xF1; 0x4E; 0x6E; 0xD2;
    (* U+0148 *) 0xF2; 0x2E; 0x2E; 0x2E; 0x4F; 0x6F; 0x2E; 0x2E;
    (* U+0150 *) 0xD5; 0xF5; 0x96; 0x9C; 0xC0; 0xE0; 0x52; 0x72;
    (* U+0158 *) 0xD8; 0xF8; 0x8C; 0x9C; 0x2E; 0x2E; 0xAA; 0xBA;
    (* U+0160 *) 0x8A; 0x9A; 0xDE; 0xFE; 0x8D; 0x9D; 0x54; 0x74;
    (* U+0168 *) 0x2E; 0x2E; 0x55; 0x75; 0x2E; 0x2E; 0xD9; 0xF9;
    (* U+0170 *) 0xDB; 0xFB; 0x55; 0x75; 0x2E; 0x2E; 0x2E; 0x2E;
    (* U+0178 *) 0x98; 0x8F; 0x9F; 0xAF; 0xBF; 0x99; 0x9E; 0x2E;
    (* U+0180 *) 0x62; 0x2E; 0x2E; 0x2E; 0x2E; 0x2E; 0x2E; 0x2E;
    (* U+0188 *) 0x2E; 0xD0; 0x2E; 0x2E; 0x2E; 0x2E; 0x2E; 0x2E;
    (* U+0190 *) 0x2E; 0x83; 0x83; 0x2E; 0x2E; 0x2E; 0x2E; 0x49;
    (* U+0198 *) 0x2E; 0x2E; 0x6C; 0x2E; 0x2E; 0x2E; 0x2E; 0x4F;
    (* U+01A0 *) 0x4F; 0x6F; 0x2E; 0x2E; 0x2E; 0x2E; 0x2E; 0x2E;
    (* U+01A8 *) 0x2E; 0x2E; 0x2E; 0x74; 0x2E; 0x2E; 0x54; 0x55;
    (* U+01B0 *) 0x75; 0x2E; 0x2E; 0x2E; 0x2E; 0x2E; 0x2E; 0x2E;
    (* U+01B8 *) 0x2E; 0x2E; 0x2E; 0x2E; 0x2E; 0x2E; 0x2E; 0x2E;
    (* U+01C0 *) 0x7C; 0x2E; 0x2E; 0x21; 0x2E; 0x2E; 0x2E; 0x2E;
    (* U+01C8 *) 0x2E; 0x2E; 0x2E; 0x2E; 0x2E; 0x2E; 0x2E; 0x2E;
    (* U+01D0 *) 0x2E; 0x2E; 0x2E; 0x2E; 0x2E; 0x2E; 0x2E; 0x2E;
    (* U+01D8 *) 0x2E; 0x2E; 0x2E; 0x2E; 0x2E; 0x2E; 0x41; 0x61;
    (* U+01E0 *) 0x2E; 0x2E; 0x2E; 0x2E; 0x47; 0x67; 0x2E; 0x2E;
    (* U+01E8 *) 0x2E; 0x2E; 0x2E; 0x2E; 0x4F; 0x6F; 0x2E; 0x2E;
    (* U+01F0 *) 0x2E; 0x2E; 0x2E; 0x2E; 0x2E; 0x2E; 0x2E; 0x2E;
    (* U+01F8 *) 0x2E; 0x2E; 0x2E; 0x2E; 0x2E; 0x2E; 0x2E; 0x2E
  ].

(** ** Decoding one UTF-8 sequence *)

(** [ss[i]]; the function reads [ss] only below [ss_size]. *)
Definition char_at (ss : list Z) (i : Z) : Z := nth (Z.to_nat i) ss 0.

(** The [if / else if / else] chain at the head of the loop body: the decoded
    point [data] and the advanced index [ii], or [None] for the last branch
    ("something else: out of range"). *)
Definition decode_utf8 (ss : list Z) (ss_size ii : Z) : option (Z * Z) :=
  if Z.land (char_at ss ii) 0x80 =? 0 then
    (* single byte *)
    Some (char_at ss ii, ii + 1)
  else if (Z.land (char_at ss ii) 0xE0 =? 0xC0)
          && (ii + 1 <? ss_size)
          && (Z.land (char_at ss (ii + 1)) 0xC0 =? 0x80) then
    (* two-byte *)
    Some (Z.shiftl (Z.land (char_at ss ii) 0x1f) 6
          + Z.land (char_at ss (ii + 1)) 0x3f,
          ii + 2)
  else if (Z.land (char_at ss ii) 0xF0 =? 0xE0)
          && (ii + 1 <? ss_size)
          && (Z.land (char_at ss (ii + 1)) 0xC0 =? 0x80)
          && (ii + 2 <? ss_size)
          && (Z.land (char_at ss (ii + 2)) 0xC0 =? 0x80) then
    (* three-byte *)
    Some (Z.shiftl
            (Z.shiftl (Z.land (char_at ss ii) 0x0f) 6
             + Z.land (char_at ss (ii + 1)) 0x3f) 6
          + Z.land (char_at ss (ii + 2)) 0x3f,
          ii + 3)
  else None.

(** ** Classifying one code point *)

(** The test [0x20<= data && data< 0x7f || 0xa0<= data && data<= 0xff]. *)
Definition data_point_good (data : Z) : bool :=
  (0x20 <=? data) && (data <? 0x7f) || (0xa0 <=? data) && (data <=? 0xff).

(** The named cases of the outer [switch]: points converted to PDFDocEncoding
    whether encrypting or decrypting. *)
Definition pdfdoc_always (data : Z) : option Z :=
  match data with
  | 0x0152 => Some 0x96 (* 0226, OE ligature *)
  | 0x0153 => Some 0x9C (* 0234, oe ligature *)
  | 0x0160 => Some 0x97 (* 0227, Scaron *)
  | 0x017E => Some 0x9E (* 0236, zcaron *)
  | 0x0178 => Some 0x98 (* 0230, Ydieresis *)
  | 0x017D => Some 0x99 (* 0231, Zcaron *)
  | 0x0192 => Some 0x86 (* 0206, florin *)
  | 0x0161 => Some 0x9D (* 0235, scaron *)
  | _ => None
  end.

(** The inner [switch], reached only when decrypting. *)
Definition pdfdoc_decrypt_only (data : Z) : option Z :=
  match data with
  | 0x20AC => Some 0xA0 (* 0240, Euro *)
  | 0x2022 => Some 0x80 (* 0200, bullet *)
  | 0x2020 => Some 0x81 (* 0201, dagger *)
  | 0x2021 => Some 0x82 (* 0202, daggerdbl *)
  | 0x2026 => Some 0x83 (* 0203, ellipsis *)
  | 0x02C6 => Some 0x1A (* 0032, circumflex *)
  | 0x2014 => Some 0x84 (* 0204, emdash *)
  | 0x2013 => Some 0x85 (* 0205, endash *)
  | 0x2039 => Some 0x88 (* 0210, guilsinglleft *)
  | 0x203A => Some 0x89 (* 0211, guilsinglright *)
  | 0x2030 => Some 0x8B (* 0213, perthousand *)
  | 0x201E => Some 0x8C (* 0214, quotedblbase *)
  | 0x201C => Some 0x8D (* 0215, quotedblleft *)
  | 0x201D => Some 0x8E (* 0216, quotedblright *)
  | 0x2018 => Some 0x8F (* 0217, quoteleft *)
  | 0x2019 => Some 0x90 (* 0220, quoteright *)
  | 0x201A => Some 0x91 (* 0221, quotesinglebase *)
  | 0x02DC => Some 0x1F (* 0037, tilde *)
  | 0x2122 => Some 0x92 (* 0222, trademark *)
  | _ => None
  end.

(** The whole classification of the loop body: the new value of [data], or
    [None] where the source sets [ret_val= -1]. *)
Definition pdfdoc_of_data (encrypt_b : bool) (data : Z) : option Z :=
  if data_point_good data then Some data
  else
    match pdfdoc_always data with
    | Some b => Some b
    | None =>
      if encrypt_b then None (* data point out of bounds *)
      else if (0x100 <=? data) && (data <=? 0x1FF) then
        Some (nth (Z.to_nat (data - 0x100)) unicode_latin_extended_windows_map 0)
      else pdfdoc_decrypt_only data
    end.

(** ** The output buffer *)

(** The conversion of [data] to [jbyte] in [bb[ ret_val ]= data]: the low
    eight bits are kept. *)
Definition to_jbyte (data : Z) : Z := Z.land data 0xFF.

(** [bb[i]= v] on a buffer of [length bb] bytes; [None] is a write outside
    the buffer, which C leaves undefined. *)
Definition store (bb : list Z) (i v : Z) : option (list Z) :=
  if (0 <=? i) && (i <? Z.of_nat (length bb)) then
    Some (firstn (Z.to_nat i) bb ++ v :: skipn (S (Z.to_nat i)) bb)
  else None.

(** ** The function *)

(** What a call does: it returns [ret_val], leaving the buffer (if any) as
    [bb]; or it writes outside the buffer; [OutOfFuel] only says that the
    bound given to [loop] was too small, and never is (theorem
    [utf8_password_to_pdfdoc_total]). *)
Inductive outcome : Type :=
| Returned (ret_val : Z) (bb : option (list Z))
| OutOfBounds
| OutOfFuel.

(** The [for] loop, one iteration per unit of [fuel]; the state is
    [ii], [ret_val] and the contents of [bb]. *)
Fixpoint loop (fuel : nat) (bb : option (list Z)) (ss : list Z) (ss_size : Z)
         (encrypt_b : bool) (ii ret_val : Z) : outcome :=
  match fuel with
  | O => OutOfFuel
  | S fuel' =>
    if (ii <? ss_size) && negb (char_at ss ii =? 0) && negb (ret_val =? -1)
    then
      match decode_utf8 ss ss_size ii with
      | None => Returned (-1) bb (* ret_val= -1; break; *)
      | Some (data, ii') =>
        match pdfdoc_of_data encrypt_b data with
        | None => loop fuel' bb ss ss_size encrypt_b ii' (-1)
        | Some data' =>
          match bb with
          | None => loop fuel' None ss ss_size encrypt_b ii' (ret_val + 1)
          | Some buf =>
            match store buf ret_val (to_jbyte data') with
            | Some buf' =>
              loop fuel' (Some buf') ss ss_size encrypt_b ii' (ret_val + 1)
            | None => OutOfBounds
            end
          end
        end
      end
    else Returned ret_val bb
  end.

(** [utf8_password_to_pdfdoc( bb, ss, ss_size, encrypt_b )]; [bb = None] is
    the null pointer.  Every iteration advances [ii] by at least one, so
    [ss_size] iterations and a last test of the loop condition are enough. *)
Definition utf8_password_to_pdfdoc (bb : option (list Z)) (ss : list Z)
           (ss_size : Z) (encrypt_b : bool) : outcome :=
  loop (S (Z.to_nat ss_size)) bb ss ss_size encrypt_b 0 0.

(** ** The contract of the design document *)

Inductive Mode : Type := Strict | Permissive.

Definition encrypting (m : Mode) : bool :=
  match m with Strict => true | Permissive => false end.

(** [convert(input, mode, output)]: the caller supplies the explicit length
    of [input]. *)
Definition convert (m : Mode) (input : list Z) (output : option (list Z))
  : outcome :=
  utf8_password_to_pdfdoc output input (Z.of_nat (length input)) (encrypting m).

(** [returns o r]: the call returned the integer [r]. *)
Definition returns (o : outcome) (r : Z) : Prop :=
  exists bb, o = Returned r bb.

(** * Definitions for the specification *)

(** ** The conversion as a function of the list of input bytes

    The loop walks [ss] by index.  The definitions below say the same on the
    list of the bytes not yet read; lemma [loop_emit_scan] proves that the loop
    computes them. *)

(** [decode_utf8] on the bytes from the current index up to [ss_size]: the
    decoded point and the bytes left after it. *)
Definition decode_head (l : list Z) : option (Z * list Z) :=
  match l with
  | [] => None
  | c0 :: t0 =>
    if Z.land c0 0x80 =? 0 then Some (c0, t0)
    else
      match t0 with
      | [] => None
      | c1 :: t1 =>
        if (Z.land c0 0xE0 =? 0xC0) && (Z.land c1 0xC0 =? 0x80) then
          Some (Z.shiftl (Z.land c0 0x1f) 6 + Z.land c1 0x3f, t1)
        else
          match t1 with
          | [] => None
          | c2 :: t2 =>
            if (Z.land c0 0xF0 =? 0xE0) && (Z.land c1 0xC0 =? 0x80)
               && (Z.land c2 0xC0 =? 0x80) then
              Some (Z.shiftl (Z.shiftl (Z.land c0 0x0f) 6 + Z.land c1 0x3f) 6
                    + Z.land c2 0x3f, t2)
            else None
          end
      end
  end.

(** Why the loop stopped decoding. *)
Inductive stop : Type :=
| EndOfInput   (* ii reached ss_size *)
| NulByte      (* ss[ii] is 0 *)
| BadSequence. (* the last branch of the decoder *)

(** One more decoded point in front. *)
Definition push (d : Z) (p : list Z * stop) : list Z * stop :=
  (d :: fst p, snd p).

(** The code points the loop decodes, in order, and why it stops decoding,
    when no classification fails. *)
Fixpoint scan (l : list Z) : list Z * stop :=
  match l with
  | [] => ([], EndOfInput)
  | c0 :: t0 =>
    if c0 =? 0 then ([], NulByte)
    else if Z.land c0 0x80 =? 0 then push c0 (scan t0)
    else
      match t0 with
      | [] => ([], BadSequence)
      | c1 :: t1 =>
        if (Z.land c0 0xE0 =? 0xC0) && (Z.land c1 0xC0 =? 0x80) then
          push (Z.shiftl (Z.land c0 0x1f) 6 + Z.land c1 0x3f) (scan t1)
        else
          match t1 with
          | [] => ([], BadSequence)
          | c2 :: t2 =>
            if (Z.land c0 0xF0 =? 0xE0) && (Z.land c1 0xC0 =? 0x80)
               && (Z.land c2 0xC0 =? 0x80) then
              push (Z.shiftl (Z.shiftl (Z.land c0 0x0f) 6 + Z.land c1 0x3f) 6
                    + Z.land c2 0x3f) (scan t2)
            else ([], BadSequence)
          end
      end
  end.

(** The decoded code points of an input. *)
Definition code_points (input : list Z) : list Z := fst (scan input).

(** Why decoding stops on an input. *)
Definition stopped (input : list Z) : stop := snd (scan input).

(** The rest of the loop body on the decoded points: classify, write,
    count; [n] is [ret_val]. *)
Fixpoint emit (encrypt_b : bool) (cps : list Z) (st : stop)
         (bb : option (list Z)) (n : nat) : outcome :=
  match cps with
  | [] =>
    match st with
    | BadSequence => Returned (-1) bb
    | _ => Returned (Z.of_nat n) bb
    end
  | cp :: cps' =>
    match pdfdoc_of_data encrypt_b cp with
    | None => Returned (-1) bb
    | Some b =>
      match bb with
      | None => emit encrypt_b cps' st None (S n)
      | Some buf =>
        match store buf (Z.of_nat n) (to_jbyte b) with
        | Some buf' => emit encrypt_b cps' st (Some buf') (S n)
        | None => OutOfBounds
        end
      end
    end
  end.

(** The bytes written for the longest prefix of [cps] that classifies. *)
Fixpoint written (encrypt_b : bool) (cps : list Z) : list Z :=
  match cps with
  | [] => []
  | cp :: cps' =>
    match pdfdoc_of_data encrypt_b cp with
    | None => []
    | Some b => to_jbyte b :: written encrypt_b cps'
    end
  end.

(** Every decoded point classifies. *)
Definition all_good (encrypt_b : bool) (cps : list Z) : bool :=
  forallb (fun cp => match pdfdoc_of_data encrypt_b cp with
                     | Some _ => true | None => false end) cps.

(** Decoding stopped in the last branch of the decoder. *)
Definition bad_sequence (st : stop) : bool :=
  match st with BadSequence => true | _ => false end.

(** The integer a call returns, as a function of the input. *)
Definition result_of (encrypt_b : bool) (input : list Z) : Z :=
  if all_good encrypt_b (code_points input) && negb (bad_sequence (stopped input))
  then Z.of_nat (length (code_points input))
  else -1.

(** The integer [emit] returns when no write falls outside the buffer. *)
Definition emit_ret (encrypt_b : bool) (cps : list Z) (st : stop) (n : nat)
  : Z :=
  if all_good encrypt_b cps && negb (bad_sequence st)
  then Z.of_nat (n + length cps) else -1.

(** The outcome of a call that fails where [o] would have ended. *)
Definition failed (o : outcome) : outcome :=
  match o with
  | Returned _ bb => Returned (-1) bb
  | _ => o
  end.

(** ** The cases of the two [switch] statements *)

(** The cases of the outer [switch], as (code point, byte) pairs in the
    order of the source. *)
Definition always_cases : list (Z * Z) :=
  [(0x0152, 0x96); (0x0153, 0x9C); (0x0160, 0x97); (0x017E, 0x9E);
   (0x0178, 0x98); (0x017D, 0x99); (0x0192, 0x86); (0x0161, 0x9D)].

(** The cases of the inner [switch]. *)
Definition decrypt_only_cases : list (Z * Z) :=
  [(0x20AC, 0xA0); (0x2022, 0x80); (0x2020, 0x81); (0x2021, 0x82);
   (0x2026, 0x83); (0x02C6, 0x1A); (0x2014, 0x84); (0x2013, 0x85);
   (0x2039, 0x88); (0x203A, 0x89); (0x2030, 0x8B); (0x201E, 0x8C);
   (0x201C, 0x8D); (0x201D, 0x8E); (0x2018, 0x8F); (0x2019, 0x90);
   (0x201A, 0x91); (0x02DC, 0x1F); (0x2122, 0x92)].

(** The eight code points of the outer [switch]. *)
Definition always_points : list Z := map fst always_cases.

(** ** Sequences the decoder refuses *)

(** The three masks of the decoder. *)
Definition two_byte_lead (c : Z) : Prop := Z.land c 0xE0 = 0xC0.
Definition three_byte_lead (c : Z) : Prop := Z.land c 0xF0 = 0xE0.
Definition continuation (c : Z) : Prop := Z.land c 0xC0 = 0x80.

(** The bytes at the current index fit none of the three patterns: the
    leading byte is of no accepted kind (a continuation byte, or the lead of a
    sequence of four bytes or more), or a continuation byte is past the
    length or is not one. *)
Inductive bad_start : list Z -> Prop :=
| bad_lead c0 t :
    Z.land c0 0x80 <> 0 -> ~ two_byte_lead c0 -> ~ three_byte_lead c0 ->
    bad_start (c0 :: t)
| bad_two_missing c0 :
    two_byte_lead c0 -> bad_start [c0]
| bad_two_malformed c0 c1 t :
    two_byte_lead c0 -> ~ continuation c1 -> bad_start (c0 :: c1 :: t)
| bad_three_missing_first c0 :
    three_byte_lead c0 -> bad_start [c0]
| bad_three_malformed_first c0 c1 t :
    three_byte_lead c0 -> ~ continuation c1 -> bad_start (c0 :: c1 :: t)
| bad_three_missing_second c0 c1 :
    three_byte_lead c0 -> bad_start [c0; c1]
| bad_three_malformed_second c0 c1 c2 t :
    three_byte_lead c0 -> ~ continuation c2 -> bad_start (c0 :: c1 :: c2 :: t).

(** ** The NUL byte *)

(** The bytes before the first NUL byte. *)
Fixpoint until_nul (l : list Z) : list Z :=
  match l with
  | [] => []
  | c :: t => if c =? 0 then [] else c :: until_nul t
  end.

(** The design document's reading of the loop, to compare with [scan]:
    every byte position up to the length is decoded, a NUL byte being a
    one-byte sequence like any other byte with the high bit clear.  A
    sequence takes at least one byte, so [length l] is fuel enough. *)
Fixpoint scan_whole (fuel : nat) (l : list Z) : list Z * stop :=
  match fuel with
  | O => ([], EndOfInput)
  | S fuel' =>
    match l with
    | [] => ([], EndOfInput)
    | _ :: _ =>
      match decode_head l with
      | None => ([], BadSequence)
      | Some (d, rest) => push d (scan_whole fuel' rest)
      end
    end
  end.

(** [convert] under that reading. *)
Definition convert_whole (m : Mode) (input : list Z)
           (output : option (list Z)) : outcome :=
  emit (encrypting m) (fst (scan_whole (length input) input))
       (snd (scan_whole (length input) input)) output 0.

(** ** Well-formed UTF-8 *)

Definition in_range (lo hi b : Z) : bool := (lo <=? b) && (b <=? hi).

(** The second byte of a three-byte sequence: no overlong form after E0, no
    surrogate after ED. *)
Definition second_of_three (b0 b1 : Z) : bool :=
  if b0 =? 0xE0 then in_range 0xA0 0xBF b1
  else if b0 =? 0xED then in_range 0x80 0x9F b1
  else in_range 0x80 0xBF b1.

(** The second byte of a four-byte sequence: no overlong form after F0,
    nothing above U+10FFFF after F4. *)
Definition second_of_four (b0 b1 : Z) : bool :=
  if b0 =? 0xF0 then in_range 0x90 0xBF b1
  else if b0 =? 0xF4 then in_range 0x80 0x8F b1
  else in_range 0x80 0xBF b1.

Definition cons_option (d : Z) (o : option (list Z)) : option (list Z) :=
  match o with Some l => Some (d :: l) | None => None end.

(** Well-formed UTF-8 as the Unicode Standard defines it (shortest forms
    only, no surrogates, nothing above U+10FFFF), with the code point of each
    sequence; [None] on a malformed input.  This is the standard's
    definition, not the decoder of the source: it states what the design
    document calls malformed UTF-8. *)
Fixpoint utf8_decode (l : list Z) : option (list Z) :=
  match l with
  | [] => Some []
  | b0 :: t0 =>
    if in_range 0x00 0x7F b0 then cons_option b0 (utf8_decode t0)
    else
      match t0 with
      | [] => None
      | b1 :: t1 =>
        if in_range 0xC2 0xDF b0 then
          if in_range 0x80 0xBF b1 then
            cons_option (Z.shiftl (Z.land b0 0x1f) 6 + Z.land b1 0x3f)
                        (utf8_decode t1)
          else None
        else
          match t1 with
          | [] => None
          | b2 :: t2 =>
            if in_range 0xE0 0xEF b0 then
              if second_of_three b0 b1 && in_range 0x80 0xBF b2 then
                cons_option
                  (Z.shiftl (Z.shiftl (Z.land b0 0x0f) 6 + Z.land b1 0x3f) 6
                   + Z.land b2 0x3f)
                  (utf8_decode t2)
              else None
            else
              match t2 with
              | [] => None
              | b3 :: t3 =>
                if in_range 0xF0 0xF4 b0 && second_of_four b0 b1
                   && in_range 0x80 0xBF b2 && in_range 0x80 0xBF b3 then
                  cons_option
                    (Z.shiftl
                       (Z.shiftl
                          (Z.shiftl (Z.land b0 0x07) 6 + Z.land b1 0x3f) 6
                        + Z.land b2 0x3f) 6
                     + Z.land b3 0x3f)
                    (utf8_decode t3)
                else None
              end
          end
      end
  end.

Definition utf8_well_formed (l : list Z) : bool :=
  match utf8_decode l with Some _ => true | None => false end.

(** ** Four sentences of the design document, as worded

    Each is stated here as it reads, for one input, to be compared with what
    the function does. *)

(** The sentinel is returned if and only if the input is malformed UTF-8 or
    holds a code point that the mode cannot represent. *)
Definition sentinel_as_worded (m : Mode) (input : list Z) : Prop :=
  convert m input None = Returned (-1) None <->
  (utf8_well_formed input = false
   \/ exists cps cp, utf8_decode input = Some cps /\ In cp cps
                     /\ pdfdoc_of_data (encrypting m) cp = None).

(** After any sequences of the decoding step ([pre], a NUL byte being one of
    them), bytes that fit no pattern make the call return -1. *)
Definition bad_start_as_worded (m : Mode) (pre rest : list Z) : Prop :=
  snd (scan_whole (length pre) pre) = EndOfInput ->
  bad_start rest ->
  convert m (pre ++ rest) None = Returned (-1) None.

(** In Permissive mode a point of U+0100 - U+01FF is emitted as the table
    entry at its offset. *)
Definition table_entry_as_worded (cp : Z) : Prop :=
  0x0100 <= cp <= 0x01FF ->
  pdfdoc_of_data (encrypting Permissive) cp
  = Some (nth (Z.to_nat (cp - 0x100)) unicode_latin_extended_windows_map 0).

(** The whole input is processed up to its length, a NUL byte being a code
    point like any other. *)
Definition whole_length_as_worded (m : Mode) (input : list Z)
           (output : option (list Z)) : Prop :=
  convert m input output = convert_whole m input output.

(** ** Definitions for the further properties *)

(** The bytes a call may store: when encrypting, printable ASCII, the upper
    half of Latin-1 and bytes of 0x86 - 0x9E; when decrypting also 0x1A, 0x1F
    and the rest of 0x80 - 0x9F. *)
Definition emitted_byte (encrypt_b : bool) (b : Z) : bool :=
  if encrypt_b then
    in_range 0x20 0x7E b || in_range 0x86 0x9E b || in_range 0xA0 0xFF b
  else
    (b =? 0x1A) || (b =? 0x1F) || in_range 0x20 0x7E b || in_range 0x80 0xFF b.

(** A byte as a [char] that is signed reads it. *)
Definition as_signed_char (c : Z) : Z := if c <? 128 then c else c - 256.

(** The UTF-8 form of a code point below 0x10000, as the standard gives
    it (it is not part of the source). *)
Definition utf8_encode (cp : Z) : list Z :=
  if cp <? 0x80 then [cp]
  else if cp <? 0x800 then
    [Z.lor 0xC0 (Z.shiftr cp 6); Z.lor 0x80 (Z.land cp 0x3f)]
  else
    [Z.lor 0xE0 (Z.shiftr cp 12);
     Z.lor 0x80 (Z.land (Z.shiftr cp 6) 0x3f);
     Z.lor 0x80 (Z.land cp 0x3f)].

(** * The command line of [combine_tessdata]

    [main] of training/combine_tessdata.cpp.  What it calls is not part of
    the sources at hand ([TessdataManager], [LSTMRecognizer], [STRING],
    [rename], [printf], [tprintf], [ASSERT_HOST]), so a call is an event whose
    answer comes from outside: [main] is the tree of the calls it makes, with
    a branch for each answer it tests.  The two constants of
    tessdatamanager.h that it reads are parameters. *)
Module CombineTessdata.
Import Ascii String.
Local Open Scope string_scope.

(** A call that [main] makes, with the arguments that [main] chooses. *)
Inductive call : Type :=
| Printf (text : string)
| Tprintf (text : string)
| CombineDataFiles (language_data_path_prefix output_filename : string)
| Init (data_file_name : string)
| ExtractToFile (filename : string)
| Rename (old_name new_name : string)
| OverwriteComponents (new_traineddata_filename : string)
                      (component_filenames : list string)
| GetComponentLstm
| DeSerialize
| ConvertToInt
| OpenWrite
| Serialize
| OverwriteEntryLstm
| SaveFile (filename : string)
| Directory.

(** A program: it ends by returning from [main], by [exit], by a failed
    [ASSERT_HOST] or by a read outside a string; or it makes a call and goes
    on according to the answer ([true] for a result that tests as true, and
    for [rename] the result 0). *)
Inductive prog : Type :=
| Return (status : Z)
| Exit (status : Z)
| AssertFailed
| BadRead
| Do (c : call) (k : bool -> prog).

(** A newline. *)
Definition nl : string := String (ascii_of_nat 10) EmptyString.

(** [argv[i]], read only for [i < argc]. *)
Definition arg (argv : list string) (i : nat) : string := nth i argv "".

(** [s[strlen(s)-1]]: the last character, and no character of [s] at all
    when [s] is empty. *)
Fixpoint last_char (s : string) : option ascii :=
  match s with
  | EmptyString => None
  | String c EmptyString => Some c
  | String _ t => last_char t
  end.

(** [lang = s], followed by [lang += '.'] unless the last character of
    [s] is a dot. *)
Definition with_dot (s : string) : option string :=
  match last_char s with
  | None => None
  | Some c => if Ascii.eqb c "." then Some s else Some (s ++ ".")
  end.

(** The last statement of [main], [tm.Directory();], and the return of 0
    that follows the end of [main]. *)
Definition finish : prog := Do Directory (fun _ => Return 0).

(** The loop of option -e over [argv[3]], ..., [argv[argc-1]]. *)
Fixpoint extract_each (files : list string) (k : prog) : prog :=
  match files with
  | [] => k
  | f :: files' =>
    Do (ExtractToFile f) (fun ok =>
      Do (Printf (if ok then "Wrote " ++ f ++ nl
                  else "Not extracting " ++ f
                       ++ ", since this component is not present" ++ nl))
         (fun _ => extract_each files' k))
  end.

(** The loop of option -u over the file suffixes. *)
Fixpoint unpack_each (prefix : string) (suffixes : list string) (k : prog)
  : prog :=
  match suffixes with
  | [] => k
  | suffix :: suffixes' =>
    match with_dot prefix with
    | None => BadRead
    | Some dotted =>
      Do (ExtractToFile (dotted ++ suffix)) (fun ok =>
        if ok then
          Do (Printf ("Wrote " ++ dotted ++ suffix ++ nl))
             (fun _ => unpack_each prefix suffixes' k)
        else unpack_each prefix suffixes' k)
    end
  end.

(** The last branch: the usage, six calls of [printf] with [argv[0]]. *)
Definition usage (argv0 : string) : list string :=
  ["Usage for combining tessdata components:" ++ nl
   ++ "  " ++ argv0 ++ " language_data_path_prefix" ++ nl
   ++ "  (e.g. " ++ argv0 ++ " tessdata/eng.)" ++ nl ++ nl;
   "Usage for extracting tessdata components:" ++ nl
   ++ "  " ++ argv0 ++ " -e traineddata_file [output_component_file...]" ++ nl
   ++ "  (e.g. " ++ argv0 ++ " -e eng.traineddata eng.unicharset)" ++ nl ++ nl;
   "Usage for overwriting tessdata components:" ++ nl
   ++ "  " ++ argv0 ++ " -o traineddata_file [input_component_file...]" ++ nl
   ++ "  (e.g. " ++ argv0 ++ " -o eng.traineddata eng.unicharset)" ++ nl ++ nl;
   "Usage for unpacking all tessdata components:" ++ nl
   ++ "  " ++ argv0 ++ " -u traineddata_file output_path_prefix" ++ nl
   ++ "  (e.g. " ++ argv0 ++ " -u eng.traineddata tmp/eng.)" ++ nl;
   "Usage for listing directory of components:" ++ nl
   ++ "  " ++ argv0 ++ " -d traineddata_file" ++ nl;
   "Usage for compacting LSTM component to int:" ++ nl
   ++ "  " ++ argv0 ++ " -c traineddata_file" ++ nl].

Fixpoint print_each (texts : list string) (k : prog) : prog :=
  match texts with
  | [] => k
  | t :: texts' => Do (Printf t) (fun _ => print_each texts' k)
  end.

(** The five conditions of the [if / else if] chain, in its order. *)
Definition is_combine (argv : list string) : bool :=
  (List.length argv =? 2)%nat.

Definition is_extract_or_unpack (argv : list string) : bool :=
  (4 <=? List.length argv)%nat
  && (String.eqb (arg argv 1) "-e" || String.eqb (arg argv 1) "-u").

Definition is_overwrite (argv : list string) : bool :=
  (4 <=? List.length argv)%nat && String.eqb (arg argv 1) "-o".

Definition is_compact (argv : list string) : bool :=
  (List.length argv =? 3)%nat && String.eqb (arg argv 1) "-c".

Definition is_directory (argv : list string) : bool :=
  (List.length argv =? 3)%nat && String.eqb (arg argv 1) "-d".

Section Main.

(** [kTrainedDataSuffix] and [kTessdataFileSuffixes], whose
    [TESSDATA_NUM_ENTRIES] entries are the elements of the list. *)
Variable kTrainedDataSuffix : string.
Variable kTessdataFileSuffixes : list string.

(** [main(argc, argv)], with [argc] the length of [argv]. *)
Definition main (argv : list string) : prog :=
  if is_combine argv then
    Do (Printf ("Combining tessdata files" ++ nl)) (fun _ =>
      match with_dot (arg argv 1) with
      | None => BadRead
      | Some lang =>
        let output_file := lang ++ kTrainedDataSuffix in
        Do (CombineDataFiles lang output_file) (fun ok =>
          Do (Printf (if ok
                      then "Output " ++ output_file
                           ++ " created successfully." ++ nl
                      else "Error combining tessdata files into "
                           ++ output_file ++ nl))
             (fun _ => finish))
      end)
  else if is_extract_or_unpack argv then
    Do (Init (arg argv 2)) (fun ok =>
      if negb ok then
        Do (Tprintf ("Failed to read " ++ arg argv 2 ++ nl)) (fun _ => Exit 1)
      else
        Do (Printf ("Extracting tessdata components from "
                    ++ arg argv 2 ++ nl))
           (fun _ =>
              if String.eqb (arg argv 1) "-e"
              then extract_each (skipn 3 argv) finish
              else unpack_each (arg argv 3) kTessdataFileSuffixes finish))
  else if is_overwrite argv then
    let traineddata_filename := arg argv 2 ++ ".__tmp__" in
    Do (Rename (arg argv 2) traineddata_filename) (fun ok =>
      if negb ok then
        Do (Tprintf ("Failed to create a temporary file "
                     ++ traineddata_filename ++ nl))
           (fun _ => Exit 1)
      else
        Do (Init traineddata_filename) (fun _ =>
          Do (OverwriteComponents (arg argv 2) (skipn 3 argv))
             (fun _ => finish)))
  else if is_compact argv then
    Do (Init (arg argv 2)) (fun ok =>
      if negb ok then
        Do (Tprintf ("Failed to read " ++ arg argv 2 ++ nl)) (fun _ => Exit 1)
      else
        Do GetComponentLstm (fun ok =>
          if negb ok then
            Do (Tprintf ("No LSTM Component found in " ++ arg argv 2
                         ++ "!" ++ nl))
               (fun _ => Exit 1)
          else
            Do DeSerialize (fun ok =>
              if negb ok then
                Do (Tprintf ("Failed to deserialize LSTM in " ++ arg argv 2
                             ++ "!" ++ nl))
                   (fun _ => Exit 1)
              else
                Do ConvertToInt (fun _ =>
                  Do OpenWrite (fun _ =>
                    Do Serialize (fun ok =>
                      if negb ok then AssertFailed
                      else
                        Do OverwriteEntryLstm (fun _ =>
                          Do (SaveFile (arg argv 2)) (fun ok =>
                            if negb ok then
                              Do (Tprintf
                                    ("Failed to write modified traineddata:"
                                     ++ arg argv 2 ++ "!" ++ nl))
                                 (fun _ => Exit 1)
                            else finish))))))))
  else if is_directory argv then
    Do (Init (arg argv 2)) (fun _ => finish)
  else
    match argv with
    | [] => BadRead
    | argv0 :: _ => print_each (usage argv0) (Return 1)
    end.

End Main.

(** A run of a program against the answers of the outside, which may
    depend on the calls made so far: the calls in order, and how it ends. *)
Fixpoint run (answer : list call -> call -> bool) (p : prog)
         (trace : list call) : list call * prog :=
  match p with
  | Do c k => run answer (k (answer trace c)) (trace ++ [c])%list
  | _ => (trace, p)
  end.

(** ** Definitions for the properties *)

(** One of the five forms of command line that the chain of tests
    accepts. *)
Definition known_form (argv : list string) : bool :=
  is_combine argv || is_extract_or_unpack argv || is_overwrite argv
  || is_compact argv || is_directory argv.

(** The file names of the calls of [ExtractToFile], in order. *)
Fixpoint extracted (trace : list call) : list string :=
  match trace with
  | [] => []
  | ExtractToFile f :: trace' => f :: extracted trace'
  | _ :: trace' => extracted trace'
  end.

(** A program that calls [Directory] last before it returns 0, calls it
    nowhere else, and otherwise ends by [exit(1)], by a failed assertion or
    by a bad read. *)
Inductive orderly : prog -> Prop :=
| orderly_finish k :
    (forall b, k b = Return 0) -> orderly (Do Directory k)
| orderly_exit : orderly (Exit 1)
| orderly_assert : orderly AssertFailed
| orderly_bad_read : orderly BadRead
| orderly_do c k :
    c <> Directory -> (forall b, orderly (k b)) -> orderly (Do c k).

End CombineTessdata.

(** * Lemmas *)

(** ** Examples *)

Example cafe_strict :
  convert Strict [0x63; 0x61; 0x66; 0xC3; 0xA9] (Some [0; 0; 0; 0])
  = Returned 4 (Some [0x63; 0x61; 0x66; 0xE9]).
Proof. reflexivity. Qed.

Example lone_lead_byte :
  convert Strict [0xC3] None = Returned (-1) None
  /\ convert Permissive [0xC3] None = Returned (-1) None.
Proof. split; reflexivity. Qed.

(** A continuation byte that lies in memory but beyond [ss_size]. *)
Example continuation_beyond_length :
  utf8_password_to_pdfdoc None [0x61; 0xC3; 0xA9] 2 true = Returned (-1) None
  /\ utf8_password_to_pdfdoc None [0x61; 0xC3; 0xA9] 3 true = Returned 2 None.
Proof. split; reflexivity. Qed.

Example utf8_decode_cafe :
  utf8_decode [0x63; 0x61; 0x66; 0xC3; 0xA9] = Some [0x63; 0x61; 0x66; 0xE9].
Proof. reflexivity. Qed.

Example utf8_decode_emoji :
  utf8_decode [0xF0; 0x9F; 0x98; 0x80] = Some [0x1F600].
Proof. reflexivity. Qed.

Example utf8_decode_overlong : utf8_decode [0xC1; 0x81] = None.
Proof. reflexivity. Qed.

Example utf8_decode_surrogate : utf8_decode [0xED; 0xA0; 0x80] = None.
Proof. reflexivity. Qed.

(** ** The loop computes [emit] of [scan] *)

Lemma scan_cons (c0 : Z) (t0 : list Z) :
  scan (c0 :: t0) =
  if c0 =? 0 then ([], NulByte)
  else match decode_head (c0 :: t0) with
       | None => ([], BadSequence)
       | Some (d, rest) => push d (scan rest)
       end.
Proof.
  simpl. destruct (c0 =? 0); [reflexivity|].
  destruct (Z.land c0 128 =? 0); [reflexivity|].
  destruct t0 as [|c1 t1]; [reflexivity|].
  destruct ((Z.land c0 224 =? 192) && (Z.land c1 192 =? 128)); [reflexivity|].
  destruct t1 as [|c2 t2]; [reflexivity|].
  destruct ((Z.land c0 240 =? 224) && (Z.land c1 192 =? 128)
            && (Z.land c2 192 =? 128)); reflexivity.
Qed.

(** A decoded sequence takes one to three bytes off the front. *)
Lemma decode_head_some (l rest : list Z) (d : Z) :
  decode_head l = Some (d, rest) ->
  exists used, l = used ++ rest /\ (1 <= length used <= 3)%nat.
Proof.
  unfold decode_head. destruct l as [|c0 t0]; [discriminate|].
  destruct (Z.land c0 128 =? 0).
  { intros [= _ <-]. exists [c0]. simpl. split; [reflexivity | lia]. }
  destruct t0 as [|c1 t1]; [discriminate|].
  destruct ((Z.land c0 224 =? 192) && (Z.land c1 192 =? 128)).
  { intros [= _ <-]. exists [c0; c1]. simpl. split; [reflexivity | lia]. }
  destruct t1 as [|c2 t2]; [discriminate|].
  destruct ((Z.land c0 240 =? 224) && (Z.land c1 192 =? 128)
            && (Z.land c2 192 =? 128)); [|discriminate].
  intros [= _ <-]. exists [c0; c1; c2]. simpl. split; [reflexivity | lia].
Qed.

Lemma char_at_app (pre l : list Z) (k : nat) :
  char_at (pre ++ l) (Z.of_nat (length pre) + Z.of_nat k) = nth k l 0.
Proof.
  unfold char_at.
  replace (Z.to_nat (Z.of_nat (length pre) + Z.of_nat k))
    with (length pre + k)%nat by lia.
  rewrite app_nth2 by lia. f_equal. lia.
Qed.

Lemma char_at_app0 (pre l : list Z) :
  char_at (pre ++ l) (Z.of_nat (length pre)) = nth 0 l 0.
Proof.
  rewrite <- (char_at_app pre l 0). f_equal. lia.
Qed.

Lemma char_at_app1 (pre l : list Z) :
  char_at (pre ++ l) (Z.of_nat (length pre) + 1) = nth 1 l 0.
Proof. apply (char_at_app pre l 1). Qed.

Lemma char_at_app2 (pre l : list Z) :
  char_at (pre ++ l) (Z.of_nat (length pre) + 2) = nth 2 l 0.
Proof. apply (char_at_app pre l 2). Qed.

(** The decoder at index [length pre] of [pre ++ rest ++ junk], with
    [ss_size] at the end of [rest], is [decode_head rest]: the bytes of [junk]
    are never looked at. *)
Lemma decode_utf8_app (pre rest junk : list Z) :
  rest <> [] ->
  decode_utf8 (pre ++ rest ++ junk) (Z.of_nat (length pre + length rest))
              (Z.of_nat (length pre))
  = match decode_head rest with
    | None => None
    | Some (d, rest') =>
      Some (d, Z.of_nat (length pre + (length rest - length rest')))
    end.
Proof.
  intros Hne. unfold decode_utf8.
  rewrite char_at_app0, char_at_app1, char_at_app2.
  destruct rest as [|c0 t0]; [congruence|]. clear Hne.
  cbn [app nth decode_head length].
  destruct (Z.land c0 128 =? 0).
  { do 2 f_equal. lia. }
  destruct t0 as [|c1 t1]; cbn [app nth length].
  { replace (Z.of_nat (length pre) + 1 <? Z.of_nat (length pre + 1)) with false
      by (symmetry; apply Z.ltb_ge; lia).
    rewrite !andb_false_r. reflexivity. }
  replace (Z.of_nat (length pre) + 1 <? Z.of_nat (length pre + S (S (length t1))))
    with true by (symmetry; apply Z.ltb_lt; lia).
  rewrite !andb_true_r.
  destruct ((Z.land c0 224 =? 192) && (Z.land c1 192 =? 128)).
  { do 2 f_equal. lia. }
  destruct t1 as [|c2 t2]; cbn [app nth length].
  { replace (Z.of_nat (length pre) + 2 <? Z.of_nat (length pre + 2)) with false
      by (symmetry; apply Z.ltb_ge; lia).
    rewrite !andb_false_r. reflexivity. }
  replace (Z.of_nat (length pre) + 2
           <? Z.of_nat (length pre + S (S (S (length t2)))))
    with true by (symmetry; apply Z.ltb_lt; lia).
  rewrite !andb_true_r.
  destruct ((Z.land c0 240 =? 224) && (Z.land c1 192 =? 128)
            && (Z.land c2 192 =? 128)); [|reflexivity].
  do 2 f_equal. lia.
Qed.

(** The invariant of the loop: at index [length pre], with [n] bytes counted,
    it returns what [emit] returns on the points of the bytes left. *)
Lemma loop_emit_scan (encrypt_b : bool) (junk : list Z) (fuel : nat) :
  forall (pre rest : list Z) (bb : option (list Z)) (n : nat),
    (length rest < fuel)%nat ->
    loop fuel bb (pre ++ rest ++ junk) (Z.of_nat (length pre + length rest))
         encrypt_b (Z.of_nat (length pre)) (Z.of_nat n)
    = emit encrypt_b (fst (scan rest)) (snd (scan rest)) bb n.
Proof.
  induction fuel as [|fuel IH]; intros pre rest bb n Hfuel; [lia|].
  destruct rest as [|c0 t0].
  - cbn [loop scan fst snd emit length].
    replace (Z.of_nat (length pre) <? Z.of_nat (length pre + 0)) with false
      by (symmetry; apply Z.ltb_ge; lia).
    reflexivity.
  - cbn [loop].
    replace (Z.of_nat (length pre) <? Z.of_nat (length pre + length (c0 :: t0)))
      with true by (symmetry; apply Z.ltb_lt; cbn [length]; lia).
    replace (Z.of_nat n =? -1) with false by (symmetry; apply Z.eqb_neq; lia).
    rewrite char_at_app0. cbn [app nth andb negb].
    rewrite scan_cons.
    destruct (c0 =? 0) eqn:Hc0; cbn [negb andb]; [reflexivity|].
    change (pre ++ c0 :: t0 ++ junk) with (pre ++ (c0 :: t0) ++ junk).
    rewrite decode_utf8_app by discriminate.
    destruct (decode_head (c0 :: t0)) as [[d rest']|] eqn:Hdec;
      [|reflexivity].
    destruct (decode_head_some _ _ _ Hdec) as (used & Hused & Hlen).
    assert (Hl : length (c0 :: t0) = (length used + length rest')%nat)
      by (rewrite Hused, length_app; reflexivity).
    cbn [push fst snd emit].
    rewrite Hused, <- !app_assoc, (app_assoc pre used).
    replace (length pre + length (used ++ rest'))%nat
      with (length (pre ++ used) + length rest')%nat
      by (rewrite !length_app; lia).
    replace (length pre + (length (used ++ rest') - length rest'))%nat
      with (length (pre ++ used)) by (rewrite !length_app; lia).
    destruct (pdfdoc_of_data encrypt_b d) as [b|].
    + destruct bb as [buf|].
      * destruct (store buf (Z.of_nat n) (to_jbyte b)) as [buf'|];
          [|reflexivity].
        replace (Z.of_nat n + 1) with (Z.of_nat (S n)) by lia.
        apply IH. rewrite Hl in Hfuel. lia.
      * replace (Z.of_nat n + 1) with (Z.of_nat (S n)) by lia.
        apply IH. rewrite Hl in Hfuel. lia.
    + (* ret_val is -1: the loop condition fails at the next test *)
      destruct fuel as [|fuel']; [rewrite Hl in Hfuel; lia|].
      cbn [loop]. rewrite andb_false_r. reflexivity.
Qed.

(** The function on the first [ss_size] bytes of [ss]; what follows them is
    not read. *)
Lemma utf8_password_to_pdfdoc_emit (bb : option (list Z)) (ss : list Z)
      (ss_size : Z) (encrypt_b : bool) :
  ss_size <= Z.of_nat (length ss) ->
  utf8_password_to_pdfdoc bb ss ss_size encrypt_b
  = emit encrypt_b (code_points (firstn (Z.to_nat ss_size) ss))
         (stopped (firstn (Z.to_nat ss_size) ss)) bb 0.
Proof.
  intros Hsize. unfold utf8_password_to_pdfdoc, code_points, stopped.
  set (k := Z.to_nat ss_size).
  assert (Hk : (k <= length ss)%nat) by lia.
  destruct (Z.leb_spec 0 ss_size) as [Hpos|Hneg].
  - rewrite <- (firstn_skipn k ss) at 1.
    pose proof (loop_emit_scan encrypt_b (skipn k ss) (S k) [] (firstn k ss)
                               bb 0) as H.
    cbn [app length Nat.add] in H.
    rewrite length_firstn, Nat.min_l in H by exact Hk.
    replace (Z.of_nat k) with ss_size in H by lia.
    apply H. lia.
  - replace k with 0%nat by lia. cbn [loop firstn scan fst snd emit].
    replace (0 <? ss_size) with false by (symmetry; apply Z.ltb_ge; lia).
    reflexivity.
Qed.

Lemma convert_emit (m : Mode) (input : list Z) (output : option (list Z)) :
  convert m input output
  = emit (encrypting m) (code_points input) (stopped input) output 0.
Proof.
  unfold convert. rewrite utf8_password_to_pdfdoc_emit by lia.
  rewrite Nat2Z.id, firstn_all. reflexivity.
Qed.

(** ** [emit] in closed form *)

Lemma emit_null (encrypt_b : bool) (st : stop) (cps : list Z) :
  forall n, emit encrypt_b cps st None n
            = Returned (emit_ret encrypt_b cps st n) None.
Proof.
  unfold emit_ret.
  induction cps as [|cp cps IH]; intros n; cbn [emit all_good forallb length].
  - rewrite Nat.add_0_r. destruct st; reflexivity.
  - destruct (pdfdoc_of_data encrypt_b cp); [|reflexivity].
    rewrite IH. cbn [andb]. fold (all_good encrypt_b cps).
    replace (S n + length cps)%nat with (n + S (length cps))%nat by lia.
    reflexivity.
Qed.

Lemma store_at_end (pre : list Z) (v : Z) :
  store (pre ++ []) (Z.of_nat (length pre)) v = None.
Proof.
  unfold store. rewrite app_nil_r.
  replace (Z.of_nat (length pre) <? Z.of_nat (length pre)) with false
    by (symmetry; apply Z.ltb_ge; lia).
  rewrite andb_false_r. reflexivity.
Qed.

Lemma store_inside (pre post : list Z) (x v : Z) :
  store (pre ++ x :: post) (Z.of_nat (length pre)) v = Some (pre ++ v :: post).
Proof.
  unfold store. rewrite length_app. cbn [length].
  replace (0 <=? Z.of_nat (length pre)) with true
    by (symmetry; apply Z.leb_le; lia).
  replace (Z.of_nat (length pre) <? Z.of_nat (length pre + S (length post)))
    with true by (symmetry; apply Z.ltb_lt; lia).
  cbn [andb]. rewrite Nat2Z.id.
  rewrite firstn_app, firstn_all, Nat.sub_diag. cbn [firstn].
  rewrite app_nil_r.
  change (S (length pre)) with (1 + length pre)%nat.
  rewrite <- skipn_skipn.
  rewrite skipn_app, skipn_all, Nat.sub_diag. reflexivity.
Qed.

(** With a buffer: the bytes of [written] replace those after the [n]
    already there, unless they do not fit. *)
Lemma emit_buffer (encrypt_b : bool) (st : stop) (cps : list Z) :
  forall (pre post : list Z),
    emit encrypt_b cps st (Some (pre ++ post)) (length pre)
    = if (length (written encrypt_b cps) <=? length post)%nat
      then Returned (emit_ret encrypt_b cps st (length pre))
                    (Some (pre ++ written encrypt_b cps
                               ++ skipn (length (written encrypt_b cps)) post))
      else OutOfBounds.
Proof.
  unfold emit_ret.
  induction cps as [|cp cps IH]; intros pre post;
    cbn [emit written all_good forallb length].
  - rewrite Nat.add_0_r. cbn. destruct st; reflexivity.
  - destruct (pdfdoc_of_data encrypt_b cp) as [b|]; [|reflexivity].
    cbn [length andb]. fold (all_good encrypt_b cps).
    destruct post as [|x post].
    + rewrite store_at_end. reflexivity.
    + rewrite store_inside.
      change (pre ++ to_jbyte b :: post) with (pre ++ [to_jbyte b] ++ post).
      rewrite app_assoc.
      replace (S (length pre)) with (length (pre ++ [to_jbyte b]))
        by (rewrite length_app; cbn [length]; lia).
      rewrite IH. cbn [length Nat.leb skipn].
      destruct (length (written encrypt_b cps) <=? length post)%nat;
        [|reflexivity].
      rewrite <- app_assoc. cbn [app].
      replace (length (pre ++ [to_jbyte b]) + length cps)%nat
        with (length pre + S (length cps))%nat
        by (rewrite length_app; cbn [length]; lia).
      reflexivity.
Qed.

(** ** The conversion in closed form *)

Lemma convert_null (m : Mode) (input : list Z) :
  convert m input None = Returned (result_of (encrypting m) input) None.
Proof.
  rewrite convert_emit, emit_null. reflexivity.
Qed.

Lemma convert_buffer (m : Mode) (input buf : list Z) :
  convert m input (Some buf)
  = let w := written (encrypting m) (code_points input) in
    if (length w <=? length buf)%nat
    then Returned (result_of (encrypting m) input)
                  (Some (w ++ skipn (length w) buf))
    else OutOfBounds.
Proof.
  rewrite convert_emit.
  apply (emit_buffer (encrypting m) (stopped input) (code_points input) [] buf).
Qed.

(** ** Facts about the classification *)

(** Case analysis on the bits of the scrutinee of a [switch]. *)
Ltac peel_switch :=
  repeat match goal with
         | |- context [match ?p with xH => _ | xO _ => _ | xI _ => _ end] =>
           destruct p
         | |- context [match ?z with Z0 => _ | Zpos _ => _ | Zneg _ => _ end] =>
           destruct z
         end.

Ltac in_cases H :=
  cbn in H;
  repeat (destruct H as [H|H]; [injection H as <- <-; reflexivity|]);
  contradiction.

Lemma pdfdoc_always_cases (data b : Z) :
  pdfdoc_always data = Some b <-> In (data, b) always_cases.
Proof.
  split.
  - unfold pdfdoc_always.
    peel_switch; try discriminate; intros [= <-]; cbn; tauto.
  - intros H. in_cases H.
Qed.

Lemma pdfdoc_decrypt_only_cases (data b : Z) :
  pdfdoc_decrypt_only data = Some b <-> In (data, b) decrypt_only_cases.
Proof.
  split.
  - unfold pdfdoc_decrypt_only.
    peel_switch; try discriminate; intros [= <-]; cbn; tauto.
  - intros H. in_cases H.
Qed.

Lemma pdfdoc_always_points (data : Z) :
  (exists b, pdfdoc_always data = Some b) <-> In data always_points.
Proof.
  unfold always_points. rewrite in_map_iff. split.
  - intros [b Hb]. exists (data, b). split; [reflexivity|].
    apply pdfdoc_always_cases, Hb.
  - intros [[d b] [Hd Hin]]. cbn in Hd. subst d. exists b.
    apply pdfdoc_always_cases, Hin.
Qed.

Lemma data_point_good_iff (data : Z) :
  data_point_good data = true <->
  0x20 <= data < 0x7f \/ 0xa0 <= data <= 0xff.
Proof.
  unfold data_point_good.
  rewrite orb_true_iff, !andb_true_iff, !Z.leb_le, !Z.ltb_lt. tauto.
Qed.

Lemma data_point_good_not (data : Z) :
  data_point_good data = false <->
  ~ (0x20 <= data < 0x7f \/ 0xa0 <= data <= 0xff).
Proof.
  rewrite <- data_point_good_iff. destruct (data_point_good data); split;
    congruence.
Qed.

(** A point outside both [switch] statements. *)
Lemma pdfdoc_always_none (data : Z) :
  ~ In data always_points -> pdfdoc_always data = None.
Proof.
  intros H. destruct (pdfdoc_always data) as [b|] eqn:E; [|reflexivity].
  exfalso. apply H, pdfdoc_always_points. exists b. exact E.
Qed.

Lemma pdfdoc_decrypt_only_none (data : Z) :
  ~ In data (map fst decrypt_only_cases) -> pdfdoc_decrypt_only data = None.
Proof.
  intros H. destruct (pdfdoc_decrypt_only data) as [b|] eqn:E; [|reflexivity].
  exfalso. apply H, in_map_iff. exists (data, b). split; [reflexivity|].
  apply pdfdoc_decrypt_only_cases, E.
Qed.

(** Every entry of the table is a byte. *)
Lemma table_bytes :
  Forall (fun b => 0 <= b <= 0xFF) unicode_latin_extended_windows_map.
Proof.
  apply Forall_forall. intros b Hb.
  assert (H : forallb (fun b => (0 <=? b) && (b <=? 0xFF))
                      unicode_latin_extended_windows_map = true)
    by (vm_compute; reflexivity).
  rewrite forallb_forall in H. specialize (H b Hb).
  apply andb_true_iff in H. destruct H as [H1 H2].
  apply Z.leb_le in H1. apply Z.leb_le in H2. lia.
Qed.

(** Whatever the classification yields fits the byte it is stored in. *)
Lemma pdfdoc_of_data_byte (encrypt_b : bool) (data b : Z) :
  pdfdoc_of_data encrypt_b data = Some b -> 0 <= b <= 0xFF.
Proof.
  unfold pdfdoc_of_data.
  destruct (data_point_good data) eqn:Hgood.
  { intros [= <-]. apply data_point_good_iff in Hgood. lia. }
  destruct (pdfdoc_always data) as [b'|] eqn:Halways.
  { intros [= <-]. apply pdfdoc_always_cases in Halways.
    cbn in Halways.
    repeat (destruct Halways as [Halways|Halways];
            [injection Halways as <- <-; lia|]).
    contradiction. }
  destruct encrypt_b; [discriminate|].
  destruct ((256 <=? data) && (data <=? 511)) eqn:Hrange.
  { intros Hb.
    assert (Hnth : nth (Z.to_nat (data - 256))
                       unicode_latin_extended_windows_map 0 = b)
      by congruence.
    rewrite <- Hnth. clear Hb Hnth.
    apply andb_true_iff in Hrange. destruct Hrange as [H1 H2].
    apply Z.leb_le in H1. apply Z.leb_le in H2.
    pose proof table_bytes as Htab. rewrite Forall_forall in Htab.
    apply Htab, nth_In.
    change (length unicode_latin_extended_windows_map) with 256%nat. lia. }
  intros Hd. apply pdfdoc_decrypt_only_cases in Hd. cbn in Hd.
  repeat (destruct Hd as [Hd|Hd]; [injection Hd as <- <-; lia|]).
  contradiction.
Qed.

Lemma to_jbyte_small (b : Z) : 0 <= b <= 0xFF -> to_jbyte b = b.
Proof.
  intros H. unfold to_jbyte. change 255 with (Z.ones 8).
  rewrite Z.land_ones by lia. apply Z.mod_small. change (2 ^ 8) with 256. lia.
Qed.

(** ** Facts about [written] and [all_good] *)

Lemma written_length_le (encrypt_b : bool) (cps : list Z) :
  (length (written encrypt_b cps) <= length cps)%nat.
Proof.
  induction cps as [|cp cps IH]; cbn [written length]; [lia|].
  destruct (pdfdoc_of_data encrypt_b cp); cbn [length]; lia.
Qed.

Lemma all_good_written_length (encrypt_b : bool) (cps : list Z) :
  all_good encrypt_b cps = true ->
  length (written encrypt_b cps) = length cps.
Proof.
  induction cps as [|cp cps IH]; cbn [all_good forallb written length];
    [reflexivity|].
  destruct (pdfdoc_of_data encrypt_b cp); [|discriminate].
  cbn [andb length]. intros H. f_equal. apply IH, H.
Qed.

Lemma all_good_iff (encrypt_b : bool) (cps : list Z) :
  all_good encrypt_b cps = true <->
  forall cp, In cp cps -> exists b, pdfdoc_of_data encrypt_b cp = Some b.
Proof.
  unfold all_good. rewrite forallb_forall. split; intros H cp Hin.
  - specialize (H cp Hin).
    destruct (pdfdoc_of_data encrypt_b cp) as [b|]; [eauto | discriminate].
  - destruct (H cp Hin) as [b ->]. reflexivity.
Qed.

Lemma all_good_false_iff (encrypt_b : bool) (cps : list Z) :
  all_good encrypt_b cps = false <->
  exists cp, In cp cps /\ pdfdoc_of_data encrypt_b cp = None.
Proof.
  induction cps as [|cp cps IH]; cbn [all_good forallb].
  - split; [discriminate | intros [? [[] _]]].
  - fold (all_good encrypt_b cps).
    destruct (pdfdoc_of_data encrypt_b cp) as [b|] eqn:E; cbn [andb].
    + rewrite IH. split.
      * intros [cp' [Hin Hn]]. exists cp'. split; [right; exact Hin | exact Hn].
      * intros [cp' [[<-|Hin] Hn]]; [congruence|]. exists cp'. tauto.
    + split; [|reflexivity]. intros _. exists cp. split; [left; reflexivity|].
      exact E.
Qed.

(** When every point classifies, the [k]-th byte written is the
    classification of the [k]-th point. *)
Lemma written_nth (encrypt_b : bool) (cps : list Z) :
  all_good encrypt_b cps = true ->
  forall k cp, nth_error cps k = Some cp ->
    exists b, pdfdoc_of_data encrypt_b cp = Some b
              /\ nth_error (written encrypt_b cps) k = Some b.
Proof.
  induction cps as [|c cps IH]; cbn [all_good forallb written];
    intros Hgood k cp Hk.
  - destruct k; discriminate.
  - destruct (pdfdoc_of_data encrypt_b c) as [b|] eqn:E; [|discriminate].
    cbn [andb] in Hgood. destruct k as [|k]; cbn [nth_error] in *.
    + injection Hk as <-. exists b. split; [exact E|].
      rewrite to_jbyte_small by (eapply pdfdoc_of_data_byte; exact E).
      reflexivity.
    + apply IH; assumption.
Qed.

(** ** What a call returns *)

Lemma convert_returns (m : Mode) (input : list Z) (output : option (list Z))
      (r : Z) :
  returns (convert m input output) r -> r = result_of (encrypting m) input.
Proof.
  intros [bb H]. destruct output as [buf|].
  - rewrite convert_buffer in H. cbv zeta in H.
    destruct (length (written (encrypting m) (code_points input))
              <=? length buf)%nat; congruence.
  - rewrite convert_null in H. congruence.
Qed.

Lemma result_of_cases (encrypt_b : bool) (input : list Z) :
  (result_of encrypt_b input = -1
   /\ (stopped input = BadSequence
       \/ exists cp, In cp (code_points input)
                     /\ pdfdoc_of_data encrypt_b cp = None))
  \/ (result_of encrypt_b input = Z.of_nat (length (code_points input))
      /\ stopped input <> BadSequence
      /\ all_good encrypt_b (code_points input) = true).
Proof.
  unfold result_of.
  destruct (all_good encrypt_b (code_points input)) eqn:Hgood; cbn [andb].
  - destruct (stopped input) eqn:Hstop; cbn [bad_sequence negb].
    + right. repeat split; congruence.
    + right. repeat split; congruence.
    + left. split; [reflexivity | left; reflexivity].
  - left. split; [reflexivity|]. right.
    apply all_good_false_iff, Hgood.
Qed.

Lemma result_of_rejected (encrypt_b : bool) (input : list Z) (cp : Z) :
  In cp (code_points input) -> pdfdoc_of_data encrypt_b cp = None ->
  result_of encrypt_b input = -1.
Proof.
  intros Hin Hnone. unfold result_of.
  replace (all_good encrypt_b (code_points input)) with false; [reflexivity|].
  symmetry. apply all_good_false_iff. exists cp. tauto.
Qed.

Lemma result_of_bad_sequence (encrypt_b : bool) (input : list Z) :
  stopped input = BadSequence -> result_of encrypt_b input = -1.
Proof.
  intros H. unfold result_of. rewrite H. cbn [bad_sequence negb].
  rewrite andb_false_r. reflexivity.
Qed.

Lemma result_of_accepted (encrypt_b : bool) (input : list Z) :
  stopped input <> BadSequence ->
  all_good encrypt_b (code_points input) = true ->
  result_of encrypt_b input = Z.of_nat (length (code_points input)).
Proof.
  intros Hstop Hgood. unfold result_of. rewrite Hgood.
  destruct (stopped input); cbn [bad_sequence negb andb]; congruence.
Qed.

(** A non-negative result: nothing was rejected, and [written] holds one
    byte per code point. *)
Lemma result_of_nonneg (encrypt_b : bool) (input : list Z) (n : Z) :
  result_of encrypt_b input = n -> 0 <= n ->
  n = Z.of_nat (length (code_points input))
  /\ stopped input <> BadSequence
  /\ all_good encrypt_b (code_points input) = true.
Proof.
  intros Hres Hn.
  destruct (result_of_cases encrypt_b input) as [[H _]|[H [H1 H2]]].
  - lia.
  - split; [congruence | tauto].
Qed.

(** The fuel given to [loop] is enough, and a call without a buffer always
    returns. *)
Lemma utf8_password_to_pdfdoc_total (bb : option (list Z)) (ss : list Z)
      (ss_size : Z) (encrypt_b : bool) :
  ss_size <= Z.of_nat (length ss) ->
  utf8_password_to_pdfdoc bb ss ss_size encrypt_b <> OutOfFuel
  /\ exists r, utf8_password_to_pdfdoc None ss ss_size encrypt_b
               = Returned r None.
Proof.
  intros Hsize. rewrite !utf8_password_to_pdfdoc_emit by exact Hsize. split.
  - destruct bb as [buf|].
    + rewrite (emit_buffer encrypt_b _ _ [] buf). cbn [length].
      destruct (_ <=? _)%nat; discriminate.
    + rewrite emit_null. discriminate.
  - rewrite emit_null. eauto.
Qed.

(** ** Induction along the decoder *)

Lemma decoder_ind (P : list Z -> Prop) :
  P [] ->
  (forall c0 t0,
      (forall d rest, decode_head (c0 :: t0) = Some (d, rest) -> P rest) ->
      P (c0 :: t0)) ->
  forall l, P l.
Proof.
  intros Hnil Hcons l.
  assert (H : forall n l, (length l <= n)%nat -> P l).
  { clear l. induction n as [|n IH]; intros l Hlen.
    - destruct l; [exact Hnil | cbn in Hlen; lia].
    - destruct l as [|c0 t0]; [exact Hnil|].
      apply Hcons. intros d rest Hdec.
      destruct (decode_head_some _ _ _ Hdec) as (used & Hused & Hu).
      apply IH. apply (f_equal (@length Z)) in Hused.
      rewrite length_app in Hused. lia. }
  apply (H (length l)). lia.
Qed.

Lemma code_points_length (l : list Z) :
  (length (code_points l) <= length l)%nat.
Proof.
  unfold code_points. induction l as [|c0 t0 IH] using decoder_ind;
    [cbn; lia|].
  rewrite scan_cons. destruct (c0 =? 0); [cbn; lia|].
  destruct (decode_head (c0 :: t0)) as [[d rest]|] eqn:Hdec; [|cbn; lia].
  specialize (IH d rest eq_refl).
  destruct (decode_head_some _ _ _ Hdec) as (used & Hused & Hu).
  apply (f_equal (@length Z)) in Hused. rewrite length_app in Hused.
  cbn [push fst length] in *. lia.
Qed.

Lemma decode_head_app (l l' rest : list Z) (d : Z) :
  decode_head l = Some (d, rest) ->
  decode_head (l ++ l') = Some (d, rest ++ l').
Proof.
  unfold decode_head. destruct l as [|c0 t0]; [discriminate|].
  cbn [app]. destruct (Z.land c0 128 =? 0).
  { intros [= <- <-]. reflexivity. }
  destruct t0 as [|c1 t1]; [discriminate|]. cbn [app].
  destruct ((Z.land c0 224 =? 192) && (Z.land c1 192 =? 128)).
  { intros [= <- <-]. reflexivity. }
  destruct t1 as [|c2 t2]; [discriminate|]. cbn [app].
  destruct ((Z.land c0 240 =? 224) && (Z.land c1 192 =? 128)
            && (Z.land c2 192 =? 128)); [|discriminate].
  intros [= <- <-]. reflexivity.
Qed.

(** Decoding runs through a prefix made of whole sequences and goes on with
    what follows it. *)
Lemma scan_app (pre rest : list Z) :
  stopped pre = EndOfInput ->
  scan (pre ++ rest) = (code_points pre ++ code_points rest, stopped rest).
Proof.
  unfold stopped, code_points.
  induction pre as [|c0 t0 IH] using decoder_ind; intros Hstop.
  - cbn [app scan fst]. destruct (scan rest); reflexivity.
  - change ((c0 :: t0) ++ rest) with (c0 :: (t0 ++ rest)).
    rewrite scan_cons in Hstop |- *.
    rewrite scan_cons.
    destruct (c0 =? 0); [discriminate|].
    change (c0 :: t0 ++ rest) with ((c0 :: t0) ++ rest).
    destruct (decode_head (c0 :: t0)) as [[d r]|] eqn:Hdec; [|discriminate].
    rewrite (decode_head_app _ rest _ _ Hdec).
    cbn [push fst snd] in Hstop |- *.
    rewrite (IH d r eq_refl Hstop). reflexivity.
Qed.

(** Where the decoder fails, nothing is decoded. *)
Lemma scan_bad_head (rest : list Z) :
  rest <> [] -> decode_head rest = None -> scan rest = ([], BadSequence).
Proof.
  intros Hne Hdec. destruct rest as [|c0 t0]; [congruence|].
  rewrite scan_cons, Hdec.
  destruct (c0 =? 0) eqn:Hc0; [|reflexivity].
  apply Z.eqb_eq in Hc0. subst c0. discriminate.
Qed.

(** ** Calls with a buffer *)

(** After a call that returns a count, the [k]-th byte of the buffer is the
    classification of the [k]-th decoded point. *)
Lemma convert_buffer_nth (m : Mode) (input buf buf' : list Z) (n : Z) :
  convert m input (Some buf) = Returned n (Some buf') -> 0 <= n ->
  forall k cp, nth_error (code_points input) k = Some cp ->
    exists b, pdfdoc_of_data (encrypting m) cp = Some b
              /\ nth_error buf' k = Some b.
Proof.
  intros Hconv Hn k cp Hk. rewrite convert_buffer in Hconv. cbv zeta in Hconv.
  destruct (_ <=? _)%nat; [|discriminate].
  injection Hconv as Hres Hbuf.
  destruct (result_of_nonneg _ _ _ Hres Hn) as (_ & _ & Hgood).
  destruct (written_nth _ _ Hgood k cp Hk) as (b & Hb & Hw).
  exists b. split; [exact Hb|]. subst buf'.
  rewrite nth_error_app1; [exact Hw|].
  apply nth_error_Some. congruence.
Qed.

(** An input with nothing to reject, and a buffer with room for it. *)
Lemma convert_buffer_accepted (m : Mode) (input buf : list Z) :
  stopped input <> BadSequence ->
  all_good (encrypting m) (code_points input) = true ->
  (length (code_points input) <= length buf)%nat ->
  convert m input (Some buf)
  = Returned (Z.of_nat (length (code_points input)))
             (Some (written (encrypting m) (code_points input)
                    ++ skipn (length (code_points input)) buf)).
Proof.
  intros Hstop Hgood Hlen. rewrite convert_buffer. cbv zeta.
  rewrite (all_good_written_length _ _ Hgood).
  rewrite (proj2 (Nat.leb_le _ _) Hlen).
  rewrite (result_of_accepted _ _ Hstop Hgood). reflexivity.
Qed.

Lemma written_prefix (encrypt_b : bool) (cps : list Z) :
  forall k, (k < length (written encrypt_b cps))%nat ->
    exists cp b, nth_error cps k = Some cp
                 /\ pdfdoc_of_data encrypt_b cp = Some b
                 /\ nth_error (written encrypt_b cps) k = Some b.
Proof.
  induction cps as [|c cps IH]; cbn [written length]; intros k Hk; [lia|].
  destruct (pdfdoc_of_data encrypt_b c) as [b|] eqn:E; cbn [length] in Hk;
    [|lia].
  destruct k as [|k]; cbn [nth_error].
  - exists c, b. split; [reflexivity|]. split; [exact E|].
    rewrite to_jbyte_small by (eapply pdfdoc_of_data_byte; exact E).
    reflexivity.
  - apply IH. lia.
Qed.

Lemma written_stops (encrypt_b : bool) (cps : list Z) :
  length (written encrypt_b cps) = length cps
  \/ exists cp, nth_error cps (length (written encrypt_b cps)) = Some cp
                /\ pdfdoc_of_data encrypt_b cp = None.
Proof.
  induction cps as [|c cps IH]; cbn [written length]; [left; reflexivity|].
  destruct (pdfdoc_of_data encrypt_b c) as [b|] eqn:E; cbn [length nth_error].
  - destruct IH as [IH|IH]; [left; congruence | right; exact IH].
  - right. exists c. split; [reflexivity | exact E].
Qed.

Lemma convert_buffer_stored (m : Mode) (input buf : list Z) :
  stopped input <> BadSequence ->
  all_good (encrypting m) (code_points input) = true ->
  (length (code_points input) <= length buf)%nat ->
  exists buf',
    convert m input (Some buf)
    = Returned (Z.of_nat (length (code_points input))) (Some buf')
    /\ length buf' = length buf
    /\ (forall k cp, nth_error (code_points input) k = Some cp ->
          exists b, pdfdoc_of_data (encrypting m) cp = Some b
                    /\ nth_error buf' k = Some b)
    /\ (forall k, (length (code_points input) <= k)%nat ->
                  nth_error buf' k = nth_error buf k).
Proof.
  intros Hstop Hgood Hlen. eexists.
  split; [apply convert_buffer_accepted; assumption|].
  pose proof (all_good_written_length _ _ Hgood) as Hw.
  split; [rewrite length_app, length_skipn; lia|]. split.
  - intros k cp Hk.
    destruct (written_nth _ _ Hgood k cp Hk) as (b & Hb & Hn).
    exists b. split; [exact Hb|].
    rewrite nth_error_app1; [exact Hn|]. apply nth_error_Some. congruence.
  - intros k Hk. rewrite nth_error_app2 by lia.
    rewrite Hw, nth_error_skipn. f_equal. lia.
Qed.

Lemma convert_buffer_adequate (m : Mode) (input buf : list Z) :
  (length input <= length buf)%nat ->
  exists buf',
    convert m input (Some buf)
    = Returned (result_of (encrypting m) input) (Some buf')
    /\ length buf' = length buf.
Proof.
  intros Hlen. rewrite convert_buffer. cbv zeta.
  pose proof (written_length_le (encrypting m) (code_points input)) as Hw.
  pose proof (code_points_length input) as Hc.
  rewrite (proj2 (Nat.leb_le _ _)) by lia.
  eexists. split; [reflexivity|]. rewrite length_app, length_skipn. lia.
Qed.

(** ** Strict and permissive classification *)

Lemma pdfdoc_of_data_good (encrypt_b : bool) (data : Z) :
  0x20 <= data < 0x7f \/ 0xa0 <= data <= 0xff ->
  pdfdoc_of_data encrypt_b data = Some data.
Proof.
  intros H. unfold pdfdoc_of_data.
  rewrite (proj2 (data_point_good_iff data) H). reflexivity.
Qed.

Lemma pdfdoc_of_data_strict (data b : Z) :
  pdfdoc_of_data true data = Some b <->
  ((0x20 <= data < 0x7f \/ 0xa0 <= data <= 0xff) /\ b = data)
  \/ (~ (0x20 <= data < 0x7f \/ 0xa0 <= data <= 0xff)
      /\ pdfdoc_always data = Some b).
Proof.
  unfold pdfdoc_of_data. destruct (data_point_good data) eqn:Hgood.
  - apply data_point_good_iff in Hgood. split.
    + intros [= <-]. left. tauto.
    + intros [[_ ->]|[Hn _]]; [reflexivity | tauto].
  - apply data_point_good_not in Hgood.
    destruct (pdfdoc_always data) as [b'|]; split.
    + intros [= <-]. right. tauto.
    + intros [[H _]|[_ H]]; [tauto | exact H].
    + discriminate.
    + intros [[H _]|[_ H]]; [tauto | discriminate].
Qed.

(** What encrypting accepts, decrypting accepts, with the same byte. *)
Lemma pdfdoc_of_data_strict_permissive (data b : Z) :
  pdfdoc_of_data true data = Some b -> pdfdoc_of_data false data = Some b.
Proof.
  unfold pdfdoc_of_data. destruct (data_point_good data); [tauto|].
  destruct (pdfdoc_always data); [tauto | discriminate].
Qed.

Lemma all_good_strict_permissive (cps : list Z) :
  all_good true cps = true ->
  all_good false cps = true /\ written false cps = written true cps.
Proof.
  induction cps as [|cp cps IH]; cbn [all_good forallb written];
    [tauto|].
  destruct (pdfdoc_of_data true cp) as [b|] eqn:E; [|discriminate].
  rewrite (pdfdoc_of_data_strict_permissive _ _ E). cbn [andb].
  intros H. destruct (IH H) as [H1 H2]. split; [exact H1 | congruence].
Qed.

(** ** Encodings checked by computation *)

(** A range of integers checked by computation. *)
Lemma Z_range_forallb (P : Z -> bool) (lo : Z) (n : nat) :
  forallb P (map (fun k => lo + Z.of_nat k) (seq 0 n)) = true ->
  forall z, lo <= z < lo + Z.of_nat n -> P z = true.
Proof.
  rewrite forallb_forall. intros H z Hz. apply H, in_map_iff.
  exists (Z.to_nat (z - lo)). split; [lia|]. apply in_seq. lia.
Qed.

(** The two-byte encoding of a point of the Latin-1 upper range. *)
Lemma scan_latin1 (cp : Z) :
  0xA0 <= cp <= 0xFF ->
  scan [0xC0 + cp / 64; 0x80 + cp mod 64] = ([cp], EndOfInput).
Proof.
  intros Hcp.
  pose (check := fun cp =>
          match scan [0xC0 + cp / 64; 0x80 + cp mod 64] with
          | ([d], EndOfInput) => d =? cp
          | _ => false
          end).
  assert (H : check cp = true).
  { apply (Z_range_forallb check 0xA0 96); [vm_compute; reflexivity | lia]. }
  unfold check in H.
  destruct (scan [0xC0 + cp / 64; 0x80 + cp mod 64]) as [[|d [|? ?]] []];
    try discriminate.
  apply Z.eqb_eq in H. subst d. reflexivity.
Qed.

(** A printable ASCII byte decodes to itself. *)
Lemma scan_ascii (cp : Z) :
  0x20 <= cp <= 0x7E -> scan [cp] = ([cp], EndOfInput).
Proof.
  intros Hcp.
  pose (check := fun cp =>
          match scan [cp] with
          | ([d], EndOfInput) => d =? cp
          | _ => false
          end).
  assert (H : check cp = true).
  { apply (Z_range_forallb check 0x20 95); [vm_compute; reflexivity | lia]. }
  unfold check in H.
  destruct (scan [cp]) as [[|d [|? ?]] []]; try discriminate.
  apply Z.eqb_eq in H. subst d. reflexivity.
Qed.

(** ** The patterns of the decoder *)

Lemma land_mask_narrow (c m1 m2 : Z) :
  Z.land m1 m2 = m2 -> Z.land c m2 = Z.land (Z.land c m1) m2.
Proof.
  intros H. rewrite <- Z.land_assoc, H. reflexivity.
Qed.

Lemma two_byte_lead_high (c : Z) : two_byte_lead c -> Z.land c 0x80 <> 0.
Proof.
  unfold two_byte_lead. intros H.
  rewrite (land_mask_narrow c 0xE0 0x80) by reflexivity.
  rewrite H. discriminate.
Qed.

Lemma three_byte_lead_high (c : Z) : three_byte_lead c -> Z.land c 0x80 <> 0.
Proof.
  unfold three_byte_lead. intros H.
  rewrite (land_mask_narrow c 0xF0 0x80) by reflexivity.
  rewrite H. discriminate.
Qed.

Lemma three_byte_lead_not_two (c : Z) : three_byte_lead c -> ~ two_byte_lead c.
Proof.
  unfold three_byte_lead, two_byte_lead. intros H.
  rewrite (land_mask_narrow c 0xF0 0xE0) by reflexivity.
  rewrite H. discriminate.
Qed.

(** The boolean test of two integers known to differ. *)
Lemma eqb_false_of (a b : Z) : a <> b -> (a =? b) = false.
Proof. apply Z.eqb_neq. Qed.

(** [bad_start] is the last branch of the decoder. *)
Lemma bad_start_iff (rest : list Z) :
  bad_start rest <-> rest <> [] /\ decode_head rest = None.
Proof.
  split.
  - intros H. split; [destruct H; discriminate|].
    destruct H as [c0 t Hh H2 H3 | c0 H2 | c0 c1 t H2 Hc
                   | c0 H3 | c0 c1 t H3 Hc | c0 c1 H3 | c0 c1 c2 t H3 Hc];
      try pose proof (two_byte_lead_high _ H2) as Hh;
      try pose proof (three_byte_lead_high _ H3) as Hh;
      try pose proof (three_byte_lead_not_two _ H3) as H2';
      unfold two_byte_lead, three_byte_lead, continuation in *;
      cbn [decode_head]; rewrite (eqb_false_of _ _ Hh).
    + rewrite (eqb_false_of _ _ H2), (eqb_false_of _ _ H3).
      destruct t as [|c1 [|c2 t]]; reflexivity.
    + reflexivity.
    + rewrite (eqb_false_of _ _ Hc), andb_false_r.
      assert (H3 : Z.land c0 240 <> 224).
      { intros H3. apply (three_byte_lead_not_two c0 H3). exact H2. }
      rewrite (eqb_false_of _ _ H3). destruct t; reflexivity.
    + reflexivity.
    + rewrite (eqb_false_of _ _ Hc), !andb_false_r.
      destruct t; reflexivity.
    + rewrite (eqb_false_of _ _ H2'). reflexivity.
    + rewrite (eqb_false_of _ _ H2'), (eqb_false_of _ _ Hc), !andb_false_r.
      reflexivity.
  - intros [Hne Hdec]. destruct rest as [|c0 t0]; [congruence|]. clear Hne.
    cbn [decode_head] in Hdec.
    destruct (Z.eqb_spec (Z.land c0 128) 0) as [|Hh]; [discriminate|].
    destruct (Z.eqb_spec (Z.land c0 224) 192) as [H2|H2];
      destruct (Z.eqb_spec (Z.land c0 240) 224) as [H3|H3].
    + exfalso. apply (three_byte_lead_not_two c0 H3 H2).
    + destruct t0 as [|c1 t1]; [apply bad_two_missing, H2|].
      destruct (Z.eqb_spec (Z.land c1 192) 128) as [Hc|Hc];
        [discriminate|].
      apply bad_two_malformed; assumption.
    + destruct t0 as [|c1 t1]; [apply bad_three_missing_first, H3|].
      destruct (Z.eqb_spec (Z.land c1 192) 128) as [Hc1|Hc1];
        [|apply bad_three_malformed_first; assumption].
      destruct t1 as [|c2 t2]; [apply bad_three_missing_second, H3|].
      destruct (Z.eqb_spec (Z.land c2 192) 128) as [Hc2|Hc2];
        [discriminate|].
      apply bad_three_malformed_second; assumption.
    + apply bad_lead; assumption.
Qed.

(** Among the bytes, those from 80 to BF (continuation bytes) and from F0
    to FF (leads of four bytes or more, and the bytes UTF-8 never uses) fit no
    pattern as a leading byte. *)
Lemma no_pattern_bytes (c0 : Z) (t : list Z) :
  0x80 <= c0 <= 0xBF \/ 0xF0 <= c0 <= 0xFF -> bad_start (c0 :: t).
Proof.
  intros Hc0.
  pose (check := fun c => negb (Z.land c 0x80 =? 0)
                          && negb (Z.land c 0xE0 =? 0xC0)
                          && negb (Z.land c 0xF0 =? 0xE0)).
  assert (H : check c0 = true).
  { destruct Hc0 as [Hc0|Hc0].
    - apply (Z_range_forallb check 0x80 64); [vm_compute; reflexivity | lia].
    - apply (Z_range_forallb check 0xF0 16); [vm_compute; reflexivity | lia]. }
  unfold check in H.
  apply andb_true_iff in H. destruct H as [H H3].
  apply andb_true_iff in H. destruct H as [H1 H2].
  apply negb_true_iff, Z.eqb_neq in H1.
  apply negb_true_iff, Z.eqb_neq in H2.
  apply negb_true_iff, Z.eqb_neq in H3.
  apply bad_lead; assumption.
Qed.

(** ** Cutting the input at a NUL byte *)

Lemma emit_stop (encrypt_b : bool) (st st' : stop) (cps : list Z) :
  bad_sequence st = bad_sequence st' ->
  forall bb n, emit encrypt_b cps st bb n = emit encrypt_b cps st' bb n.
Proof.
  intros Hst. induction cps as [|cp cps IH]; intros bb n; cbn [emit].
  - destruct st, st'; try discriminate; reflexivity.
  - destruct (pdfdoc_of_data encrypt_b cp) as [b|]; [|reflexivity].
    destruct bb as [buf|]; [|apply IH].
    destruct (store buf (Z.of_nat n) (to_jbyte b)); [apply IH | reflexivity].
Qed.

(** A NUL byte is not a continuation byte. *)
Lemma nul_not_continuation : (Z.land 0 192 =? 128) = false.
Proof. reflexivity. Qed.

(** Cutting the input at its first NUL byte changes neither the decoded
    points nor whether decoding fails. *)
Lemma scan_until_nul (l : list Z) :
  fst (scan (until_nul l)) = fst (scan l)
  /\ bad_sequence (snd (scan (until_nul l))) = bad_sequence (snd (scan l)).
Proof.
  assert (H : forall n l, (length l <= n)%nat ->
            fst (scan (until_nul l)) = fst (scan l)
            /\ bad_sequence (snd (scan (until_nul l)))
               = bad_sequence (snd (scan l))).
  { clear l. induction n as [|n IH]; intros l Hlen.
    { destruct l; [split; reflexivity | cbn in Hlen; lia]. }
    destruct l as [|c0 t0]; [split; reflexivity|].
    cbn [until_nul scan].
    destruct (c0 =? 0) eqn:Hc0; [split; reflexivity|].
    cbn [scan]. rewrite Hc0.
    destruct (Z.land c0 128 =? 0).
    { destruct (IH t0) as [H1 H2]; [cbn in Hlen; lia|].
      cbn [push fst snd]. split; congruence. }
    destruct t0 as [|c1 t1]; [split; reflexivity|].
    cbn [until_nul].
    destruct (c1 =? 0) eqn:Hc1.
    { apply Z.eqb_eq in Hc1. subst c1.
      rewrite nul_not_continuation, !andb_false_r.
      destruct t1; split; reflexivity. }
    destruct ((Z.land c0 224 =? 192) && (Z.land c1 192 =? 128)).
    { destruct (IH t1) as [H1 H2]; [cbn in Hlen; lia|].
      cbn [push fst snd]. split; congruence. }
    destruct t1 as [|c2 t2]; [split; reflexivity|].
    cbn [until_nul].
    destruct (c2 =? 0) eqn:Hc2.
    { apply Z.eqb_eq in Hc2. subst c2.
      rewrite nul_not_continuation, !andb_false_r. split; reflexivity. }
    destruct ((Z.land c0 240 =? 224) && (Z.land c1 192 =? 128)
              && (Z.land c2 192 =? 128)); [|split; reflexivity].
    destruct (IH t2) as [H1 H2]; [cbn in Hlen; lia|].
    cbn [push fst snd]. split; congruence. }
  apply (H (length l)). lia.
Qed.

Lemma until_nul_no_nul (l : list Z) : ~ In 0 l -> until_nul l = l.
Proof.
  induction l as [|c t IH]; [reflexivity|]. cbn [until_nul In]. intros H.
  destruct (Z.eqb_spec c 0) as [->|_]; [tauto|].
  f_equal. apply IH. tauto.
Qed.

Lemma until_nul_prefix (l : list Z) :
  ~ In 0 (until_nul l) /\ exists t, l = until_nul l ++ t.
Proof.
  induction l as [|c t [IH1 [t' IH2]]]; [split; [tauto | exists []; reflexivity]|].
  cbn [until_nul]. destruct (Z.eqb_spec c 0) as [->|Hc].
  - split; [tauto|]. exists (0 :: t). reflexivity.
  - split.
    + cbn [In]. intros [H|H]; [congruence | tauto].
    + exists t'. cbn [app]. congruence.
Qed.

(** Without a NUL byte the two readings decode alike. *)
Lemma scan_whole_no_nul (fuel : nat) :
  forall l, ~ In 0 l -> (length l <= fuel)%nat -> scan_whole fuel l = scan l.
Proof.
  induction fuel as [|fuel IH]; intros l Hnul Hlen.
  - destruct l; [reflexivity | cbn in Hlen; lia].
  - destruct l as [|c0 t0]; [reflexivity|].
    cbn [scan_whole]. rewrite scan_cons.
    destruct (Z.eqb_spec c0 0) as [->|_]; [exfalso; apply Hnul; left; reflexivity|].
    destruct (decode_head (c0 :: t0)) as [[d rest]|] eqn:Hdec; [|reflexivity].
    destruct (decode_head_some _ _ _ Hdec) as (used & Hused & Hu).
    rewrite IH; [reflexivity | |].
    + intros H. apply Hnul. rewrite Hused. apply in_or_app. right. exact H.
    + apply (f_equal (@length Z)) in Hused. rewrite length_app in Hused.
      cbn [length] in *. lia.
Qed.

(** ** Well-formed input under the decoder of the source *)

Lemma in_range_iff (lo hi b : Z) : in_range lo hi b = true <-> lo <= b <= hi.
Proof.
  unfold in_range. rewrite andb_true_iff, !Z.leb_le. tauto.
Qed.

(** The bytes of a well-formed sequence fit the masks of the decoder. *)
Lemma ascii_byte (b : Z) :
  in_range 0x00 0x7F b = true -> (Z.land b 0x80 =? 0) = true.
Proof.
  intros H. apply in_range_iff in H.
  apply (Z_range_forallb (fun b => Z.land b 0x80 =? 0) 0 128);
    [vm_compute; reflexivity | lia].
Qed.

Lemma two_lead_byte (b : Z) :
  in_range 0xC2 0xDF b = true ->
  (Z.land b 0x80 =? 0) = false /\ (Z.land b 0xE0 =? 0xC0) = true.
Proof.
  intros H. apply in_range_iff in H.
  assert (Hc : negb (Z.land b 0x80 =? 0) && (Z.land b 0xE0 =? 0xC0) = true).
  { apply (Z_range_forallb
             (fun b => negb (Z.land b 0x80 =? 0) && (Z.land b 0xE0 =? 0xC0))
             0xC2 30); [vm_compute; reflexivity | lia]. }
  apply andb_true_iff in Hc. destruct Hc as [H1 H2].
  apply negb_true_iff in H1. tauto.
Qed.

Lemma continuation_byte (b : Z) :
  in_range 0x80 0xBF b = true -> (Z.land b 0xC0 =? 0x80) = true.
Proof.
  intros H. apply in_range_iff in H.
  apply (Z_range_forallb (fun b => Z.land b 0xC0 =? 0x80) 0x80 64);
    [vm_compute; reflexivity | lia].
Qed.

Lemma three_lead_byte (b : Z) :
  in_range 0xE0 0xEF b = true ->
  (Z.land b 0x80 =? 0) = false /\ (Z.land b 0xE0 =? 0xC0) = false
  /\ (Z.land b 0xF0 =? 0xE0) = true.
Proof.
  intros H. apply in_range_iff in H.
  assert (Hc : negb (Z.land b 0x80 =? 0) && negb (Z.land b 0xE0 =? 0xC0)
               && (Z.land b 0xF0 =? 0xE0) = true).
  { apply (Z_range_forallb
             (fun b => negb (Z.land b 0x80 =? 0)
                       && negb (Z.land b 0xE0 =? 0xC0)
                       && (Z.land b 0xF0 =? 0xE0))
             0xE0 16); [vm_compute; reflexivity | lia]. }
  apply andb_true_iff in Hc. destruct Hc as [Hc H3].
  apply andb_true_iff in Hc. destruct Hc as [H1 H2].
  apply negb_true_iff in H1. apply negb_true_iff in H2. tauto.
Qed.

Lemma second_of_three_continuation (b0 b1 : Z) :
  second_of_three b0 b1 = true -> in_range 0x80 0xBF b1 = true.
Proof.
  unfold second_of_three.
  destruct (b0 =? 0xE0); [|destruct (b0 =? 0xED)];
    rewrite !in_range_iff; lia.
Qed.

(** A four-byte sequence encodes a point above the Basic Multilingual
    Plane. *)
Lemma four_byte_value_large (b0 b1 b2 b3 : Z) :
  in_range 0xF0 0xF4 b0 = true -> second_of_four b0 b1 = true ->
  0x10000 <= Z.shiftl
               (Z.shiftl (Z.shiftl (Z.land b0 0x07) 6 + Z.land b1 0x3f) 6
                + Z.land b2 0x3f) 6
             + Z.land b3 0x3f.
Proof.
  intros H0 H1. apply in_range_iff in H0.
  assert (Hc : 0 <= Z.land b2 0x3f) by (apply Z.land_nonneg; right; lia).
  assert (Hd : 0 <= Z.land b3 0x3f) by (apply Z.land_nonneg; right; lia).
  assert (Hb : 0 <= Z.land b1 0x3f) by (apply Z.land_nonneg; right; lia).
  assert (Hab : 16 <= Z.shiftl (Z.land b0 0x07) 6 + Z.land b1 0x3f).
  { rewrite Z.shiftl_mul_pow2 by lia. change (2 ^ 6) with 64.
    unfold second_of_four in H1.
    assert (Hcase : b0 = 0xF0 \/ b0 = 0xF1 \/ b0 = 0xF2 \/ b0 = 0xF3
                    \/ b0 = 0xF4) by lia.
    destruct Hcase as [->|[->|[->|[->| ->]]]];
      match goal with
      | |- context [Z.land ?a 7] =>
        let v := eval vm_compute in (Z.land a 7) in change (Z.land a 7) with v
      end;
      [|lia..].
    change (240 =? 240) with true in H1. cbv iota in H1.
    apply in_range_iff in H1.
    assert (Hlow : (16 <=? Z.land b1 0x3f) = true).
    { apply (Z_range_forallb (fun b => 16 <=? Z.land b 0x3f) 0x90 48);
        [vm_compute; reflexivity | lia]. }
    apply Z.leb_le in Hlow. lia. }
  rewrite !Z.shiftl_mul_pow2 by lia. change (2 ^ 6) with 64.
  rewrite Z.shiftl_mul_pow2 in Hab by lia. change (2 ^ 6) with 64 in Hab.
  lia.
Qed.

(** Every code point that some mode represents lies in [0x20, 0x2122]. *)
Lemma pdfdoc_of_data_domain (encrypt_b : bool) (data b : Z) :
  pdfdoc_of_data encrypt_b data = Some b -> 0x20 <= data <= 0x2122.
Proof.
  unfold pdfdoc_of_data.
  destruct (data_point_good data) eqn:Hgood.
  { intros _. apply data_point_good_iff in Hgood. lia. }
  destruct (pdfdoc_always data) as [b'|] eqn:Halways.
  { intros _. apply pdfdoc_always_cases in Halways. cbn in Halways.
    repeat (destruct Halways as [Halways|Halways];
            [injection Halways as <- <-; lia|]).
    contradiction. }
  destruct encrypt_b; [discriminate|].
  destruct ((256 <=? data) && (data <=? 511)) eqn:Hrange.
  { intros _. apply andb_true_iff in Hrange. destruct Hrange as [H1 H2].
    apply Z.leb_le in H1. apply Z.leb_le in H2. lia. }
  intros Hd. apply pdfdoc_decrypt_only_cases in Hd. cbn in Hd.
  repeat (destruct Hd as [Hd|Hd]; [injection Hd as <- <-; lia|]).
  contradiction.
Qed.

(** From [Some (v :: cps') = Some cps] and a bound on all of [cps]: the
    bound on [v] and on [cps'], without unfolding [v]. *)
Ltac decoded_head Hdec Hall Hv Hall' :=
  cbn [cons_option] in Hdec;
  match type of Hdec with
  | Some (?v :: ?cps') = Some ?cps =>
    assert (cps = v :: cps') by congruence; subst cps; clear Hdec;
    apply Forall_cons_iff in Hall; destruct Hall as [Hv Hall']
  end.

(** On a well-formed input whose points are in the Basic Multilingual Plane
    and not 0, the decoder of the source reads the points the standard
    assigns. *)
Lemma utf8_decode_scan (l cps : list Z) :
  utf8_decode l = Some cps ->
  Forall (fun cp => 1 <= cp <= 0xFFFF) cps ->
  scan l = (cps, EndOfInput).
Proof.
  assert (H : forall n l cps, (length l <= n)%nat ->
            utf8_decode l = Some cps ->
            Forall (fun cp => 1 <= cp <= 0xFFFF) cps ->
            scan l = (cps, EndOfInput)).
  { clear l cps. induction n as [|n IH]; intros l cps Hlen Hdec Hall.
    { destruct l; [|cbn in Hlen; lia]. cbn in Hdec. injection Hdec as <-.
      reflexivity. }
    destruct l as [|b0 t0].
    { cbn in Hdec. injection Hdec as <-. reflexivity. }
    cbn [utf8_decode] in Hdec. cbn [length] in Hlen.
    destruct (in_range 0 127 b0) eqn:R1.
    { destruct (utf8_decode t0) as [cps'|] eqn:E; [|discriminate].
      decoded_head Hdec Hall Hb0 Hall'.
      cbn [scan]. rewrite (eqb_false_of b0 0) by lia.
      rewrite (ascii_byte _ R1).
      rewrite (IH t0 cps') by (try assumption; lia). reflexivity. }
    destruct t0 as [|b1 t1]; [discriminate|]. cbn [length] in Hlen.
    destruct (in_range 194 223 b0) eqn:R2.
    { destruct (in_range 128 191 b1) eqn:Rc1; [|discriminate].
      destruct (utf8_decode t1) as [cps'|] eqn:E; [|discriminate].
      decoded_head Hdec Hall Hb0 Hall'.
      destruct (two_lead_byte _ R2) as [Hh H2].
      apply in_range_iff in R2.
      cbn [scan]. rewrite (eqb_false_of b0 0) by lia.
      rewrite Hh, H2, (continuation_byte _ Rc1). cbn [andb].
      rewrite (IH t1 cps') by (try assumption; lia). reflexivity. }
    destruct t1 as [|b2 t2]; [discriminate|]. cbn [length] in Hlen.
    destruct (in_range 224 239 b0) eqn:R3.
    { destruct (second_of_three b0 b1 && in_range 128 191 b2) eqn:Rc;
        [|discriminate].
      apply andb_true_iff in Rc. destruct Rc as [Rc1 Rc2].
      apply second_of_three_continuation in Rc1.
      destruct (utf8_decode t2) as [cps'|] eqn:E; [|discriminate].
      decoded_head Hdec Hall Hb0 Hall'.
      destruct (three_lead_byte _ R3) as (Hh & H2 & H3).
      apply in_range_iff in R3.
      cbn [scan]. rewrite (eqb_false_of b0 0) by lia.
      rewrite Hh, H2, H3, (continuation_byte _ Rc1), (continuation_byte _ Rc2).
      cbn [andb].
      rewrite (IH t2 cps') by (try assumption; lia). reflexivity. }
    destruct t2 as [|b3 t3]; [discriminate|].
    destruct (in_range 240 244 b0 && second_of_four b0 b1
              && in_range 128 191 b2 && in_range 128 191 b3) eqn:R4;
      [|discriminate].
    apply andb_true_iff in R4. destruct R4 as [R4 _].
    apply andb_true_iff in R4. destruct R4 as [R4 _].
    apply andb_true_iff in R4. destruct R4 as [R40 R41].
    destruct (utf8_decode t3) as [cps'|] eqn:E; [|discriminate].
    decoded_head Hdec Hall Hb0 Hall'.
    pose proof (four_byte_value_large b0 b1 b2 b3 R40 R41). lia. }
  apply (H (length l)). lia.
Qed.

Lemma four_lead_byte (b : Z) :
  in_range 0xF0 0xF4 b = true ->
  (Z.land b 0x80 =? 0) = false /\ (Z.land b 0xE0 =? 0xC0) = false
  /\ (Z.land b 0xF0 =? 0xE0) = false.
Proof.
  intros H. apply in_range_iff in H.
  assert (Hc : negb (Z.land b 0x80 =? 0) && negb (Z.land b 0xE0 =? 0xC0)
               && negb (Z.land b 0xF0 =? 0xE0) = true).
  { apply (Z_range_forallb
             (fun b => negb (Z.land b 0x80 =? 0)
                       && negb (Z.land b 0xE0 =? 0xC0)
                       && negb (Z.land b 0xF0 =? 0xE0))
             0xF0 5); [vm_compute; reflexivity | lia]. }
  apply andb_true_iff in Hc. destruct Hc as [Hc H3].
  apply andb_true_iff in Hc. destruct Hc as [H1 H2].
  apply negb_true_iff in H1. apply negb_true_iff in H2.
  apply negb_true_iff in H3. tauto.
Qed.

(** On a well-formed input without a NUL byte, a point among those the
    standard assigns that a mode cannot represent is met by the decoder of
    the source, unless a four-byte sequence stops it first. *)
Lemma utf8_decode_unrepresentable (encrypt_b : bool) (l cps : list Z) :
  utf8_decode l = Some cps ->
  ~ In 0 l ->
  (exists cp, In cp cps /\ pdfdoc_of_data encrypt_b cp = None) ->
  stopped l = BadSequence
  \/ exists cp, In cp (code_points l) /\ pdfdoc_of_data encrypt_b cp = None.
Proof.
  unfold stopped, code_points.
  assert (Hpush : forall d t,
            (snd (scan t) = BadSequence
             \/ exists cp, In cp (fst (scan t))
                           /\ pdfdoc_of_data encrypt_b cp = None) ->
            snd (push d (scan t)) = BadSequence
            \/ exists cp, In cp (fst (push d (scan t)))
                          /\ pdfdoc_of_data encrypt_b cp = None).
  { intros d t [H|(cp & Hin & Hnone)]; [left; exact H|].
    right. exists cp. split; [right; exact Hin | exact Hnone]. }
  assert (Hhead : forall d t,
            pdfdoc_of_data encrypt_b d = None ->
            snd (push d (scan t)) = BadSequence
            \/ exists cp, In cp (fst (push d (scan t)))
                          /\ pdfdoc_of_data encrypt_b cp = None).
  { intros d t Hnone. right. exists d. split; [left; reflexivity | exact Hnone]. }
  assert (H : forall n l cps, (length l <= n)%nat ->
            utf8_decode l = Some cps ->
            ~ In 0 l ->
            (exists cp, In cp cps /\ pdfdoc_of_data encrypt_b cp = None) ->
            snd (scan l) = BadSequence
            \/ exists cp, In cp (fst (scan l))
                          /\ pdfdoc_of_data encrypt_b cp = None).
  { clear l cps. induction n as [|n IH]; intros l cps Hlen Hdec Hnul Hbad.
    { destruct l; [|cbn in Hlen; lia]. cbn in Hdec.
      assert (cps = []) by congruence. subst cps.
      destruct Hbad as (cp & [] & _). }
    destruct l as [|b0 t0].
    { cbn in Hdec. assert (cps = []) by congruence. subst cps.
      destruct Hbad as (cp & [] & _). }
    assert (Hb0 : (b0 =? 0) = false).
    { apply Z.eqb_neq. intros ->. apply Hnul. left. reflexivity. }
    cbn [utf8_decode] in Hdec. cbn [length] in Hlen.
    destruct Hbad as (cp & Hin & Hnone).
    destruct (in_range 0 127 b0) eqn:R1.
    { destruct (utf8_decode t0) as [cps'|] eqn:E; [|discriminate].
      cbn [cons_option] in Hdec.
      assert (cps = b0 :: cps') by congruence. subst cps.
      cbn [scan]. rewrite Hb0, (ascii_byte _ R1).
      destruct Hin as [<-|Hin]; [apply Hhead, Hnone|].
      apply Hpush, (IH t0 cps'); try assumption; try lia.
      - intros H0. apply Hnul. right. exact H0.
      - exists cp. tauto. }
    destruct t0 as [|b1 t1]; [discriminate|]. cbn [length] in Hlen.
    destruct (in_range 194 223 b0) eqn:R2.
    { destruct (in_range 128 191 b1) eqn:Rc1; [|discriminate].
      destruct (utf8_decode t1) as [cps'|] eqn:E; [|discriminate].
      cbn [cons_option] in Hdec.
      match type of Hdec with
      | Some (?v :: _) = _ => assert (cps = v :: cps') by congruence
      end.
      subst cps. destruct (two_lead_byte _ R2) as [Hh H2].
      cbn [scan]. rewrite Hb0, Hh, H2, (continuation_byte _ Rc1). cbn [andb].
      destruct Hin as [<-|Hin]; [apply Hhead, Hnone|].
      apply Hpush, (IH t1 cps'); try assumption; try lia.
      - intros H0. apply Hnul. right. right. exact H0.
      - exists cp. tauto. }
    destruct t1 as [|b2 t2]; [discriminate|]. cbn [length] in Hlen.
    destruct (in_range 224 239 b0) eqn:R3.
    { destruct (second_of_three b0 b1 && in_range 128 191 b2) eqn:Rc;
        [|discriminate].
      apply andb_true_iff in Rc. destruct Rc as [Rc1 Rc2].
      apply second_of_three_continuation in Rc1.
      destruct (utf8_decode t2) as [cps'|] eqn:E; [|discriminate].
      cbn [cons_option] in Hdec.
      match type of Hdec with
      | Some (?v :: _) = _ => assert (cps = v :: cps') by congruence
      end.
      subst cps. destruct (three_lead_byte _ R3) as (Hh & H2 & H3).
      cbn [scan].
      rewrite Hb0, Hh, H2, H3, (continuation_byte _ Rc1),
        (continuation_byte _ Rc2).
      cbn [andb].
      destruct Hin as [<-|Hin]; [apply Hhead, Hnone|].
      apply Hpush, (IH t2 cps'); try assumption; try lia.
      - intros H0. apply Hnul. right. right. right. exact H0.
      - exists cp. tauto. }
    destruct t2 as [|b3 t3]; [discriminate|].
    destruct (in_range 240 244 b0 && second_of_four b0 b1
              && in_range 128 191 b2 && in_range 128 191 b3) eqn:R4;
      [|discriminate].
    apply andb_true_iff in R4. destruct R4 as [R4 _].
    apply andb_true_iff in R4. destruct R4 as [R4 _].
    apply andb_true_iff in R4. destruct R4 as [R40 _].
    destruct (four_lead_byte _ R40) as (Hh & H2 & H3).
    left. cbn [scan]. rewrite Hb0, Hh, H2, H3. reflexivity. }
  intros Hdec Hnul Hbad. apply (H (length l) l cps); auto.
Qed.

(** ** Integer ranges *)

(** A returned value lies between -1 and the length of the input, so the
    [int] of the source cannot overflow. *)
Lemma convert_returns_bounds (m : Mode) (input : list Z)
      (output : option (list Z)) (r : Z) :
  returns (convert m input output) r ->
  -1 <= r <= Z.of_nat (length input).
Proof.
  intros Hr. apply convert_returns in Hr. subst r.
  pose proof (code_points_length input) as Hlen.
  destruct (result_of_cases (encrypting m) input) as [[-> _]|[-> _]]; lia.
Qed.

(** A decoded point fits sixteen bits, so the [unsigned long] of the source
    does not wrap. *)
Lemma decode_head_range (l rest : list Z) (d : Z) :
  decode_head l = Some (d, rest) ->
  Forall (fun c => 0 <= c <= 0xFF) l ->
  0 <= d <= 0xFFFF.
Proof.
  assert (Hmask : forall c k, 0 <= k -> 0 <= Z.land c (Z.ones k) < 2 ^ k).
  { intros c k Hk. rewrite Z.land_ones by exact Hk.
    apply Z.mod_pos_bound. apply Z.pow_pos_nonneg; lia. }
  pose proof (fun c => Hmask c 4 ltac:(lia)) as H4.
  pose proof (fun c => Hmask c 5 ltac:(lia)) as H5.
  pose proof (fun c => Hmask c 6 ltac:(lia)) as H6.
  change (Z.ones 4) with 0x0f in H4. change (2 ^ 4) with 16 in H4.
  change (Z.ones 5) with 0x1f in H5. change (2 ^ 5) with 32 in H5.
  change (Z.ones 6) with 0x3f in H6. change (2 ^ 6) with 64 in H6.
  unfold decode_head. destruct l as [|c0 t0]; [discriminate|].
  intros Hdec Hall. apply Forall_cons_iff in Hall. destruct Hall as [Hc0 _].
  destruct (Z.land c0 128 =? 0).
  { assert (d = c0) by congruence. lia. }
  destruct t0 as [|c1 t1]; [discriminate|].
  destruct ((Z.land c0 224 =? 192) && (Z.land c1 192 =? 128)).
  { assert (Hd : d = Z.shiftl (Z.land c0 31) 6 + Z.land c1 63) by congruence.
    rewrite Hd, Z.shiftl_mul_pow2 by lia. change (2 ^ 6) with 64.
    pose proof (H5 c0). pose proof (H6 c1). lia. }
  destruct t1 as [|c2 t2]; [discriminate|].
  destruct ((Z.land c0 240 =? 224) && (Z.land c1 192 =? 128)
            && (Z.land c2 192 =? 128)); [|discriminate].
  assert (Hd : d = Z.shiftl (Z.shiftl (Z.land c0 15) 6 + Z.land c1 63) 6
                   + Z.land c2 63) by congruence.
  rewrite Hd, !Z.shiftl_mul_pow2 by lia. change (2 ^ 6) with 64.
  pose proof (H4 c0). pose proof (H6 c1). pose proof (H6 c2). lia.
Qed.

(** Where [char] is signed, a byte [c >= 128] is read as [c - 256]; under a
    mask of eight bits that makes no difference, and it is not 0 either
    way. *)
Lemma signed_char_masks (c mask : Z) :
  0 <= mask < 256 -> Z.land (c - 256) mask = Z.land c mask.
Proof.
  intros Hmask. apply Z.bits_inj'. intros n Hn.
  rewrite !Z.land_spec.
  destruct (Z.ltb_spec n 8) as [Hlow|Hhigh].
  - f_equal.
    rewrite <- (Z.mod_pow2_bits_low (c - 256) 8 n) by lia.
    rewrite <- (Z.mod_pow2_bits_low c 8 n) by lia.
    f_equal. change (2 ^ 8) with 256.
    replace (c - 256) with (c + (-1) * 256) by lia.
    apply Z.mod_add. lia.
  - replace (Z.testbit mask n) with false; [rewrite !andb_false_r; reflexivity|].
    symmetry. destruct (Z.eq_dec mask 0) as [->|Hnz]; [apply Z.bits_0|].
    apply Z.bits_above_log2; [lia|].
    apply Z.log2_lt_pow2; [lia|].
    apply Z.lt_le_trans with (2 ^ 8); [change (2 ^ 8) with 256; lia|].
    apply Z.pow_le_mono_r; lia.
Qed.

(** * The properties of the design document *)

(** ** The sentinel (C1) *)

(** C1, as the code has it.  A call returns -1 if and only if the decoder
    of the source meets, before any NUL byte, bytes that fit none of its
    one-, two- and three-byte patterns, or decodes a code point that the
    active mode cannot represent; otherwise it returns the number of decoded
    code points.  Every well-formed UTF-8 input whose code points are all
    representable returns their number, and on well-formed input without a
    NUL byte the sentence of the design document holds as worded.  (The
    decoder does not check for shortest forms, so some malformed inputs are
    accepted.) *)
Theorem sentinel_iff_decoder_or_mode_rejects (m : Mode) (input : list Z) :
  exists d,
    convert m input None = Returned d None
    /\ (forall output r, returns (convert m input output) r -> r = d)
    /\ (d = -1 <->
        stopped input = BadSequence
        \/ exists cp, In cp (code_points input)
                      /\ pdfdoc_of_data (encrypting m) cp = None)
    /\ (d <> -1 -> d = Z.of_nat (length (code_points input)))
    /\ (forall cps,
           utf8_decode input = Some cps ->
           (forall cp, In cp cps ->
                       exists b, pdfdoc_of_data (encrypting m) cp = Some b) ->
           code_points input = cps /\ d = Z.of_nat (length cps))
    /\ (utf8_well_formed input = true -> ~ In 0 input ->
        sentinel_as_worded m input).
Proof.
  assert (Hwell : forall cps,
             utf8_decode input = Some cps ->
             (forall cp, In cp cps ->
                         exists b, pdfdoc_of_data (encrypting m) cp = Some b) ->
             code_points input = cps
             /\ result_of (encrypting m) input = Z.of_nat (length cps)).
  { intros cps Hdec Hall.
    assert (Hscan : scan input = (cps, EndOfInput)).
    { apply utf8_decode_scan; [exact Hdec|]. apply Forall_forall.
      intros cp Hin. destruct (Hall cp Hin) as [b Hb].
      apply pdfdoc_of_data_domain in Hb. lia. }
    assert (Hcps : code_points input = cps)
      by (unfold code_points; rewrite Hscan; reflexivity).
    split; [exact Hcps|]. rewrite <- Hcps.
    apply result_of_accepted.
    - unfold stopped. rewrite Hscan. discriminate.
    - apply all_good_iff. rewrite Hcps. exact Hall. }
  assert (Hiff : result_of (encrypting m) input = -1 <->
                 stopped input = BadSequence
                 \/ exists cp, In cp (code_points input)
                               /\ pdfdoc_of_data (encrypting m) cp = None).
  { destruct (result_of_cases (encrypting m) input)
      as [[Hres Hwhy]|(Hres & Hstop & Hgood)]; [tauto|].
    split.
    - intros Hd. rewrite Hres in Hd. lia.
    - intros [Hbad|(cp & Hin & Hnone)]; [congruence|].
      exfalso. apply all_good_iff with (cp := cp) in Hgood; [|exact Hin].
      destruct Hgood as [b Hb]. congruence. }
  exists (result_of (encrypting m) input).
  split; [apply convert_null|].
  split; [intros output r Hr; apply (convert_returns _ _ _ _ Hr)|].
  split; [exact Hiff|].
  split.
  { intros Hd.
    destruct (result_of_cases (encrypting m) input) as [[Hres _]|[Hres _]];
      [congruence | exact Hres]. }
  split; [exact Hwell|].
  intros Hwf Hnul. unfold sentinel_as_worded. rewrite convert_null.
  unfold utf8_well_formed in Hwf |- *.
  destruct (utf8_decode input) as [cps|] eqn:Hdec; [|discriminate].
  split.
  - intros Hret. right. exists cps.
    destruct (all_good (encrypting m) cps) eqn:Hgood.
    + exfalso.
      destruct (Hwell cps eq_refl (proj1 (all_good_iff _ _) Hgood)) as [_ Hres].
      assert (Hneg : result_of (encrypting m) input = -1) by congruence.
      lia.
    + apply all_good_false_iff in Hgood. destruct Hgood as (cp & Hin & Hnone).
      exists cp. tauto.
  - intros [Hmal|(cps' & cp & Heq & Hin & Hnone)]; [discriminate|].
    f_equal. apply Hiff.
    apply (utf8_decode_unrepresentable _ input cps Hdec Hnul).
    exists cp. split; [congruence | exact Hnone].
Qed.

(** C1 as worded fails on an overlong encoding: C1 81 is malformed UTF-8
    (a two-byte form of U+0041), and both modes accept it as 'A'. *)
Lemma overlong_encoding_accepted :
  utf8_well_formed [0xC1; 0x81] = false
  /\ code_points [0xC1; 0x81] = [0x41]
  /\ convert Strict [0xC1; 0x81] None = Returned 1 None
  /\ convert Permissive [0xC1; 0x81] None = Returned 1 None
  /\ convert Strict [0xC1; 0x81] (Some [0]) = Returned 1 (Some [0x41])
  /\ ~ sentinel_as_worded Strict [0xC1; 0x81]
  /\ ~ sentinel_as_worded Permissive [0xC1; 0x81].
Proof.
  do 5 (split; [reflexivity|]).
  split; intros [_ H]; specialize (H (or_introl eq_refl)); discriminate H.
Qed.

(** ** Strict mode (C2) *)

(** C2.  In Strict (encrypt) mode a decoded code point is accepted exactly
    when it is directly representable ([0x20 <= cp < 0x7F] or
    [0xA0 <= cp <= 0xFF]) or is one of the eight always-remapped points
    U+0152, U+0153, U+0160, U+0161, U+0178, U+017D, U+017E, U+0192; each of
    the eight is emitted as one byte in the range 0x80-0x9F; any other decoded
    code point makes the whole call return -1, and an input whose decoding
    does not fail and whose points are all of these two kinds returns the
    number of its code points.  With a buffer that has room for them the
    call on such an input returns that number and has stored one byte for
    each point, in order: the point itself when it is directly
    representable, the byte of its [case] when it is one of the eight; the
    call on the UTF-8 form of each of the eight stores that byte.  With a
    buffer as long as the input a call on an input that holds another
    point returns -1. *)
Theorem strict_accepts_direct_or_always_remapped :
  (forall cp, In cp always_points <->
              In cp [0x0152; 0x0153; 0x0160; 0x0161;
                     0x0178; 0x017D; 0x017E; 0x0192])
  /\ (forall cp,
         (exists b, pdfdoc_of_data (encrypting Strict) cp = Some b) <->
         (0x20 <= cp < 0x7F \/ 0xA0 <= cp <= 0xFF) \/ In cp always_points)
  /\ (forall cp, In cp always_points ->
                 exists b, pdfdoc_of_data (encrypting Strict) cp = Some b
                           /\ 0x80 <= b <= 0x9F /\ to_jbyte b = b)
  /\ (forall input cp,
         In cp (code_points input) ->
         ~ ((0x20 <= cp < 0x7F \/ 0xA0 <= cp <= 0xFF) \/ In cp always_points) ->
         convert Strict input None = Returned (-1) None
         /\ forall buf r, returns (convert Strict input (Some buf)) r -> r = -1)
  /\ (forall input,
         stopped input <> BadSequence ->
         (forall cp, In cp (code_points input) ->
                     (0x20 <= cp < 0x7F \/ 0xA0 <= cp <= 0xFF)
                     \/ In cp always_points) ->
         convert Strict input None
         = Returned (Z.of_nat (length (code_points input))) None)
  /\ (forall input buf buf' n k cp,
         convert Strict input (Some buf) = Returned n (Some buf') -> 0 <= n ->
         nth_error (code_points input) k = Some cp ->
         In cp always_points ->
         exists b, nth_error buf' k = Some b /\ 0x80 <= b <= 0x9F)
  /\ (forall input buf,
         stopped input <> BadSequence ->
         (forall cp, In cp (code_points input) ->
                     (0x20 <= cp < 0x7F \/ 0xA0 <= cp <= 0xFF)
                     \/ In cp always_points) ->
         (length (code_points input) <= length buf)%nat ->
         exists buf',
           convert Strict input (Some buf)
           = Returned (Z.of_nat (length (code_points input))) (Some buf')
           /\ length buf' = length buf
           /\ (forall k cp,
                  nth_error (code_points input) k = Some cp ->
                  0x20 <= cp < 0x7F \/ 0xA0 <= cp <= 0xFF ->
                  nth_error buf' k = Some cp)
           /\ (forall k cp b,
                  nth_error (code_points input) k = Some cp ->
                  In (cp, b) always_cases ->
                  nth_error buf' k = Some b /\ 0x80 <= b <= 0x9F)
           /\ (forall k, (length (code_points input) <= k)%nat ->
                         nth_error buf' k = nth_error buf k))
  /\ (forall cp b,
         In (cp, b) always_cases ->
         code_points (utf8_encode cp) = [cp]
         /\ convert Strict (utf8_encode cp) (Some [0]) = Returned 1 (Some [b]))
  /\ (forall input cp buf,
         In cp (code_points input) ->
         ~ ((0x20 <= cp < 0x7F \/ 0xA0 <= cp <= 0xFF) \/ In cp always_points) ->
         (length input <= length buf)%nat ->
         exists buf',
           convert Strict input (Some buf) = Returned (-1) (Some buf')
           /\ length buf' = length buf).
Proof.
  assert (Height : forall cp, In cp always_points ->
            exists b, pdfdoc_of_data true cp = Some b /\ 0x80 <= b <= 0x9F).
  { intros cp Hin. cbn in Hin.
    repeat (destruct Hin as [<-|Hin];
            [eexists; split; [reflexivity | lia]|]).
    contradiction. }
  assert (Hiff : forall cp,
            (exists b, pdfdoc_of_data true cp = Some b) <->
            (0x20 <= cp < 0x7F \/ 0xA0 <= cp <= 0xFF) \/ In cp always_points).
  { intros cp. split.
    - intros [b Hb]. apply pdfdoc_of_data_strict in Hb.
      destruct Hb as [[H _]|[_ H]]; [left; exact H|].
      right. apply pdfdoc_always_points. eauto.
    - intros [H|H].
      + exists cp. apply pdfdoc_of_data_good, H.
      + destruct (Height cp H) as [b [Hb _]]. eauto. }
  assert (Hrej : forall input cp,
            In cp (code_points input) ->
            ~ ((0x20 <= cp < 0x7F \/ 0xA0 <= cp <= 0xFF)
               \/ In cp always_points) ->
            result_of true input = -1).
  { intros input cp Hin Hnot. apply (result_of_rejected _ _ cp Hin).
    destruct (pdfdoc_of_data true cp) as [b|] eqn:E; [|reflexivity].
    exfalso. apply Hnot, Hiff. eauto. }
  cbn [encrypting].
  split; [intros cp; cbn; tauto|].
  split; [exact Hiff|].
  split.
  { intros cp Hin. destruct (Height cp Hin) as [b [Hb Hr]].
    exists b. repeat split; try lia; [exact Hb|].
    apply to_jbyte_small. lia. }
  split.
  { intros input cp Hin Hnot. split.
    - rewrite convert_null. cbn [encrypting].
      rewrite (Hrej input cp Hin Hnot). reflexivity.
    - intros buf r Hr. apply convert_returns in Hr. rewrite Hr.
      apply (Hrej input cp Hin Hnot). }
  split.
  { intros input Hstop Hall. rewrite convert_null. f_equal.
    apply result_of_accepted; [exact Hstop|].
    apply all_good_iff. intros cp Hin. apply Hiff, Hall, Hin. }
  split.
  { intros input buf buf' n k cp Hconv Hn Hk Hin.
    destruct (convert_buffer_nth _ _ _ _ _ Hconv Hn k cp Hk)
      as (b & Hb & Hnth).
    destruct (Height cp Hin) as (b' & Hb' & Hr).
    cbn [encrypting] in Hb. exists b. split; [exact Hnth|]. congruence. }
  assert (Hcase : forall cp b, In (cp, b) always_cases ->
            pdfdoc_of_data true cp = Some b /\ 0x80 <= b <= 0x9F).
  { intros cp b Hin. cbn in Hin.
    repeat (destruct Hin as [Hin|Hin];
            [injection Hin as <- <-; split; [reflexivity | lia]|]).
    contradiction. }
  split.
  { intros input buf Hstop Hall Hlen.
    assert (Hgood : all_good (encrypting Strict) (code_points input) = true).
    { apply all_good_iff. intros cp Hin. apply Hiff, Hall, Hin. }
    destruct (convert_buffer_stored Strict input buf Hstop Hgood Hlen)
      as (buf' & Hconv & Hlen' & Hnth & Hrest).
    exists buf'. split; [exact Hconv|]. split; [exact Hlen'|].
    cbn [encrypting] in Hnth. split; [|split; [|exact Hrest]].
    - intros k cp Hk Hdirect. destruct (Hnth k cp Hk) as (b & Hb & Hb').
      rewrite (pdfdoc_of_data_good true cp Hdirect) in Hb. congruence.
    - intros k cp b Hk Hin. destruct (Hnth k cp Hk) as (b' & Hb & Hb').
      destruct (Hcase cp b Hin) as [Hc Hr]. split; [congruence | exact Hr]. }
  split.
  { intros cp b Hin. cbn in Hin.
    repeat (destruct Hin as [Hin|Hin];
            [injection Hin as <- <-; split; reflexivity|]).
    contradiction. }
  intros input cp buf Hin Hnot Hlen.
  destruct (convert_buffer_adequate Strict input buf Hlen)
    as (buf' & Hconv & Hlen').
  exists buf'. cbn [encrypting] in Hconv.
  rewrite (Hrej input cp Hin Hnot) in Hconv. split; assumption.
Qed.

(** ** Strict within Permissive (C3) *)

(** C3.  If convert in Strict mode returns a non-negative count [n] on an
    input, convert in Permissive mode on the same input (and the same output
    argument) returns [n] too, and leaves the same bytes in the buffer. *)
Theorem strict_count_is_permissive_count
        (input : list Z) (output bb : option (list Z)) (n : Z) :
  convert Strict input output = Returned n bb -> 0 <= n ->
  convert Permissive input output = Returned n bb.
Proof.
  intros Hstrict Hn.
  assert (Hres : result_of true input = n).
  { symmetry. apply (convert_returns Strict input output). exists bb.
    exact Hstrict. }
  destruct (result_of_nonneg _ _ _ Hres Hn) as (Hlen & Hstop & Hgood).
  destruct (all_good_strict_permissive _ Hgood) as [Hgood' Hw].
  assert (Hres' : result_of false input = n).
  { rewrite Hlen. apply result_of_accepted; assumption. }
  destruct output as [buf|].
  - rewrite convert_buffer in Hstrict |- *. cbn [encrypting] in *.
    cbv zeta in *. rewrite Hw, Hres'. rewrite Hres in Hstrict. exact Hstrict.
  - rewrite convert_null in Hstrict |- *. cbn [encrypting] in *.
    rewrite Hres'. rewrite Hres in Hstrict. exact Hstrict.
Qed.

Lemma strict_count_is_permissive_count_cafe :
  convert Permissive [0x63; 0x61; 0x66; 0xC3; 0xA9] (Some [0; 0; 0; 0])
  = Returned 4 (Some [0x63; 0x61; 0x66; 0xE9]).
Proof.
  apply (strict_count_is_permissive_count
           [0x63; 0x61; 0x66; 0xC3; 0xA9] (Some [0; 0; 0; 0])).
  - reflexivity.
  - lia.
Defined.

(** ** Directly representable points (C4) *)

(** C4.  A decoded code point in the printable ASCII range 0x20-0x7E or in
    the Latin-1 upper range 0xA0-0xFF is classified as itself in both modes
    and stored unchanged: wherever it stands in an input that is converted,
    the byte at its position in the buffer is the code point; alone, as one
    ASCII byte or as its two-byte UTF-8 sequence, the call returns 1 and the
    buffer holds that byte. *)
Theorem direct_points_emitted_unchanged (m : Mode) (cp : Z) :
  0x20 <= cp <= 0x7E \/ 0xA0 <= cp <= 0xFF ->
  pdfdoc_of_data (encrypting m) cp = Some cp
  /\ to_jbyte cp = cp
  /\ (forall input buf buf' n k,
         convert m input (Some buf) = Returned n (Some buf') -> 0 <= n ->
         nth_error (code_points input) k = Some cp ->
         nth_error buf' k = Some cp)
  /\ (0x20 <= cp <= 0x7E ->
      forall x, convert m [cp] (Some [x]) = Returned 1 (Some [cp]))
  /\ (0xA0 <= cp <= 0xFF ->
      forall x, convert m [0xC0 + cp / 64; 0x80 + cp mod 64] (Some [x])
                = Returned 1 (Some [cp])).
Proof.
  intros Hcp.
  assert (Hgood : pdfdoc_of_data (encrypting m) cp = Some cp)
    by (apply pdfdoc_of_data_good; lia).
  assert (Hbyte : to_jbyte cp = cp) by (apply to_jbyte_small; lia).
  assert (Hone : forall input x,
             scan input = ([cp], EndOfInput) ->
             convert m input (Some [x]) = Returned 1 (Some [cp])).
  { intros input x Hscan.
    rewrite convert_buffer_accepted; unfold code_points, stopped;
      rewrite Hscan; cbn [fst snd length written all_good forallb];
      rewrite ?Hgood, ?Hbyte; try reflexivity; discriminate. }
  repeat split.
  - exact Hgood.
  - exact Hbyte.
  - intros input buf buf' n k Hconv Hn Hk.
    destruct (convert_buffer_nth _ _ _ _ _ Hconv Hn k cp Hk) as (b & Hb & Hnth).
    congruence.
  - intros Hascii x. apply Hone, scan_ascii, Hascii.
  - intros Hlatin x. apply Hone, scan_latin1, Hlatin.
Qed.

Lemma direct_points_emitted_unchanged_e_acute :
  pdfdoc_of_data (encrypting Permissive) 0xE9 = Some 0xE9
  /\ to_jbyte 0xE9 = 0xE9
  /\ (forall input buf buf' n k,
         convert Permissive input (Some buf) = Returned n (Some buf') ->
         0 <= n ->
         nth_error (code_points input) k = Some 0xE9 ->
         nth_error buf' k = Some 0xE9)
  /\ (0x20 <= 0xE9 <= 0x7E ->
      forall x, convert Permissive [0xE9] (Some [x]) = Returned 1 (Some [0xE9]))
  /\ (0xA0 <= 0xE9 <= 0xFF ->
      forall x, convert Permissive [0xC0 + 0xE9 / 64; 0x80 + 0xE9 mod 64]
                        (Some [x])
                = Returned 1 (Some [0xE9])).
Proof.
  apply (direct_points_emitted_unchanged Permissive 0xE9). right. lia.
Defined.

(** ** Sequences the decoder refuses (C5) *)

(** C5, as the code has it.  The bytes at a position fit none of the
    three patterns exactly when the leading byte is of no accepted kind (any
    byte from 80 to BF or from F0 to FF, so any lead of four bytes or more) or
    a continuation byte is missing, malformed or beyond the length.  When the
    loop reaches such a position ([pre] is decoded to its end, with no NUL
    byte met), convert returns -1 in both modes and the buffer is left as the
    conversion of [pre] alone leaves it: the bad bytes are not skipped and
    nothing after them is processed.  Where no NUL byte comes before, the
    sentence of the design document holds as worded. *)
Theorem bad_sequence_fails_at_once :
  (forall rest, bad_start rest <-> rest <> [] /\ decode_head rest = None)
  /\ (forall c0 t, 0x80 <= c0 <= 0xBF \/ 0xF0 <= c0 <= 0xFF ->
                   bad_start (c0 :: t))
  /\ (forall (m : Mode) (pre rest : list Z) (output : option (list Z)),
         stopped pre = EndOfInput ->
         bad_start rest ->
         convert m (pre ++ rest) None = Returned (-1) None
         /\ convert m (pre ++ rest) output = failed (convert m pre output))
  /\ (forall (m : Mode) (pre rest : list Z),
         ~ In 0 pre -> bad_start_as_worded m pre rest).
Proof.
  assert (Hmain : forall (m : Mode) (pre rest : list Z)
                         (output : option (list Z)),
             stopped pre = EndOfInput ->
             bad_start rest ->
             convert m (pre ++ rest) None = Returned (-1) None
             /\ convert m (pre ++ rest) output
                = failed (convert m pre output)).
  { intros m pre rest output Hpre Hbad.
    apply bad_start_iff in Hbad. destruct Hbad as [Hne Hdec].
    assert (Hscan : scan (pre ++ rest) = (code_points pre, BadSequence)).
    { rewrite (scan_app _ _ Hpre). unfold code_points at 2, stopped.
      rewrite (scan_bad_head _ Hne Hdec). cbn [fst snd].
      rewrite app_nil_r. reflexivity. }
    assert (Hcps : code_points (pre ++ rest) = code_points pre)
      by (unfold code_points at 1; rewrite Hscan; reflexivity).
    assert (Hres : result_of (encrypting m) (pre ++ rest) = -1)
      by (apply result_of_bad_sequence; unfold stopped; rewrite Hscan;
          reflexivity).
    split.
    - rewrite convert_null, Hres. reflexivity.
    - destruct output as [buf|].
      + rewrite !convert_buffer. cbv zeta. rewrite Hcps, Hres.
        destruct (_ <=? _)%nat; reflexivity.
      + rewrite !convert_null, Hres. reflexivity. }
  split; [exact bad_start_iff|]. split; [exact no_pattern_bytes|].
  split; [exact Hmain|].
  intros m pre rest Hnul Hwhole Hbad.
  apply (Hmain m pre rest None); [|exact Hbad].
  unfold stopped. rewrite <- (scan_whole_no_nul _ _ Hnul (le_n _)).
  exact Hwhole.
Qed.

Lemma bad_sequence_fails_at_once_four_byte_lead :
  convert Permissive ([0x61; 0x62] ++ [0xF0; 0x9F; 0x98; 0x80; 0x63]) None
  = Returned (-1) None
  /\ convert Permissive ([0x61; 0x62] ++ [0xF0; 0x9F; 0x98; 0x80; 0x63])
             (Some [0; 0; 0; 0])
     = failed (convert Permissive [0x61; 0x62] (Some [0; 0; 0; 0])).
Proof.
  destruct bad_sequence_fails_at_once as (_ & Hlead & Hfail & _).
  apply (Hfail Permissive [0x61; 0x62] [0xF0; 0x9F; 0x98; 0x80; 0x63]).
  - reflexivity.
  - apply Hlead. right. lia.
Defined.

(** C5 as worded fails after a NUL byte: the lone lead byte C3 follows the
    one-byte sequence 00, and both modes return 0. *)
Lemma truncated_sequence_after_nul_not_rejected :
  decode_head [0x00] = Some (0, [])
  /\ decode_head [0xC3] = None
  /\ convert Strict [0x00; 0xC3] None = Returned 0 None
  /\ convert Permissive [0x00; 0xC3] None = Returned 0 None
  /\ ~ bad_start_as_worded Strict [0x00] [0xC3]
  /\ ~ bad_start_as_worded Permissive [0x00] [0xC3].
Proof.
  do 4 (split; [reflexivity|]).
  assert (Hbad : bad_start [0xC3])
    by (apply bad_two_missing; reflexivity).
  split; intros H; specialize (H eq_refl Hbad); discriminate H.
Qed.

(** ** The table of U+0100 - U+01FF (C6) *)

(** C6, as the code has it.  The table has 256 entries.  In Permissive mode
    every decoded code point [cp] with [0x0100 <= cp <= 0x01FF] is accepted
    and emitted as one byte: the entry at offset [cp - 0x100], except for
    U+0160, U+0161 and U+0192, which the always-remapped cases, tested
    before the table, emit as 0x97, 0x9D and 0x86.  U+0100 is emitted as the
    byte of 'A'; in Strict mode an input that decodes to U+0100 returns
    -1.  Apart from the three points, the sentence of the design document
    holds as worded. *)
Theorem latin_extended_by_table_after_special_cases :
  length unicode_latin_extended_windows_map = 256%nat
  /\ (forall cp,
         0x0100 <= cp <= 0x01FF ->
         exists b,
           pdfdoc_of_data (encrypting Permissive) cp = Some b
           /\ 0 <= b <= 0xFF
           /\ (cp <> 0x0160 -> cp <> 0x0161 -> cp <> 0x0192 ->
               b = nth (Z.to_nat (cp - 0x100))
                       unicode_latin_extended_windows_map 0))
  /\ pdfdoc_of_data (encrypting Permissive) 0x0160 = Some 0x97
  /\ pdfdoc_of_data (encrypting Permissive) 0x0161 = Some 0x9D
  /\ pdfdoc_of_data (encrypting Permissive) 0x0192 = Some 0x86
  /\ (forall input buf buf' n k cp,
         convert Permissive input (Some buf) = Returned n (Some buf') ->
         0 <= n ->
         nth_error (code_points input) k = Some cp ->
         0x0100 <= cp <= 0x01FF ->
         cp <> 0x0160 -> cp <> 0x0161 -> cp <> 0x0192 ->
         nth_error buf' k
         = Some (nth (Z.to_nat (cp - 0x100))
                     unicode_latin_extended_windows_map 0))
  /\ code_points [0xC4; 0x80] = [0x0100]
  /\ convert Permissive [0xC4; 0x80] (Some [0]) = Returned 1 (Some [0x41])
  /\ (forall input,
         In 0x0100 (code_points input) ->
         convert Strict input None = Returned (-1) None
         /\ forall buf r,
             returns (convert Strict input (Some buf)) r -> r = -1)
  /\ (forall cp, cp <> 0x0160 -> cp <> 0x0161 -> cp <> 0x0192 ->
                 table_entry_as_worded cp).
Proof.
  assert (Htable : forall cp,
            0x0100 <= cp <= 0x01FF ->
            exists b,
              pdfdoc_of_data false cp = Some b
              /\ (cp <> 0x0160 -> cp <> 0x0161 -> cp <> 0x0192 ->
                  b = nth (Z.to_nat (cp - 0x100))
                          unicode_latin_extended_windows_map 0)).
  { intros cp Hcp. unfold pdfdoc_of_data.
    rewrite (proj2 (data_point_good_not cp)) by lia.
    destruct (pdfdoc_always cp) as [b|] eqn:Halways.
    - exists b. split; [reflexivity|]. intros H1 H2 H3.
      apply pdfdoc_always_cases in Halways. cbn in Halways.
      repeat (destruct Halways as [Halways|Halways];
              [injection Halways as <- <-;
               first [congruence | vm_compute; reflexivity]|]).
      contradiction.
    - replace ((256 <=? cp) && (cp <=? 511)) with true
        by (symmetry; apply andb_true_iff; split; apply Z.leb_le; lia).
      eexists. split; [reflexivity|]. reflexivity. }
  cbn [encrypting].
  split; [reflexivity|]. split.
  { intros cp Hcp. destruct (Htable cp Hcp) as (b & Hb & Htab).
    exists b. split; [exact Hb|]. split; [|exact Htab].
    apply (pdfdoc_of_data_byte _ _ _ Hb). }
  do 3 (split; [reflexivity|]). split.
  { intros input buf buf' n k cp Hconv Hn Hk Hcp H1 H2 H3.
    destruct (convert_buffer_nth _ _ _ _ _ Hconv Hn k cp Hk) as (b & Hb & Hnth).
    destruct (Htable cp Hcp) as (b' & Hb' & Htab).
    cbn [encrypting] in Hb. rewrite Hnth. f_equal.
    rewrite <- (Htab H1 H2 H3). congruence. }
  do 2 (split; [reflexivity|]).
  split.
  { intros input Hin.
    assert (Hres : result_of (encrypting Strict) input = -1)
      by (apply (result_of_rejected _ _ 0x0100); [exact Hin | reflexivity]).
    split.
    - rewrite convert_null, Hres. reflexivity.
    - intros buf r Hr. apply convert_returns in Hr. congruence. }
  intros cp H1 H2 H3 Hcp.
  destruct (Htable cp Hcp) as (b & Hb & Htab).
  cbn [encrypting]. rewrite Hb. f_equal. apply Htab; assumption.
Qed.

(** C6 as worded fails at U+0160: its table entry is 0x8A, and the byte
    emitted in Permissive mode is 0x97. *)
Lemma scaron_not_emitted_from_table :
  code_points [0xC5; 0xA0] = [0x0160]
  /\ nth (Z.to_nat (0x0160 - 0x100)) unicode_latin_extended_windows_map 0
     = 0x8A
  /\ convert Permissive [0xC5; 0xA0] (Some [0]) = Returned 1 (Some [0x97])
  /\ ~ table_entry_as_worded 0x0160.
Proof.
  do 3 (split; [reflexivity|]).
  intros H. assert (Hr : 0x0100 <= 0x0160 <= 0x01FF) by lia.
  specialize (H Hr). vm_compute in H. discriminate H.
Qed.

(** ** The dry run and the real run (C7) *)

(** C7.  For every input and mode the call without a buffer returns an
    integer [d], and a call with a buffer that returns returns [d] as well;
    it does return when the buffer has a byte per input byte.  When
    [0 <= d], the call with a buffer of exactly [d] bytes returns [d] and
    leaves in it the [d] converted bytes, whatever it held before: no write
    falls outside it.  In a longer buffer the bytes from index [d] on are
    left as they were; a shorter one is overrun. *)
Theorem dry_run_sizes_real_run (m : Mode) (input : list Z) :
  exists d,
    convert m input None = Returned d None
    /\ (forall buf r, returns (convert m input (Some buf)) r -> r = d)
    /\ (forall buf, (length input <= length buf)%nat ->
                    exists buf', convert m input (Some buf)
                                 = Returned d (Some buf'))
    /\ (0 <= d ->
        let w := written (encrypting m) (code_points input) in
        Z.of_nat (length w) = d
        /\ (forall buf, Z.of_nat (length buf) = d ->
                        convert m input (Some buf) = Returned d (Some w))
        /\ (forall buf, d <= Z.of_nat (length buf) ->
                        convert m input (Some buf)
                        = Returned d (Some (w ++ skipn (Z.to_nat d) buf)))
        /\ (forall buf, Z.of_nat (length buf) < d ->
                        convert m input (Some buf) = OutOfBounds)).
Proof.
  exists (result_of (encrypting m) input).
  split; [apply convert_null|].
  split; [intros buf r Hr; apply (convert_returns _ _ _ _ Hr)|].
  split.
  - intros buf Hlen. rewrite convert_buffer. cbv zeta.
    pose proof (written_length_le (encrypting m) (code_points input)) as H1.
    pose proof (code_points_length input) as H2.
    rewrite (proj2 (Nat.leb_le _ _)) by lia. eauto.
  - intros Hd. cbv zeta.
    destruct (result_of_nonneg _ _ _ eq_refl Hd) as (Hn & Hstop & Hgood).
    pose proof (all_good_written_length _ _ Hgood) as Hw.
    split; [lia|]. split; [|split].
    + intros buf Hbuf. rewrite convert_buffer. cbv zeta.
      rewrite (proj2 (Nat.leb_le _ _)) by lia.
      rewrite skipn_all2 by lia. rewrite app_nil_r. reflexivity.
    + intros buf Hbuf. rewrite convert_buffer. cbv zeta.
      rewrite (proj2 (Nat.leb_le _ _)) by lia.
      do 4 f_equal. lia.
    + intros buf Hbuf. rewrite convert_buffer. cbv zeta.
      rewrite (proj2 (Nat.leb_gt _ _)) by lia. reflexivity.
Qed.

(** ** The em-dash (C8) *)

(** C8.  An input one of whose decoded code points is U+2014 makes convert
    in Strict mode return -1.  In Permissive mode, when decoding does not fail
    and every other code point is acceptable, convert returns the number of
    code points, and with a buffer of at least that length it stores the byte
    0x84 (0204 octal) at the position of each U+2014.  So it is for every
    well-formed UTF-8 input that has a U+2014 among otherwise acceptable code
    points. *)
Theorem em_dash_strict_rejects_permissive_maps :
  (forall input,
      In 0x2014 (code_points input) ->
      convert Strict input None = Returned (-1) None
      /\ forall buf r, returns (convert Strict input (Some buf)) r -> r = -1)
  /\ (forall input,
         stopped input <> BadSequence ->
         (forall cp, In cp (code_points input) ->
                     cp = 0x2014
                     \/ exists b, pdfdoc_of_data (encrypting Permissive) cp
                                  = Some b) ->
         convert Permissive input None
         = Returned (Z.of_nat (length (code_points input))) None
         /\ forall buf,
             (length (code_points input) <= length buf)%nat ->
             exists buf',
               convert Permissive input (Some buf)
               = Returned (Z.of_nat (length (code_points input))) (Some buf')
               /\ length buf' = length buf
               /\ forall k, nth_error (code_points input) k = Some 0x2014 ->
                            nth_error buf' k = Some 0x84)
  /\ (forall input cps,
         utf8_decode input = Some cps ->
         In 0x2014 cps ->
         (forall cp, In cp cps ->
                     cp = 0x2014
                     \/ exists b, pdfdoc_of_data (encrypting Permissive) cp
                                  = Some b) ->
         convert Strict input None = Returned (-1) None
         /\ convert Permissive input None
            = Returned (Z.of_nat (length cps)) None
         /\ forall buf,
             length buf = length cps ->
             exists buf',
               convert Permissive input (Some buf)
               = Returned (Z.of_nat (length cps)) (Some buf')
               /\ length buf' = length cps
               /\ forall k, nth_error cps k = Some 0x2014 ->
                            nth_error buf' k = Some 0x84)
  /\ convert Permissive [0x61; 0xE2; 0x80; 0x94] (Some [0; 0])
     = Returned 2 (Some [0x61; 0x84]).
Proof.
  assert (Hstrict : forall input,
             In 0x2014 (code_points input) ->
             convert Strict input None = Returned (-1) None
             /\ forall buf r,
                 returns (convert Strict input (Some buf)) r -> r = -1).
  { intros input Hin.
    assert (Hres : result_of (encrypting Strict) input = -1)
      by (apply (result_of_rejected _ _ 0x2014); [exact Hin | reflexivity]).
    split.
    - rewrite convert_null, Hres. reflexivity.
    - intros buf r Hr. apply convert_returns in Hr. congruence. }
  assert (Hperm : forall input,
             stopped input <> BadSequence ->
             (forall cp, In cp (code_points input) ->
                         cp = 0x2014
                         \/ exists b, pdfdoc_of_data (encrypting Permissive) cp
                                      = Some b) ->
             convert Permissive input None
             = Returned (Z.of_nat (length (code_points input))) None
             /\ forall buf,
                 (length (code_points input) <= length buf)%nat ->
                 exists buf',
                   convert Permissive input (Some buf)
                   = Returned (Z.of_nat (length (code_points input)))
                              (Some buf')
                   /\ length buf' = length buf
                   /\ forall k,
                       nth_error (code_points input) k = Some 0x2014 ->
                       nth_error buf' k = Some 0x84).
  { intros input Hstop Hall.
    assert (Hgood : all_good (encrypting Permissive) (code_points input) = true).
    { apply all_good_iff. intros cp Hin.
      destruct (Hall cp Hin) as [->|H]; [|exact H].
      exists 0x84. reflexivity. }
    split.
    - rewrite convert_null, (result_of_accepted _ _ Hstop Hgood). reflexivity.
    - intros buf Hlen. eexists. split; [|split].
      + apply convert_buffer_accepted; assumption.
      + rewrite length_app, length_skipn,
          (all_good_written_length _ _ Hgood). lia.
      + intros k Hk.
        destruct (written_nth _ _ Hgood k _ Hk) as (b & Hb & Hw).
        rewrite nth_error_app1 by (apply nth_error_Some; congruence).
        rewrite Hw. rewrite <- Hb. reflexivity. }
  split; [exact Hstrict|]. split; [exact Hperm|]. split; [|reflexivity].
  intros input cps Hdec Hin Hall.
  assert (Hscan : scan input = (cps, EndOfInput)).
  { apply utf8_decode_scan; [exact Hdec|]. apply Forall_forall.
    intros cp Hcp. destruct (Hall cp Hcp) as [->|[b Hb]]; [lia|].
    apply pdfdoc_of_data_domain in Hb. lia. }
  assert (Hcps : code_points input = cps)
    by (unfold code_points; rewrite Hscan; reflexivity).
  assert (Hstop : stopped input <> BadSequence)
    by (unfold stopped; rewrite Hscan; discriminate).
  rewrite <- Hcps in Hin, Hall |- *.
  split; [apply Hstrict, Hin|].
  destruct (Hperm input Hstop Hall) as [Hnull Hbuf].
  split; [exact Hnull|].
  intros buf Hlen. destruct (Hbuf buf) as (buf' & H1 & H2 & H3); [lia|].
  exists buf'. split; [exact H1|]. split; [congruence | exact H3].
Qed.

(** ** The NUL byte (C9) *)

(** C9, as the code has it.  The loop stops at the first NUL byte: a call
    does what it does on the bytes before that byte, and what follows it is
    not examined.  Of the [ss_size] bytes the caller supplies, the result
    depends on those before the first NUL byte only; on an input without a NUL
    byte every byte position is decoded and classified. *)
Theorem conversion_stops_at_first_nul
        (m : Mode) (input : list Z) (output : option (list Z)) :
  convert m input output = convert m (until_nul input) output
  /\ (forall after, convert m (until_nul input ++ 0 :: after) output
                    = convert m (until_nul input) output)
  /\ (~ In 0 input -> whole_length_as_worded m input output)
  /\ (forall ss ss_size,
         ss_size <= Z.of_nat (length ss) ->
         input = firstn (Z.to_nat ss_size) ss ->
         utf8_password_to_pdfdoc output ss ss_size (encrypting m)
         = convert m (until_nul input) output).
Proof.
  assert (Hcut : forall l, convert m l output = convert m (until_nul l) output).
  { intros l. rewrite !convert_emit. unfold code_points, stopped.
    destruct (scan_until_nul l) as [H1 H2]. rewrite H1.
    apply emit_stop. symmetry. exact H2. }
  split; [apply Hcut|]. split; [|split].
  - intros after. rewrite (Hcut (until_nul input ++ 0 :: after)).
    f_equal.
    destruct (until_nul_prefix input) as [Hnul _].
    induction (until_nul input) as [|c t IH]; [reflexivity|].
    cbn [app until_nul]. cbn [In] in Hnul.
    destruct (Z.eqb_spec c 0) as [->|_]; [tauto|].
    f_equal. apply IH. tauto.
  - intros Hnul. unfold whole_length_as_worded.
    rewrite convert_emit. unfold convert_whole.
    rewrite (scan_whole_no_nul _ _ Hnul (le_n _)). reflexivity.
  - intros ss ss_size Hsize ->.
    rewrite utf8_password_to_pdfdoc_emit by exact Hsize.
    rewrite <- Hcut, convert_emit. reflexivity.
Qed.

(** C9 as worded fails on a NUL byte inside the input: the call stops
    there and returns 1, whatever follows; read to its length, with the NUL
    byte decoded as the code point 0, the same input gives -1. *)
Lemma embedded_nul_ends_conversion :
  convert Permissive [0x61; 0x00; 0x62] None = Returned 1 None
  /\ convert_whole Permissive [0x61; 0x00; 0x62] None = Returned (-1) None
  /\ convert Permissive [0x61; 0x00; 0xFF] None = Returned 1 None
  /\ convert Strict [0x61; 0x00; 0x62] (Some [0; 0; 0])
     = Returned 1 (Some [0x61; 0; 0])
  /\ ~ whole_length_as_worded Permissive [0x61; 0x00; 0x62] None.
Proof.
  do 4 (split; [reflexivity|]).
  intros H. unfold whole_length_as_worded in H. discriminate H.
Qed.

(** ** Control characters (C10) *)

(** C10.  A decoded code point in the control ranges 0x01-0x1F and
    0x7F-0x9F is covered by no case and no table range: the classification
    rejects it in both modes, and a call on an input that decodes to such a
    point returns -1, with or without a buffer. *)
Theorem control_points_rejected (m : Mode) (input : list Z) (cp : Z) :
  In cp (code_points input) ->
  0x01 <= cp <= 0x1F \/ 0x7F <= cp <= 0x9F ->
  pdfdoc_of_data (encrypting m) cp = None
  /\ convert m input None = Returned (-1) None
  /\ forall buf r, returns (convert m input (Some buf)) r -> r = -1.
Proof.
  intros Hin Hcp.
  assert (Hnone : pdfdoc_of_data (encrypting m) cp = None).
  { unfold pdfdoc_of_data.
    rewrite (proj2 (data_point_good_not cp)) by lia.
    rewrite pdfdoc_always_none
      by (cbn; intros H; repeat (destruct H as [H|H]; [lia|]); exact H).
    destruct (encrypting m); [reflexivity|].
    replace ((256 <=? cp) && (cp <=? 511)) with false
      by (symmetry; apply andb_false_iff; left; apply Z.leb_gt; lia).
    apply pdfdoc_decrypt_only_none.
    cbn. intros H. repeat (destruct H as [H|H]; [lia|]). exact H. }
  assert (Hres : result_of (encrypting m) input = -1)
    by (apply (result_of_rejected _ _ cp); assumption).
  repeat split.
  - exact Hnone.
  - rewrite convert_null, Hres. reflexivity.
  - intros buf r Hr. apply convert_returns in Hr. congruence.
Qed.

Lemma control_points_rejected_tab :
  pdfdoc_of_data (encrypting Permissive) 0x09 = None
  /\ convert Permissive [0x61; 0x09; 0x62] None = Returned (-1) None
  /\ forall buf r,
      returns (convert Permissive [0x61; 0x09; 0x62] (Some buf)) r -> r = -1.
Proof.
  apply (control_points_rejected Permissive [0x61; 0x09; 0x62] 0x09).
  - cbn. tauto.
  - left. lia.
Defined.

(** The examples of C10: a newline, DEL, and U+0080 as the bytes C2 80. *)
Example control_examples :
  convert Strict [0x0A] None = Returned (-1) None
  /\ convert Permissive [0x0A] None = Returned (-1) None
  /\ convert Strict [0x7F] None = Returned (-1) None
  /\ convert Permissive [0x7F] None = Returned (-1) None
  /\ code_points [0xC2; 0x80] = [0x80]
  /\ convert Strict [0xC2; 0x80] None = Returned (-1) None
  /\ convert Permissive [0xC2; 0x80] None = Returned (-1) None.
Proof. repeat split; reflexivity. Qed.

(** * Further properties of [utf8_password_to_pdfdoc] *)

(** ** Termination *)

(** The loop on the first [ss_size] bytes, whatever fuel above [ss_size] it
    is given. *)
Lemma loop_from_start (fuel : nat) (bb : option (list Z)) (ss : list Z)
      (ss_size : Z) (encrypt_b : bool) :
  ss_size <= Z.of_nat (length ss) ->
  (Z.to_nat ss_size < fuel)%nat ->
  loop fuel bb ss ss_size encrypt_b 0 0
  = emit encrypt_b (code_points (firstn (Z.to_nat ss_size) ss))
         (stopped (firstn (Z.to_nat ss_size) ss)) bb 0.
Proof.
  intros Hsize Hfuel. unfold code_points, stopped.
  set (k := Z.to_nat ss_size) in *.
  assert (Hk : (k <= length ss)%nat) by lia.
  destruct (Z.leb_spec 0 ss_size) as [Hpos|Hneg].
  - rewrite <- (firstn_skipn k ss) at 1.
    pose proof (loop_emit_scan encrypt_b (skipn k ss) fuel [] (firstn k ss)
                               bb 0) as H.
    cbn [app length Nat.add] in H.
    rewrite length_firstn, Nat.min_l in H by exact Hk.
    replace (Z.of_nat k) with ss_size in H by lia.
    apply H. exact Hfuel.
  - replace k with 0%nat by lia.
    destruct fuel as [|fuel]; [lia|].
    cbn [loop firstn scan fst snd emit].
    replace (0 <? ss_size) with false by (symmetry; apply Z.ltb_ge; lia).
    reflexivity.
Qed.

(** X1.  The loop ends within [ss_size + 1] tests of its condition: the
    function returns, or stores outside a buffer that is too small, and
    never runs out of the fuel it is given; any greater bound on the number
    of iterations gives the same outcome. *)
Theorem loop_ends_within_ss_size
        (fuel : nat) (bb : option (list Z)) (ss : list Z) (ss_size : Z)
        (encrypt_b : bool) :
  ss_size <= Z.of_nat (length ss) ->
  (Z.to_nat ss_size < fuel)%nat ->
  loop fuel bb ss ss_size encrypt_b 0 0
  = utf8_password_to_pdfdoc bb ss ss_size encrypt_b
  /\ utf8_password_to_pdfdoc bb ss ss_size encrypt_b <> OutOfFuel
  /\ exists r, utf8_password_to_pdfdoc None ss ss_size encrypt_b
               = Returned r None.
Proof.
  intros Hsize Hfuel.
  rewrite (loop_from_start fuel) by assumption.
  rewrite !utf8_password_to_pdfdoc_emit by exact Hsize.
  split; [reflexivity|]. split.
  - destruct bb as [buf|].
    + rewrite (emit_buffer encrypt_b _ _ [] buf). cbn [length].
      destruct (_ <=? _)%nat; discriminate.
    + rewrite emit_null. discriminate.
  - rewrite emit_null. eauto.
Qed.

Lemma loop_ends_within_ss_size_cafe :
  loop 100 None [0x63; 0x61; 0x66; 0xC3; 0xA9; 0x21] 5 true 0 0
  = utf8_password_to_pdfdoc None [0x63; 0x61; 0x66; 0xC3; 0xA9; 0x21] 5 true
  /\ utf8_password_to_pdfdoc None [0x63; 0x61; 0x66; 0xC3; 0xA9; 0x21] 5 true
     <> OutOfFuel
  /\ exists r,
      utf8_password_to_pdfdoc None [0x63; 0x61; 0x66; 0xC3; 0xA9; 0x21] 5 true
      = Returned r None.
Proof.
  apply (loop_ends_within_ss_size
           100 None [0x63; 0x61; 0x66; 0xC3; 0xA9; 0x21] 5 true).
  - cbn. lia.
  - cbn. lia.
Defined.

(** ** The empty password *)

Lemma scan_nothing (l : list Z) :
  code_points l = [] -> stopped l <> BadSequence -> until_nul l = [].
Proof.
  unfold code_points, stopped. destruct l as [|c0 t0]; [reflexivity|].
  rewrite scan_cons. cbn [until_nul].
  destruct (c0 =? 0); [reflexivity|].
  destruct (decode_head (c0 :: t0)) as [[d rest]|]; cbn [push fst snd].
  - discriminate.
  - congruence.
Qed.

(** X2.  A call returns 0 exactly when the input is empty or begins with a
    NUL byte; the buffer is then left untouched.  The same holds of the
    function for any [ss_size <= 0]. *)
Theorem zero_iff_empty_password
        (m : Mode) (input : list Z) (output : option (list Z)) :
  (until_nul input = [] -> convert m input output = Returned 0 output)
  /\ (returns (convert m input output) 0 -> until_nul input = [])
  /\ (forall ss ss_size,
         ss_size <= 0 ->
         utf8_password_to_pdfdoc output ss ss_size (encrypting m)
         = Returned 0 output).
Proof.
  split; [|split].
  - intros Hempty.
    destruct (scan_until_nul input) as [Hcps Hbad].
    rewrite Hempty in Hcps, Hbad. cbn [scan fst snd bad_sequence] in Hcps, Hbad.
    rewrite convert_emit. unfold code_points, stopped. rewrite <- Hcps.
    cbn [emit]. destruct (snd (scan input)); [reflexivity | reflexivity|].
    discriminate.
  - intros Hr. apply convert_returns in Hr.
    destruct (result_of_nonneg _ _ _ (eq_sym Hr) (Z.le_refl 0))
      as (Hlen & Hstop & _).
    apply scan_nothing; [|exact Hstop].
    destruct (code_points input); [reflexivity | cbn in Hlen; lia].
  - intros ss ss_size Hsize. unfold utf8_password_to_pdfdoc.
    cbn [loop].
    replace (0 <? ss_size) with false by (symmetry; apply Z.ltb_ge; lia).
    reflexivity.
Qed.

(** ** The count and the length of the input *)

Lemma convert_until_nul (m : Mode) (l : list Z) (output : option (list Z)) :
  convert m l output = convert m (until_nul l) output.
Proof.
  rewrite !convert_emit. unfold code_points, stopped.
  destruct (scan_until_nul l) as [H1 H2]. rewrite H1.
  apply emit_stop. symmetry. exact H2.
Qed.

(** Decoding stops on a NUL byte only where there is one. *)
Lemma stopped_nul_in (l : list Z) : stopped l = NulByte -> In 0 l.
Proof.
  unfold stopped. induction l as [|c0 t0 IH] using decoder_ind;
    [discriminate|].
  rewrite scan_cons.
  destruct (Z.eqb_spec c0 0) as [->|_]; [intros _; left; reflexivity|].
  destruct (decode_head (c0 :: t0)) as [[d rest]|] eqn:Hdec; [|discriminate].
  cbn [push snd]. intros Hstop.
  destruct (decode_head_some _ _ _ Hdec) as (used & Hused & _).
  rewrite Hused. apply in_or_app. right. apply (IH d rest eq_refl Hstop).
Qed.

(** A decoded point takes at most three bytes. *)
Lemma scan_length_bound (l : list Z) :
  stopped l = EndOfInput -> (length l <= 3 * length (code_points l))%nat.
Proof.
  unfold stopped, code_points.
  induction l as [|c0 t0 IH] using decoder_ind; [cbn; lia|].
  rewrite scan_cons. destruct (c0 =? 0); [discriminate|].
  destruct (decode_head (c0 :: t0)) as [[d rest]|] eqn:Hdec; [|discriminate].
  cbn [push fst snd]. intros Hstop.
  specialize (IH d rest eq_refl Hstop).
  destruct (decode_head_some _ _ _ Hdec) as (used & Hused & Hu).
  rewrite Hused, length_app. cbn [length]. lia.
Qed.

(** X3.  A call that returns a count [n >= 0] has read between [n] and
    [3 n] bytes: [n] lies between a third of the number of bytes before the
    first NUL byte and that number.  Whatever it returns lies between -1 and
    the length of the input. *)
Theorem count_between_third_and_length
        (m : Mode) (input : list Z) (output : option (list Z)) (n : Z) :
  returns (convert m input output) n ->
  -1 <= n <= Z.of_nat (length input)
  /\ (0 <= n ->
      n <= Z.of_nat (length (until_nul input)) <= 3 * n).
Proof.
  intros Hr. split; [apply (convert_returns_bounds m input output n Hr)|].
  intros Hn. rewrite convert_until_nul in Hr. apply convert_returns in Hr.
  destruct (result_of_nonneg _ _ _ (eq_sym Hr) Hn) as (Hlen & Hstop & _).
  destruct (until_nul_prefix input) as [Hnul _].
  assert (Hend : stopped (until_nul input) = EndOfInput).
  { destruct (stopped (until_nul input)) eqn:E; [reflexivity | | congruence].
    exfalso. apply Hnul, stopped_nul_in, E. }
  pose proof (scan_length_bound _ Hend).
  pose proof (code_points_length (until_nul input)). lia.
Qed.

Lemma count_between_third_and_length_cafe :
  -1 <= 4 <= Z.of_nat (length [0x63; 0x61; 0x66; 0xC3; 0xA9])
  /\ (0 <= 4 ->
      4 <= Z.of_nat (length (until_nul [0x63; 0x61; 0x66; 0xC3; 0xA9]))
      <= 3 * 4).
Proof.
  apply (count_between_third_and_length
           Strict [0x63; 0x61; 0x66; 0xC3; 0xA9] None 4).
  exists None. reflexivity.
Defined.

(** ** The buffer after a call *)

(** X4.  A call that returns, with -1 or with a count, leaves the buffer
    at its length and changes only a prefix of it.  That prefix holds, in
    order, the byte of each code point that was accepted before the call
    ended, one per point and no more than one per input byte: it ends at the
    first code point that the mode rejects, or with the last point; the rest
    of the buffer is as it was.  With a count [r >= 0] the prefix has exactly
    [r] bytes. *)
Theorem buffer_changed_in_prefix_only
        (m : Mode) (input buf buf' : list Z) (r : Z) :
  convert m input (Some buf) = Returned r (Some buf') ->
  let w := written (encrypting m) (code_points input) in
  buf' = w ++ skipn (length w) buf
  /\ length buf' = length buf
  /\ (length w <= length buf)%nat
  /\ (length w <= length input)%nat
  /\ (forall k, (k < length w)%nat ->
        exists cp b, nth_error (code_points input) k = Some cp
                     /\ pdfdoc_of_data (encrypting m) cp = Some b
                     /\ nth_error buf' k = Some b)
  /\ (length w = length (code_points input)
      \/ exists cp, nth_error (code_points input) (length w) = Some cp
                    /\ pdfdoc_of_data (encrypting m) cp = None)
  /\ (forall k, (length w <= k)%nat -> nth_error buf' k = nth_error buf k)
  /\ (0 <= r -> Z.of_nat (length w) = r)
  /\ (r = -1 \/ r = Z.of_nat (length (code_points input))).
Proof.
  intros Hconv w. subst w. rewrite convert_buffer in Hconv. cbv zeta in Hconv.
  destruct (Nat.leb_spec (length (written (encrypting m) (code_points input)))
                         (length buf)) as [Hle|]; [|discriminate].
  injection Hconv as Hres Hbuf. subst buf'.
  split; [reflexivity|].
  split; [rewrite length_app, length_skipn; lia|].
  split; [exact Hle|].
  split.
  { pose proof (written_length_le (encrypting m) (code_points input)).
    pose proof (code_points_length input). lia. }
  split.
  { intros k Hk.
    destruct (written_prefix (encrypting m) (code_points input) k Hk)
      as (cp & b & Hcp & Hb & Hw).
    exists cp, b. split; [exact Hcp|]. split; [exact Hb|].
    rewrite nth_error_app1 by exact Hk. exact Hw. }
  split; [apply written_stops|].
  split.
  { intros k Hk. rewrite nth_error_app2 by exact Hk.
    rewrite nth_error_skipn. f_equal. lia. }
  split.
  { intros Hr.
    destruct (result_of_nonneg _ _ _ Hres Hr) as (Hlen & _ & Hgood).
    rewrite (all_good_written_length _ _ Hgood). congruence. }
  destruct (result_of_cases (encrypting m) input) as [[H _]|[H _]];
    [left | right]; congruence.
Qed.

Lemma buffer_changed_in_prefix_only_rejected :
  convert Permissive [0x61; 0x09; 0x62] (Some [7; 7; 7])
  = Returned (-1) (Some [0x61; 7; 7])
  /\ code_points [0x61; 0x09; 0x62] = [0x61; 0x09; 0x62]
  /\ written (encrypting Permissive) (code_points [0x61; 0x09; 0x62]) = [0x61]
  /\ let w := written (encrypting Permissive)
                      (code_points [0x61; 0x09; 0x62]) in
     [0x61; 7; 7] = w ++ skipn (length w) [7; 7; 7]
     /\ length [0x61; 7; 7] = length [7; 7; 7]
     /\ (length w <= length [7; 7; 7])%nat
     /\ (length w <= length [0x61; 0x09; 0x62])%nat
     /\ (forall k, (k < length w)%nat ->
           exists cp b, nth_error (code_points [0x61; 0x09; 0x62]) k = Some cp
                        /\ pdfdoc_of_data (encrypting Permissive) cp = Some b
                        /\ nth_error [0x61; 7; 7] k = Some b)
     /\ (length w = length (code_points [0x61; 0x09; 0x62])
         \/ exists cp,
             nth_error (code_points [0x61; 0x09; 0x62]) (length w) = Some cp
             /\ pdfdoc_of_data (encrypting Permissive) cp = None)
     /\ (forall k, (length w <= k)%nat ->
                   nth_error [0x61; 7; 7] k = nth_error [7; 7; 7] k)
     /\ (0 <= -1 -> Z.of_nat (length w) = -1)
     /\ (-1 = -1 \/ -1 = Z.of_nat (length (code_points [0x61; 0x09; 0x62]))).
Proof.
  split; [reflexivity|]. split; [reflexivity|]. split; [reflexivity|].
  apply (buffer_changed_in_prefix_only
           Permissive [0x61; 0x09; 0x62] [7; 7; 7] [0x61; 7; 7] (-1)).
  reflexivity.
Defined.

(** ** The bytes of the output *)

Lemma pdfdoc_of_data_emitted (encrypt_b : bool) (data b : Z) :
  pdfdoc_of_data encrypt_b data = Some b -> emitted_byte encrypt_b b = true.
Proof.
  unfold pdfdoc_of_data.
  destruct (data_point_good data) eqn:Hgood.
  { intros Hb. assert (b = data) by congruence. subst b.
    apply data_point_good_iff in Hgood. unfold emitted_byte, in_range.
    destruct encrypt_b;
      repeat rewrite orb_true_iff; repeat rewrite andb_true_iff;
      repeat rewrite Z.leb_le; lia. }
  destruct (pdfdoc_always data) as [b'|] eqn:Halways.
  { intros Hb. assert (b = b') by congruence. subst b'.
    apply pdfdoc_always_cases in Halways. cbn in Halways.
    repeat (destruct Halways as [Halways|Halways];
            [injection Halways as <- <-; destruct encrypt_b; reflexivity|]).
    contradiction. }
  destruct encrypt_b; [discriminate|].
  destruct ((256 <=? data) && (data <=? 511)) eqn:Hrange.
  { intros Hb.
    assert (Hnth : nth (Z.to_nat (data - 256))
                       unicode_latin_extended_windows_map 0 = b)
      by congruence.
    rewrite <- Hnth. clear Hb Hnth.
    apply andb_true_iff in Hrange. destruct Hrange as [H1 H2].
    apply Z.leb_le in H1. apply Z.leb_le in H2.
    assert (Htab : forallb (emitted_byte false)
                           unicode_latin_extended_windows_map = true)
      by (vm_compute; reflexivity).
    rewrite forallb_forall in Htab. apply Htab, nth_In.
    change (length unicode_latin_extended_windows_map) with 256%nat. lia. }
  intros Hd. apply pdfdoc_decrypt_only_cases in Hd. cbn in Hd.
  repeat (destruct Hd as [Hd|Hd]; [injection Hd as <- <-; reflexivity|]).
  contradiction.
Qed.

Lemma emitted_byte_not_nul_del (encrypt_b : bool) (b : Z) :
  emitted_byte encrypt_b b = true -> b <> 0 /\ b <> 0x7F.
Proof.
  unfold emitted_byte, in_range. destruct encrypt_b;
    repeat rewrite orb_true_iff; repeat rewrite andb_true_iff;
    repeat rewrite Z.leb_le; repeat rewrite Z.eqb_eq; lia.
Qed.

Lemma written_emitted (encrypt_b : bool) (cps : list Z) :
  Forall (fun b => emitted_byte encrypt_b b = true /\ b <> 0 /\ b <> 0x7F)
         (written encrypt_b cps).
Proof.
  induction cps as [|c cps IH]; cbn [written]; [constructor|].
  destruct (pdfdoc_of_data encrypt_b c) as [b|] eqn:E; [|constructor].
  rewrite to_jbyte_small by (eapply pdfdoc_of_data_byte; exact E).
  pose proof (pdfdoc_of_data_emitted _ _ _ E) as Hem.
  constructor; [|exact IH].
  split; [exact Hem | apply (emitted_byte_not_nul_del _ _ Hem)].
Qed.

(** X5.  Every byte that a call writes is a byte the mode may emit:
    printable ASCII, 0xA0 - 0xFF or 0x86 - 0x9E when encrypting, and besides
    those only 0x1A, 0x1F and 0x80 - 0x9F when decrypting; none is a NUL
    byte or DEL.  This holds of a call that returns a count, whose bytes are
    the converted password, and of a call that returns -1 after it has
    written the bytes of the code points before the rejected one: the buffer
    after the call is the written bytes followed by what it held, and every
    byte that differs from the buffer before the call is of that kind. *)
Theorem output_bytes_in_range
        (m : Mode) (input buf buf' : list Z) (r : Z) :
  convert m input (Some buf) = Returned r (Some buf') ->
  let w := written (encrypting m) (code_points input) in
  buf' = w ++ skipn (length w) buf
  /\ (0 <= r -> Z.of_nat (length w) = r)
  /\ Forall (fun b => emitted_byte (encrypting m) b = true
                      /\ b <> 0 /\ b <> 0x7F) w
  /\ (forall k b,
         (k < length w)%nat -> nth_error buf' k = Some b ->
         emitted_byte (encrypting m) b = true /\ b <> 0 /\ b <> 0x7F)
  /\ (forall k b,
         nth_error buf' k = Some b -> nth_error buf k <> Some b ->
         emitted_byte (encrypting m) b = true /\ b <> 0 /\ b <> 0x7F)
  /\ (forall k b,
         Z.of_nat k < r -> nth_error buf' k = Some b ->
         emitted_byte (encrypting m) b = true /\ b <> 0 /\ b <> 0x7F).
Proof.
  intros Hconv w. subst w. rewrite convert_buffer in Hconv. cbv zeta in Hconv.
  destruct (Nat.leb_spec (length (written (encrypting m) (code_points input)))
                         (length buf)) as [Hle|]; [|discriminate].
  injection Hconv as Hres Hbuf. subst buf'.
  pose proof (written_emitted (encrypting m) (code_points input)) as Hall.
  assert (Hlen : 0 <= r ->
                 Z.of_nat (length (written (encrypting m) (code_points input)))
                 = r).
  { intros Hr.
    destruct (result_of_nonneg _ _ _ Hres Hr) as (Hlen & _ & Hgood).
    rewrite (all_good_written_length _ _ Hgood). congruence. }
  assert (Hin : forall k b,
            (k < length (written (encrypting m) (code_points input)))%nat ->
            nth_error (written (encrypting m) (code_points input)
                       ++ skipn (length (written (encrypting m)
                                                 (code_points input))) buf) k
            = Some b ->
            emitted_byte (encrypting m) b = true /\ b <> 0 /\ b <> 0x7F).
  { intros k b Hk Hb. rewrite nth_error_app1 in Hb by exact Hk.
    rewrite Forall_forall in Hall. apply Hall.
    apply (nth_error_In _ _ Hb). }
  split; [reflexivity|]. split; [exact Hlen|]. split; [exact Hall|].
  split; [exact Hin|]. split.
  - intros k b Hb Hdiff.
    destruct (Nat.lt_ge_cases
                k (length (written (encrypting m) (code_points input))))
      as [Hk|Hk]; [apply (Hin k b Hk Hb)|].
    exfalso. apply Hdiff. rewrite <- Hb.
    rewrite nth_error_app2 by exact Hk.
    rewrite nth_error_skipn. f_equal. lia.
  - intros k b Hk Hb. apply (Hin k b); [|exact Hb].
    assert (Hr : 0 <= r) by lia. specialize (Hlen Hr). lia.
Qed.

Lemma output_bytes_in_range_after_tab :
  convert Strict [0x63; 0x61; 0x09; 0xC3; 0xA9] (Some [0; 0; 0; 0])
  = Returned (-1) (Some [0x63; 0x61; 0; 0])
  /\ let w := written (encrypting Strict)
                      (code_points [0x63; 0x61; 0x09; 0xC3; 0xA9]) in
     [0x63; 0x61; 0; 0] = w ++ skipn (length w) [0; 0; 0; 0]
     /\ (0 <= -1 -> Z.of_nat (length w) = -1)
     /\ Forall (fun b => emitted_byte (encrypting Strict) b = true
                         /\ b <> 0 /\ b <> 0x7F) w
     /\ (forall k b,
            (k < length w)%nat -> nth_error [0x63; 0x61; 0; 0] k = Some b ->
            emitted_byte (encrypting Strict) b = true /\ b <> 0 /\ b <> 0x7F)
     /\ (forall k b,
            nth_error [0x63; 0x61; 0; 0] k = Some b ->
            nth_error [0; 0; 0; 0] k <> Some b ->
            emitted_byte (encrypting Strict) b = true /\ b <> 0 /\ b <> 0x7F)
     /\ (forall k b,
            Z.of_nat k < -1 -> nth_error [0x63; 0x61; 0; 0] k = Some b ->
            emitted_byte (encrypting Strict) b = true
            /\ b <> 0 /\ b <> 0x7F).
Proof.
  split; [reflexivity|].
  apply (output_bytes_in_range
           Strict [0x63; 0x61; 0x09; 0xC3; 0xA9] [0; 0; 0; 0]
           [0x63; 0x61; 0; 0] (-1)).
  reflexivity.
Defined.

(** ** Encrypting loses nothing *)

(** When encrypting, two code points with the same byte are the same. *)
Lemma pdfdoc_of_data_strict_injective (a a' b : Z) :
  pdfdoc_of_data true a = Some b -> pdfdoc_of_data true a' = Some b -> a = a'.
Proof.
  intros Ha Ha'.
  apply pdfdoc_of_data_strict in Ha. apply pdfdoc_of_data_strict in Ha'.
  destruct Ha as [[Hr ->]|[Hn Hal]]; destruct Ha' as [[Hr' Heq]|[Hn' Hal']].
  - congruence.
  - exfalso. apply pdfdoc_always_cases in Hal'. cbn in Hal'.
    repeat (destruct Hal' as [Hal'|Hal'];
            [injection Hal' as <- <-; lia|]).
    contradiction.
  - exfalso. subst b. apply pdfdoc_always_cases in Hal. cbn in Hal.
    repeat (destruct Hal as [Hal|Hal];
            [injection Hal as <- <-; lia|]).
    contradiction.
  - apply pdfdoc_always_cases in Hal. apply pdfdoc_always_cases in Hal'.
    cbn in Hal, Hal'.
    repeat (destruct Hal as [Hal|Hal];
            [injection Hal as <- <-;
             repeat (destruct Hal' as [Hal'|Hal'];
                     [injection Hal' as <-; first [reflexivity | discriminate]|]);
             contradiction|]).
    contradiction.
Qed.

Lemma written_strict_injective (cps cps' : list Z) :
  all_good true cps = true -> all_good true cps' = true ->
  written true cps = written true cps' -> cps = cps'.
Proof.
  revert cps'. induction cps as [|cp cps IH]; intros [|cp' cps'];
    cbn [all_good forallb written]; try reflexivity.
  - destruct (pdfdoc_of_data true cp'); discriminate.
  - destruct (pdfdoc_of_data true cp); discriminate.
  - destruct (pdfdoc_of_data true cp) as [b|] eqn:E; [|discriminate].
    destruct (pdfdoc_of_data true cp') as [b'|] eqn:E'; [|discriminate].
    cbn [andb]. intros Hgood Hgood' Hw.
    rewrite (to_jbyte_small b) in Hw by (eapply pdfdoc_of_data_byte; exact E).
    rewrite (to_jbyte_small b') in Hw by (eapply pdfdoc_of_data_byte; exact E').
    assert (Hb : b = b') by congruence. subst b'.
    assert (Ht : written true cps = written true cps') by congruence.
    f_equal.
    + apply (pdfdoc_of_data_strict_injective cp cp' b E E').
    + apply IH; assumption.
Qed.

(** X6.  In Strict mode the conversion loses nothing: two inputs that both
    convert to the same [n] bytes decode to the same code points. *)
Theorem strict_conversion_injective
        (input input' buf buf' out out' : list Z) (n : Z) :
  convert Strict input (Some buf) = Returned n (Some out) ->
  convert Strict input' (Some buf') = Returned n (Some out') ->
  0 <= n ->
  firstn (Z.to_nat n) out = firstn (Z.to_nat n) out' ->
  code_points input = code_points input'.
Proof.
  intros Hc Hc' Hn Hout.
  rewrite convert_buffer in Hc, Hc'. cbv zeta in Hc, Hc'.
  cbn [encrypting] in Hc, Hc'.
  destruct (_ <=? length buf)%nat; [|discriminate].
  destruct (_ <=? length buf')%nat; [|discriminate].
  injection Hc as Hres Hbuf. injection Hc' as Hres' Hbuf'.
  destruct (result_of_nonneg _ _ _ Hres Hn) as (Hlen & _ & Hgood).
  destruct (result_of_nonneg _ _ _ Hres' Hn) as (Hlen' & _ & Hgood').
  pose proof (all_good_written_length _ _ Hgood) as Hw.
  pose proof (all_good_written_length _ _ Hgood') as Hw'.
  apply written_strict_injective; try assumption.
  subst out out'.
  rewrite !firstn_app in Hout.
  replace (Z.to_nat n - length (written true (code_points input)))%nat
    with 0%nat in Hout by lia.
  replace (Z.to_nat n - length (written true (code_points input')))%nat
    with 0%nat in Hout by lia.
  cbn [firstn] in Hout. rewrite !app_nil_r in Hout.
  rewrite !firstn_all2 in Hout by lia. exact Hout.
Qed.

Lemma strict_conversion_injective_overlong :
  code_points [0x41] = code_points [0xC1; 0x81].
Proof.
  apply (strict_conversion_injective
           [0x41] [0xC1; 0x81] [0] [9; 9] [0x41] [0x41; 9] 1).
  - reflexivity.
  - reflexivity.
  - lia.
  - reflexivity.
Defined.

(** Decrypting does lose something: U+0100 and 'A' give the same byte. *)
Example permissive_conversion_not_injective :
  convert Permissive [0xC4; 0x80] (Some [0]) = Returned 1 (Some [0x41])
  /\ convert Permissive [0x41] (Some [0]) = Returned 1 (Some [0x41])
  /\ code_points [0xC4; 0x80] = [0x100]
  /\ code_points [0x41] = [0x41].
Proof. repeat split; reflexivity. Qed.

(** ** Concatenation *)

Lemma all_good_app (encrypt_b : bool) (a b : list Z) :
  all_good encrypt_b (a ++ b) = all_good encrypt_b a && all_good encrypt_b b.
Proof. apply forallb_app. Qed.

Lemma written_app (encrypt_b : bool) (a b : list Z) :
  all_good encrypt_b a = true ->
  written encrypt_b (a ++ b) = written encrypt_b a ++ written encrypt_b b.
Proof.
  induction a as [|cp a IH]; cbn [all_good forallb written app];
    [reflexivity|].
  destruct (pdfdoc_of_data encrypt_b cp); [|discriminate].
  cbn [andb app]. intros H. f_equal. apply IH, H.
Qed.

(** An accepted input without a NUL byte is decoded to its end. *)
Lemma accepted_to_the_end (encrypt_b : bool) (l : list Z) (n : Z) :
  ~ In 0 l -> result_of encrypt_b l = n -> 0 <= n ->
  stopped l = EndOfInput.
Proof.
  intros Hnul Hres Hn.
  destruct (result_of_nonneg _ _ _ Hres Hn) as (_ & Hstop & _).
  destruct (stopped l) eqn:E; [reflexivity | | congruence].
  exfalso. apply Hnul, stopped_nul_in, E.
Qed.

(** X7.  Conversion follows concatenation.  When [pre] has no NUL byte and
    converts to [n1 >= 0] bytes [w1], then [pre ++ rest] converts to [w1]
    followed by the bytes of [rest], and returns the sum of the two counts;
    it returns -1 when [rest] does. *)
Theorem conversion_of_concatenation
        (m : Mode) (pre rest b1 b2 w1 w2 : list Z) (n1 n2 : Z) :
  ~ In 0 pre ->
  convert m pre (Some b1) = Returned n1 (Some w1) ->
  0 <= n1 -> Z.of_nat (length b1) = n1 ->
  convert m rest (Some b2) = Returned n2 (Some w2) ->
  (0 <= n2 ->
   Z.of_nat (length b2) = n2 ->
   convert m (pre ++ rest) None = Returned (n1 + n2) None
   /\ convert m (pre ++ rest) (Some (b1 ++ b2))
      = Returned (n1 + n2) (Some (w1 ++ w2)))
  /\ (n2 = -1 -> convert m (pre ++ rest) None = Returned (-1) None).
Proof.
  intros Hnul Hpre Hn1 Hb1 Hrest.
  rewrite convert_buffer in Hpre, Hrest. cbv zeta in Hpre, Hrest.
  destruct (_ <=? length b1)%nat; [|discriminate].
  destruct (_ <=? length b2)%nat eqn:Hfit2; [|discriminate].
  injection Hpre as Hres1 Hw1. injection Hrest as Hres2 Hw2.
  pose proof (accepted_to_the_end _ _ _ Hnul Hres1 Hn1) as Hend.
  destruct (result_of_nonneg _ _ _ Hres1 Hn1) as (Hlen1 & _ & Hgood1).
  pose proof (all_good_written_length _ _ Hgood1) as Hwl1.
  pose proof (scan_app pre rest Hend) as Hscan.
  assert (Hcps : code_points (pre ++ rest)
                 = code_points pre ++ code_points rest)
    by (unfold code_points at 1; rewrite Hscan; reflexivity).
  assert (Hstop : stopped (pre ++ rest) = stopped rest)
    by (unfold stopped at 1; rewrite Hscan; reflexivity).
  split.
  - intros Hn2 Hb2.
    destruct (result_of_nonneg _ _ _ Hres2 Hn2) as (Hlen2 & Hstop2 & Hgood2).
    pose proof (all_good_written_length _ _ Hgood2) as Hwl2.
    assert (Hres : result_of (encrypting m) (pre ++ rest) = n1 + n2).
    { rewrite result_of_accepted.
      - rewrite Hcps, length_app. lia.
      - congruence.
      - rewrite Hcps, all_good_app, Hgood1, Hgood2. reflexivity. }
    split; [rewrite convert_null, Hres; reflexivity|].
    rewrite convert_buffer. cbv zeta.
    rewrite Hcps, (written_app _ _ _ Hgood1), Hres.
    rewrite (proj2 (Nat.leb_le _ _)) by (rewrite !length_app; lia).
    rewrite skipn_all2 by (rewrite !length_app; lia).
    rewrite skipn_all2 in Hw1 by lia. rewrite skipn_all2 in Hw2 by lia.
    rewrite app_nil_r in Hw1, Hw2 |- *. subst w1 w2. reflexivity.
  - intros ->. rewrite convert_null. f_equal.
    destruct (result_of_cases (encrypting m) rest)
      as [[_ [Hbad|(cp & Hin & Hnone)]]|[Hres _]].
    + apply result_of_bad_sequence. congruence.
    + apply (result_of_rejected _ _ cp); [|exact Hnone].
      rewrite Hcps. apply in_or_app. right. exact Hin.
    + exfalso. rewrite Hres in Hres2. lia.
Qed.

Lemma conversion_of_concatenation_cafe :
  (0 <= 2 ->
   Z.of_nat (length [0; 0]) = 2 ->
   convert Strict ([0x63; 0x61] ++ [0x66; 0xC3; 0xA9]) None
   = Returned (2 + 2) None
   /\ convert Strict ([0x63; 0x61] ++ [0x66; 0xC3; 0xA9])
              (Some ([0; 0] ++ [0; 0]))
      = Returned (2 + 2) (Some ([0x63; 0x61] ++ [0x66; 0xE9])))
  /\ (2 = -1 ->
      convert Strict ([0x63; 0x61] ++ [0x66; 0xC3; 0xA9]) None
      = Returned (-1) None).
Proof.
  apply (conversion_of_concatenation
           Strict [0x63; 0x61] [0x66; 0xC3; 0xA9] [0; 0] [0; 0]
           [0x63; 0x61] [0x66; 0xE9] 2 2).
  - cbn. lia.
  - reflexivity.
  - lia.
  - reflexivity.
  - reflexivity.
Defined.

(** ** Printable ASCII *)

Lemma scan_printable (input : list Z) :
  Forall (fun c => 0x20 <= c <= 0x7E) input ->
  scan input = (input, EndOfInput).
Proof.
  induction 1 as [|c t Hc Ht IH]; [reflexivity|].
  cbn [scan]. rewrite (eqb_false_of c 0) by lia.
  rewrite (ascii_byte c) by (apply in_range_iff; lia).
  rewrite IH. reflexivity.
Qed.

Lemma written_printable (encrypt_b : bool) (input : list Z) :
  Forall (fun c => 0x20 <= c <= 0x7E) input ->
  written encrypt_b input = input /\ all_good encrypt_b input = true.
Proof.
  induction 1 as [|c t Hc Ht [IH1 IH2]]; [split; reflexivity|].
  cbn [written all_good forallb].
  rewrite pdfdoc_of_data_good by lia.
  rewrite to_jbyte_small by lia. fold (all_good encrypt_b t).
  rewrite IH1, IH2. split; reflexivity.
Qed.

(** X8.  A password of printable ASCII characters (0x20 - 0x7E) passes
    through unchanged in both modes: the call returns its length, and a
    buffer of that length ends as a copy of the input. *)
Theorem printable_ascii_unchanged (m : Mode) (input : list Z) :
  Forall (fun c => 0x20 <= c <= 0x7E) input ->
  convert m input None = Returned (Z.of_nat (length input)) None
  /\ forall buf, length buf = length input ->
                 convert m input (Some buf)
                 = Returned (Z.of_nat (length input)) (Some input).
Proof.
  intros Hascii.
  pose proof (scan_printable input Hascii) as Hscan.
  destruct (written_printable (encrypting m) input Hascii) as [Hw Hgood].
  assert (Hcps : code_points input = input)
    by (unfold code_points; rewrite Hscan; reflexivity).
  assert (Hstop : stopped input <> BadSequence)
    by (unfold stopped; rewrite Hscan; discriminate).
  assert (Hres : result_of (encrypting m) input = Z.of_nat (length input)).
  { rewrite result_of_accepted; rewrite ?Hcps; auto. }
  split; [rewrite convert_null, Hres; reflexivity|].
  intros buf Hlen. rewrite convert_buffer_accepted; rewrite ?Hcps; auto.
  - rewrite Hw, skipn_all2 by lia. rewrite app_nil_r. reflexivity.
  - lia.
Qed.

Lemma printable_ascii_unchanged_secret :
  convert Strict [0x73; 0x33; 0x63; 0x72; 0x65; 0x74; 0x21] None
  = Returned (Z.of_nat (length [0x73; 0x33; 0x63; 0x72; 0x65; 0x74; 0x21]))
             None
  /\ forall buf,
      length buf = length [0x73; 0x33; 0x63; 0x72; 0x65; 0x74; 0x21] ->
      convert Strict [0x73; 0x33; 0x63; 0x72; 0x65; 0x74; 0x21] (Some buf)
      = Returned (Z.of_nat (length [0x73; 0x33; 0x63; 0x72; 0x65; 0x74; 0x21]))
                 (Some [0x73; 0x33; 0x63; 0x72; 0x65; 0x74; 0x21]).
Proof.
  apply (printable_ascii_unchanged
           Strict [0x73; 0x33; 0x63; 0x72; 0x65; 0x74; 0x21]).
  repeat constructor; lia.
Defined.

(** ** Three bytes are enough *)

(** The UTF-8 form of a point of [0x20, 0x2122] is well formed, and the
    decoder of the source reads the point back from it. *)
Lemma utf8_encode_read_back (cp : Z) :
  0x20 <= cp <= 0x2122 ->
  scan (utf8_encode cp) = ([cp], EndOfInput)
  /\ utf8_decode (utf8_encode cp) = Some [cp].
Proof.
  intros Hcp.
  pose (check := fun cp =>
          match scan (utf8_encode cp), utf8_decode (utf8_encode cp) with
          | ([d], EndOfInput), Some [d'] => (d =? cp) && (d' =? cp)
          | _, _ => false
          end).
  assert (H : check cp = true).
  { apply (Z_range_forallb check 0x20 (Z.to_nat 8451));
      [vm_compute; reflexivity | lia]. }
  unfold check in H.
  destruct (scan (utf8_encode cp)) as [[|d [|? ?]] []]; try discriminate.
  destruct (utf8_decode (utf8_encode cp)) as [[|d' [|? ?]]|]; try discriminate.
  apply andb_true_iff in H. destruct H as [H1 H2].
  apply Z.eqb_eq in H1. apply Z.eqb_eq in H2. subst d d'.
  split; reflexivity.
Qed.

Lemma utf8_encode_length (cp : Z) : (length (utf8_encode cp) <= 3)%nat.
Proof.
  unfold utf8_encode. destruct (cp <? 128); [cbn; lia|].
  destruct (cp <? 2048); cbn; lia.
Qed.

(** X9.  The greatest valid point is 0x2122: a code point that a mode
    accepts lies between U+0020 and U+2122 (and is at most U+0192 when
    encrypting), so its UTF-8 form has at most three bytes; the call on that
    form returns 1 and stores the byte of the point.  Testing out to three
    bytes misses no character that could be accepted. *)
Theorem accepted_points_need_three_bytes_at_most (m : Mode) (cp b : Z) :
  pdfdoc_of_data (encrypting m) cp = Some b ->
  0x20 <= cp <= 0x2122
  /\ (m = Strict -> cp <= 0x0192)
  /\ (length (utf8_encode cp) <= 3)%nat
  /\ utf8_decode (utf8_encode cp) = Some [cp]
  /\ forall x, convert m (utf8_encode cp) (Some [x]) = Returned 1 (Some [b]).
Proof.
  intros Hb.
  pose proof (pdfdoc_of_data_domain _ _ _ Hb) as Hdom.
  destruct (utf8_encode_read_back cp Hdom) as [Hscan Hdec].
  split; [exact Hdom|]. split; [|split; [apply utf8_encode_length|]].
  - intros ->. cbn [encrypting] in Hb.
    apply pdfdoc_of_data_strict in Hb.
    destruct Hb as [[Hr _]|[_ Hal]]; [lia|].
    apply pdfdoc_always_cases in Hal. cbn in Hal.
    repeat (destruct Hal as [Hal|Hal]; [injection Hal as <- <-; lia|]).
    contradiction.
  - split; [exact Hdec|]. intros x.
    rewrite convert_buffer_accepted; unfold code_points, stopped;
      rewrite Hscan; cbn [fst snd length written all_good forallb];
      rewrite ?Hb; try reflexivity; try discriminate.
    rewrite (to_jbyte_small b) by (eapply pdfdoc_of_data_byte; exact Hb).
    reflexivity.
Qed.

Lemma accepted_points_need_three_bytes_at_most_trademark :
  0x20 <= 0x2122 <= 0x2122
  /\ (Permissive = Strict -> 0x2122 <= 0x0192)
  /\ (length (utf8_encode 0x2122) <= 3)%nat
  /\ utf8_decode (utf8_encode 0x2122) = Some [0x2122]
  /\ forall x, convert Permissive (utf8_encode 0x2122) (Some [x])
               = Returned 1 (Some [0x92]).
Proof.
  apply (accepted_points_need_three_bytes_at_most Permissive 0x2122 0x92).
  reflexivity.
Defined.

(** ** Signed and unsigned [char] *)

Lemma as_signed_char_land (c mask : Z) :
  0 <= mask < 256 -> Z.land (as_signed_char c) mask = Z.land c mask.
Proof.
  intros Hmask. unfold as_signed_char.
  destruct (c <? 128); [reflexivity|]. apply signed_char_masks, Hmask.
Qed.

Lemma as_signed_char_zero (c : Z) :
  0 <= c <= 0xFF -> (as_signed_char c =? 0) = (c =? 0).
Proof.
  intros Hc. unfold as_signed_char.
  destruct (Z.ltb_spec c 128); [reflexivity|].
  rewrite (eqb_false_of (c - 256) 0), (eqb_false_of c 0) by lia. reflexivity.
Qed.

(** A byte with the high bit clear reads the same either way. *)
Lemma as_signed_char_low (c : Z) :
  0 <= c <= 0xFF -> (Z.land c 0x80 =? 0) = true -> as_signed_char c = c.
Proof.
  intros Hc Hlow. unfold as_signed_char.
  destruct (Z.ltb_spec c 128) as [|Hhigh]; [reflexivity|].
  assert (H : (Z.land c 0x80 =? 0) = false).
  { apply negb_true_iff.
    apply (Z_range_forallb (fun c => negb (Z.land c 0x80 =? 0)) 128 128);
      [vm_compute; reflexivity | lia]. }
  congruence.
Qed.

(** The decoder reads the same points from signed and from unsigned
    bytes. *)
Lemma scan_as_signed_char (l : list Z) :
  Forall (fun c => 0 <= c <= 0xFF) l ->
  scan (map as_signed_char l) = scan l.
Proof.
  assert (H : forall n l, (length l <= n)%nat ->
            Forall (fun c => 0 <= c <= 0xFF) l ->
            scan (map as_signed_char l) = scan l).
  { clear l. induction n as [|n IH]; intros l Hlen Hall.
    { destruct l; [reflexivity | cbn in Hlen; lia]. }
    destruct l as [|c0 t0]; [reflexivity|].
    apply Forall_cons_iff in Hall. destruct Hall as [Hc0 Hall0].
    cbn [map scan length] in *.
    rewrite (as_signed_char_zero c0 Hc0).
    rewrite !(as_signed_char_land c0) by lia.
    destruct (c0 =? 0); [reflexivity|].
    destruct (Z.land c0 128 =? 0) eqn:Hlow.
    { rewrite (as_signed_char_low c0 Hc0 Hlow), IH by (try assumption; lia).
      reflexivity. }
    destruct t0 as [|c1 t1]; [reflexivity|].
    apply Forall_cons_iff in Hall0. destruct Hall0 as [Hc1 Hall1].
    cbn [map length] in *.
    rewrite !(as_signed_char_land c1) by lia.
    destruct ((Z.land c0 224 =? 192) && (Z.land c1 192 =? 128)).
    { rewrite IH by (try assumption; lia). reflexivity. }
    destruct t1 as [|c2 t2]; [reflexivity|].
    apply Forall_cons_iff in Hall1. destruct Hall1 as [Hc2 Hall2].
    cbn [map length] in *.
    rewrite !(as_signed_char_land c2) by lia.
    destruct ((Z.land c0 240 =? 224) && (Z.land c1 192 =? 128)
              && (Z.land c2 192 =? 128)); [|reflexivity].
    rewrite IH by (try assumption; lia). reflexivity. }
  intros Hall. apply (H (length l)); [lia | exact Hall].
Qed.

(** X10.  The function does not depend on whether [char] is signed: on
    the bytes of an input read as signed values (those from 128 on as
    [c - 256]) a call returns the same integer and leaves the same buffer
    as on the bytes read as unsigned values. *)
Theorem signedness_of_char_irrelevant
        (m : Mode) (input : list Z) (output : option (list Z)) :
  Forall (fun c => 0 <= c <= 0xFF) input ->
  convert m (map as_signed_char input) output = convert m input output.
Proof.
  intros Hbytes. rewrite !convert_emit. unfold code_points, stopped.
  rewrite (scan_as_signed_char input Hbytes). reflexivity.
Qed.

Lemma signedness_of_char_irrelevant_cafe :
  convert Strict (map as_signed_char [0x63; 0x61; 0x66; 0xC3; 0xA9])
          (Some [0; 0; 0; 0])
  = convert Strict [0x63; 0x61; 0x66; 0xC3; 0xA9] (Some [0; 0; 0; 0]).
Proof.
  apply (signedness_of_char_irrelevant
           Strict [0x63; 0x61; 0x66; 0xC3; 0xA9] (Some [0; 0; 0; 0])).
  repeat constructor; lia.
Defined.

(** ** What decrypting accepts *)

(** X11.  In Permissive (decrypt) mode a decoded code point is accepted
    exactly when it is directly representable, or lies in U+0100 - U+01FF, or
    is one of the nineteen points of the inner [switch], each of which is
    emitted as its byte there; an input converts exactly when its decoding
    does not fail and all its points are of these kinds, and returns -1
    otherwise.  With a buffer that has room for them the call on such an
    input returns the number of its points and has stored, in order, the
    point itself where it is directly representable and the byte of its
    [case] where it is one of the nineteen; the call on the UTF-8 form of
    each of the nineteen stores that byte. *)
Theorem permissive_accepts_exactly :
  (forall cp,
      (exists b, pdfdoc_of_data (encrypting Permissive) cp = Some b) <->
      (0x20 <= cp < 0x7F \/ 0xA0 <= cp <= 0xFF)
      \/ 0x0100 <= cp <= 0x01FF
      \/ In cp (map fst decrypt_only_cases))
  /\ (forall cp b, In (cp, b) decrypt_only_cases ->
                   pdfdoc_of_data (encrypting Permissive) cp = Some b)
  /\ length decrypt_only_cases = 19%nat
  /\ (forall input,
         (exists n, 0 <= n /\ convert Permissive input None = Returned n None)
         <->
         (stopped input <> BadSequence
          /\ forall cp, In cp (code_points input) ->
                        (0x20 <= cp < 0x7F \/ 0xA0 <= cp <= 0xFF)
                        \/ 0x0100 <= cp <= 0x01FF
                        \/ In cp (map fst decrypt_only_cases)))
  /\ (forall input,
         convert Permissive input None = Returned (-1) None
         \/ convert Permissive input None
            = Returned (Z.of_nat (length (code_points input))) None)
  /\ (forall input buf,
         stopped input <> BadSequence ->
         (forall cp, In cp (code_points input) ->
                     (0x20 <= cp < 0x7F \/ 0xA0 <= cp <= 0xFF)
                     \/ 0x0100 <= cp <= 0x01FF
                     \/ In cp (map fst decrypt_only_cases)) ->
         (length (code_points input) <= length buf)%nat ->
         exists buf',
           convert Permissive input (Some buf)
           = Returned (Z.of_nat (length (code_points input))) (Some buf')
           /\ length buf' = length buf
           /\ (forall k cp,
                  nth_error (code_points input) k = Some cp ->
                  0x20 <= cp < 0x7F \/ 0xA0 <= cp <= 0xFF ->
                  nth_error buf' k = Some cp)
           /\ (forall k cp b,
                  nth_error (code_points input) k = Some cp ->
                  In (cp, b) decrypt_only_cases ->
                  nth_error buf' k = Some b)
           /\ (forall k, (length (code_points input) <= k)%nat ->
                         nth_error buf' k = nth_error buf k))
  /\ (forall cp b,
         In (cp, b) decrypt_only_cases ->
         code_points (utf8_encode cp) = [cp]
         /\ convert Permissive (utf8_encode cp) (Some [0])
            = Returned 1 (Some [b])).
Proof.
  assert (Hcases : forall cp b, In (cp, b) decrypt_only_cases ->
                                pdfdoc_of_data false cp = Some b).
  { intros cp b Hin. cbn in Hin.
    repeat (destruct Hin as [Hin|Hin]; [injection Hin as <- <-; reflexivity|]).
    contradiction. }
  assert (Hiff : forall cp,
            (exists b, pdfdoc_of_data false cp = Some b) <->
            (0x20 <= cp < 0x7F \/ 0xA0 <= cp <= 0xFF)
            \/ 0x0100 <= cp <= 0x01FF
            \/ In cp (map fst decrypt_only_cases)).
  { intros cp. split.
    - intros [b Hb]. unfold pdfdoc_of_data in Hb.
      destruct (data_point_good cp) eqn:Hgood.
      { left. apply data_point_good_iff, Hgood. }
      destruct (pdfdoc_always cp) as [b'|] eqn:Hal.
      { right. left. apply pdfdoc_always_cases in Hal. cbn in Hal.
        repeat (destruct Hal as [Hal|Hal]; [injection Hal as <- <-; lia|]).
        contradiction. }
      destruct ((256 <=? cp) && (cp <=? 511)) eqn:Hrange.
      { right. left. apply andb_true_iff in Hrange.
        destruct Hrange as [H1 H2].
        apply Z.leb_le in H1. apply Z.leb_le in H2. lia. }
      right. right. apply in_map_iff. exists (cp, b).
      split; [reflexivity|]. apply pdfdoc_decrypt_only_cases, Hb.
    - intros [Hgood|[Hrange|Hin]].
      + exists cp. apply pdfdoc_of_data_good, Hgood.
      + unfold pdfdoc_of_data.
        rewrite (proj2 (data_point_good_not cp)) by lia.
        destruct (pdfdoc_always cp) as [b|]; [eauto|].
        replace ((256 <=? cp) && (cp <=? 511)) with true
          by (symmetry; apply andb_true_iff; split; apply Z.leb_le; lia).
        eauto.
      + apply in_map_iff in Hin. destruct Hin as [[cp' b] [Heq Hin]].
        cbn in Heq. subst cp'. exists b. apply Hcases, Hin. }
  cbn [encrypting].
  split; [exact Hiff|]. split; [exact Hcases|]. split; [reflexivity|].
  split.
  - intros input. rewrite convert_null. cbn [encrypting]. split.
    + intros (n & Hn & Hret).
      assert (Hres : result_of false input = n) by congruence.
      destruct (result_of_nonneg _ _ _ Hres Hn) as (_ & Hstop & Hgood).
      split; [exact Hstop|]. intros cp Hin. apply Hiff.
      apply (proj1 (all_good_iff _ _) Hgood cp Hin).
    + intros [Hstop Hall]. exists (Z.of_nat (length (code_points input))).
      split; [lia|]. f_equal. apply result_of_accepted; [exact Hstop|].
      apply all_good_iff. intros cp Hin. apply Hiff, Hall, Hin.
  - split; [|split].
    + intros input. rewrite convert_null. cbn [encrypting].
      destruct (result_of_cases false input) as [[-> _]|[-> _]];
        [left | right]; reflexivity.
    + intros input buf Hstop Hall Hlen.
      assert (Hgood : all_good (encrypting Permissive) (code_points input)
                      = true).
      { apply all_good_iff. intros cp Hin. apply Hiff, Hall, Hin. }
      destruct (convert_buffer_stored Permissive input buf Hstop Hgood Hlen)
        as (buf' & Hconv & Hlen' & Hnth & Hrest).
      exists buf'. split; [exact Hconv|]. split; [exact Hlen'|].
      cbn [encrypting] in Hnth. split; [|split; [|exact Hrest]].
      * intros k cp Hk Hdirect. destruct (Hnth k cp Hk) as (b & Hb & Hb').
        rewrite (pdfdoc_of_data_good false cp Hdirect) in Hb. congruence.
      * intros k cp b Hk Hin. destruct (Hnth k cp Hk) as (b' & Hb & Hb').
        rewrite (Hcases cp b Hin) in Hb. congruence.
    + intros cp b Hin. cbn in Hin.
      repeat (destruct Hin as [Hin|Hin];
              [injection Hin as <- <-; split; reflexivity|]).
      contradiction.
Qed.

(** * Properties of the command line of [combine_tessdata] *)
Module CombineTessdataFacts.
Import Ascii String CombineTessdata.
Local Open Scope string_scope.

Lemma run_app (answer : list call -> call -> bool) (p : prog) :
  forall trace, exists mid, fst (run answer p trace) = (trace ++ mid)%list.
Proof.
  induction p as [s|s| | |c k IH]; intros trace;
    try (exists []; cbn; rewrite app_nil_r; reflexivity).
  cbn [run]. destruct (IH (answer trace c) (trace ++ [c])%list) as [mid Hmid].
  exists (c :: mid). rewrite Hmid, <- app_assoc. reflexivity.
Qed.

Lemma orderly_run (answer : list call -> call -> bool) (p : prog) :
  orderly p ->
  forall trace,
  exists mid,
    ~ In Directory mid
    /\ ((snd (run answer p trace) = Return 0
         /\ fst (run answer p trace) = (trace ++ mid ++ [Directory])%list)
        \/ ((snd (run answer p trace) = Exit 1
             \/ snd (run answer p trace) = AssertFailed
             \/ snd (run answer p trace) = BadRead)
            /\ fst (run answer p trace) = (trace ++ mid)%list)).
Proof.
  induction 1 as [k Hk| | | |c k Hc Hk IH]; intros trace.
  - exists []. split; [intros []|]. left. cbn [run]. rewrite Hk. cbn.
    split; reflexivity.
  - exists []. split; [intros []|]. right. cbn. rewrite app_nil_r. tauto.
  - exists []. split; [intros []|]. right. cbn. rewrite app_nil_r. tauto.
  - exists []. split; [intros []|]. right. cbn. rewrite app_nil_r. tauto.
  - cbn [run].
    destruct (IH (answer trace c) (trace ++ [c])%list) as (mid & Hmid & Hcase).
    exists (c :: mid). split.
    + intros [Heq|Hin]; [congruence | tauto].
    + rewrite <- !app_assoc in Hcase. exact Hcase.
Qed.

Lemma finish_orderly : orderly finish.
Proof. apply orderly_finish. reflexivity. Qed.

Lemma extract_each_orderly (files : list string) (k : prog) :
  orderly k -> orderly (extract_each files k).
Proof.
  intros Hk. induction files as [|f files IH]; [exact Hk|].
  cbn [extract_each]. apply orderly_do; [discriminate|]. intros ok.
  apply orderly_do; [discriminate|]. intros _. exact IH.
Qed.

Lemma unpack_each_orderly (prefix : string) (suffixes : list string)
      (k : prog) :
  orderly k -> orderly (unpack_each prefix suffixes k).
Proof.
  intros Hk. induction suffixes as [|s suffixes IH]; [exact Hk|].
  cbn [unpack_each]. destruct (with_dot prefix); [|apply orderly_bad_read].
  apply orderly_do; [discriminate|]. intros [|]; [|exact IH].
  apply orderly_do; [discriminate|]. intros _. exact IH.
Qed.

Ltac orderly_steps :=
  repeat first
         [ apply finish_orderly
         | apply orderly_exit
         | apply orderly_assert
         | apply orderly_bad_read
         | apply orderly_do; [discriminate | intros [|]; cbn [negb] ] ].

Lemma main_orderly (suffix : string) (suffixes argv : list string) :
  known_form argv = true -> orderly (main suffix suffixes argv).
Proof.
  unfold known_form, main.
  destruct (is_combine argv).
  { intros _. apply orderly_do; [discriminate|]. intros _.
    destruct (with_dot (arg argv 1)); orderly_steps. }
  destruct (is_extract_or_unpack argv).
  { intros _. apply orderly_do; [discriminate|]. intros [|]; cbn [negb].
    - apply orderly_do; [discriminate|]. intros _.
      destruct (String.eqb (arg argv 1) "-e").
      + apply extract_each_orderly, finish_orderly.
      + apply unpack_each_orderly, finish_orderly.
    - orderly_steps. }
  destruct (is_overwrite argv); [intros _; orderly_steps|].
  destruct (is_compact argv); [intros _; orderly_steps|].
  destruct (is_directory argv); [intros _; orderly_steps|].
  discriminate.
Qed.

Lemma run_print_each (answer : list call -> call -> bool)
      (texts : list string) (s : Z) :
  forall trace,
    run answer (print_each texts (Return s)) trace
    = ((trace ++ map Printf texts)%list, Return s).
Proof.
  induction texts as [|t texts IH]; intros trace.
  - cbn [print_each map run]. rewrite app_nil_r. reflexivity.
  - cbn [print_each run map]. rewrite IH, <- app_assoc. reflexivity.
Qed.

Lemma main_usage (suffix : string) (suffixes : list string)
      (argv0 : string) (rest : list string) :
  known_form (argv0 :: rest) = false ->
  main suffix suffixes (argv0 :: rest) = print_each (usage argv0) (Return 1).
Proof.
  unfold known_form, main.
  destruct (is_combine _); [discriminate|].
  destruct (is_extract_or_unpack _); [discriminate|].
  destruct (is_overwrite _); [discriminate|].
  destruct (is_compact _); [discriminate|].
  destruct (is_directory _); [discriminate|].
  reflexivity.
Qed.

Lemma main_no_argument (suffix : string) (suffixes : list string) :
  main suffix suffixes [] = BadRead.
Proof. reflexivity. Qed.

(** X12.  Whatever the command line and whatever the calls answer, a run
    of [main] ends in one of five ways; it returns 0 exactly when its last
    call is [tm.Directory()], which it calls at no other moment: a run that
    prints the usage, exits with 1 or fails an assertion never lists the
    directory. *)
Theorem directory_listed_last_and_only_on_success
        (suffix : string) (suffixes : list string)
        (answer : list call -> call -> bool) (argv : list string) :
  let r := run answer (main suffix suffixes argv) [] in
  (snd r = Return 0 \/ snd r = Return 1 \/ snd r = Exit 1
   \/ snd r = AssertFailed \/ snd r = BadRead)
  /\ (snd r = Return 0 ->
      exists before, fst r = (before ++ [Directory])%list
                     /\ ~ In Directory before)
  /\ (snd r <> Return 0 -> ~ In Directory (fst r)).
Proof.
  cbv zeta. destruct (known_form argv) eqn:Hform.
  - destruct (orderly_run answer _ (main_orderly suffix suffixes argv Hform) [])
      as (mid & Hmid & [[Hfin Htr]|[Hfin Htr]]);
      cbn [app] in Htr; rewrite Htr.
    + split; [tauto|]. split.
      * intros _. exists mid. tauto.
      * tauto.
    + split; [tauto|]. split.
      * intros H0. rewrite H0 in Hfin.
        destruct Hfin as [H|[H|H]]; discriminate H.
      * intros _. exact Hmid.
  - destruct argv as [|argv0 rest].
    + rewrite main_no_argument. cbn. split; [tauto|].
      split; [discriminate | tauto].
    + rewrite (main_usage _ _ _ _ Hform), run_print_each. cbn [fst snd app].
      split; [tauto|]. split; [discriminate|].
      intros _ Hin. apply in_map_iff in Hin.
      destruct Hin as (t & Heq & _). discriminate Heq.
Qed.

Lemma known_form_iff (argv : list string) :
  known_form argv = true <->
  (List.length argv = 2%nat
   \/ ((4 <= List.length argv)%nat
       /\ (arg argv 1 = "-e" \/ arg argv 1 = "-u" \/ arg argv 1 = "-o"))
   \/ (List.length argv = 3%nat
       /\ (arg argv 1 = "-c" \/ arg argv 1 = "-d"))).
Proof.
  unfold known_form, is_combine, is_extract_or_unpack, is_overwrite,
    is_compact, is_directory.
  repeat rewrite orb_true_iff. repeat rewrite andb_true_iff.
  repeat rewrite orb_true_iff.
  rewrite !Nat.eqb_eq, !Nat.leb_le, !String.eqb_eq. tauto.
Qed.

(** X13.  A command line is accepted exactly when it has one argument, or
    at least three of which the first is -e, -u or -o, or two of which the
    first is -c or -d.  On any other command line [main] makes the six calls
    of [printf] of the usage and returns 1: it calls neither the manager nor
    [rename], so no file is read or written. *)
Theorem unknown_command_line_only_prints_usage
        (suffix : string) (suffixes : list string)
        (answer : list call -> call -> bool)
        (argv0 : string) (rest : list string) :
  ~ (List.length (argv0 :: rest) = 2%nat
     \/ ((4 <= List.length (argv0 :: rest))%nat
         /\ (arg (argv0 :: rest) 1 = "-e" \/ arg (argv0 :: rest) 1 = "-u"
             \/ arg (argv0 :: rest) 1 = "-o"))
     \/ (List.length (argv0 :: rest) = 3%nat
         /\ (arg (argv0 :: rest) 1 = "-c" \/ arg (argv0 :: rest) 1 = "-d"))) ->
  run answer (main suffix suffixes (argv0 :: rest)) []
  = (map Printf (usage argv0), Return 1)
  /\ List.length (usage argv0) = 6%nat.
Proof.
  intros Hnot.
  assert (Hform : known_form (argv0 :: rest) = false).
  { destruct (known_form (argv0 :: rest)) eqn:E; [|reflexivity].
    exfalso. apply Hnot, known_form_iff, E. }
  rewrite (main_usage _ _ _ _ Hform), run_print_each.
  split; reflexivity.
Qed.

Lemma unknown_command_line_only_prints_usage_extract_without_file :
  run (fun _ _ => true)
      (main "traineddata" [".unicharset"]
            ["combine_tessdata"; "-e"; "eng.traineddata"]) []
  = (map Printf (usage "combine_tessdata"), Return 1)
  /\ List.length (usage "combine_tessdata") = 6%nat.
Proof.
  apply unknown_command_line_only_prints_usage. cbn.
  intros [H|[[H _]|[_ [H|H]]]]; [discriminate H | lia | discriminate H
                                | discriminate H].
Defined.

(** ** The trailing dot of the path prefix *)

Lemma last_char_cons (c : ascii) (s : string) :
  s <> "" -> last_char (String c s) = last_char s.
Proof. destruct s; [congruence | reflexivity]. Qed.

Lemma last_char_append_dot (s : string) : last_char (s ++ ".") = Some "."%char.
Proof.
  induction s as [|c s IH]; [reflexivity|].
  change (String c s ++ ".") with (String c (s ++ ".")).
  rewrite last_char_cons; [exact IH|]. destruct s; discriminate.
Qed.

Lemma last_char_nonempty (s : string) :
  s <> "" -> exists c, last_char s = Some c.
Proof.
  induction s as [|c s IH]; [congruence|]. intros _.
  destruct s as [|c' s']; [exists c; reflexivity|].
  rewrite last_char_cons by discriminate. apply IH. discriminate.
Qed.

Lemma with_dot_dotted (s lang : string) :
  with_dot s = Some lang ->
  last_char lang = Some "."%char
  /\ with_dot lang = Some lang
  /\ (lang = s \/ lang = s ++ ".").
Proof.
  unfold with_dot. destruct (last_char s) as [c|] eqn:Hlast; [|discriminate].
  destruct (Ascii.eqb_spec c "."%char) as [->|Hc]; intros [= <-].
  - rewrite Hlast. cbn. tauto.
  - rewrite last_char_append_dot. cbn. tauto.
Qed.

(** X14.  With one argument [main] combines the files of the path prefix
    that it names.  The prefix gets a dot appended unless it ends in one, so
    [eng] and [eng.] make the same calls; the output file is the dotted prefix
    followed by [kTrainedDataSuffix]; and the run returns 0 whether
    [CombineDataFiles] succeeds or fails.  An empty argument makes [main]
    read before its first character. *)
Theorem trailing_dot_of_prefix_optional
        (suffix : string) (suffixes : list string)
        (answer : list call -> call -> bool) (argv0 prefix : string) :
  prefix <> "" ->
  exists lang,
    with_dot prefix = Some lang
    /\ (lang = prefix \/ lang = prefix ++ ".")
    /\ last_char lang = Some "."%char
    /\ main suffix suffixes [argv0; lang] = main suffix suffixes [argv0; prefix]
    /\ snd (run answer (main suffix suffixes [argv0; prefix]) []) = Return 0
    /\ In (CombineDataFiles lang (lang ++ suffix))
          (fst (run answer (main suffix suffixes [argv0; prefix]) []))
    /\ snd (run answer (main suffix suffixes [argv0; ""]) []) = BadRead.
Proof.
  intros Hne. destruct (last_char_nonempty prefix Hne) as [c Hc].
  assert (Hsome : exists lang, with_dot prefix = Some lang).
  { unfold with_dot. rewrite Hc. destruct (Ascii.eqb c "."); eauto. }
  destruct Hsome as [lang Hlang]. exists lang.
  destruct (with_dot_dotted _ _ Hlang) as (Hlast & Hidem & Hshape).
  split; [exact Hlang|]. split; [exact Hshape|]. split; [exact Hlast|].
  unfold main. cbn [is_combine List.length Nat.eqb arg nth].
  rewrite Hidem, Hlang. split; [reflexivity|].
  cbn [run snd fst app]. split; [reflexivity|]. split; [|reflexivity].
  right. left. reflexivity.
Qed.

Lemma trailing_dot_of_prefix_optional_eng :
  exists lang,
    with_dot "tessdata/eng" = Some lang
    /\ (lang = "tessdata/eng" \/ lang = "tessdata/eng" ++ ".")
    /\ last_char lang = Some "."%char
    /\ main "traineddata" [] ["combine_tessdata"; lang]
       = main "traineddata" [] ["combine_tessdata"; "tessdata/eng"]
    /\ snd (run (fun _ _ => false)
                (main "traineddata" [] ["combine_tessdata"; "tessdata/eng"])
                []) = Return 0
    /\ In (CombineDataFiles lang (lang ++ "traineddata"))
          (fst (run (fun _ _ => false)
                    (main "traineddata" []
                          ["combine_tessdata"; "tessdata/eng"]) []))
    /\ snd (run (fun _ _ => false)
                (main "traineddata" [] ["combine_tessdata"; ""]) [])
       = BadRead.
Proof.
  apply (trailing_dot_of_prefix_optional
           "traineddata" [] (fun _ _ => false) "combine_tessdata"
           "tessdata/eng").
  discriminate.
Defined.

(** ** Extracting and unpacking *)

Lemma extracted_app (a b : list call) :
  extracted (a ++ b) = (extracted a ++ extracted b)%list.
Proof.
  induction a as [|c a IH]; [reflexivity|].
  destruct c; cbn [app extracted]; rewrite ?IH; reflexivity.
Qed.

Lemma run_extract_each (answer : list call -> call -> bool)
      (files : list string) :
  forall trace,
    snd (run answer (extract_each files finish) trace) = Return 0
    /\ extracted (fst (run answer (extract_each files finish) trace))
       = (extracted trace ++ files)%list.
Proof.
  induction files as [|f files IH]; intros trace.
  - cbn [extract_each finish run fst snd]. split; [reflexivity|].
    rewrite extracted_app. reflexivity.
  - cbn [extract_each run].
    destruct (IH ((trace ++ [ExtractToFile f]) ++
                  [Printf (if answer trace (ExtractToFile f)
                           then "Wrote " ++ f ++ nl
                           else "Not extracting " ++ f
                                ++ ", since this component is not present"
                                ++ nl)])%list) as [H1 H2].
    split; [exact H1|]. rewrite H2, !extracted_app. cbn [extracted].
    rewrite app_nil_r, <- app_assoc. reflexivity.
Qed.

Lemma run_unpack_each (answer : list call -> call -> bool)
      (prefix dotted : string) (suffixes : list string) :
  with_dot prefix = Some dotted ->
  forall trace,
    snd (run answer (unpack_each prefix suffixes finish) trace) = Return 0
    /\ extracted (fst (run answer (unpack_each prefix suffixes finish) trace))
       = (extracted trace ++ map (fun s => (dotted ++ s)%string) suffixes)%list.
Proof.
  intros Hdot. induction suffixes as [|s suffixes IH]; intros trace.
  - cbn [unpack_each finish run fst snd map]. split; [reflexivity|].
    rewrite extracted_app. reflexivity.
  - cbn [unpack_each run map]. rewrite Hdot. cbn [run].
    destruct (answer trace (ExtractToFile (dotted ++ s))).
    + cbn [run].
      destruct (IH ((trace ++ [ExtractToFile (dotted ++ s)]) ++
                    [Printf ("Wrote " ++ dotted ++ s ++ nl)])%list)
        as [H1 H2].
      split; [exact H1|]. rewrite H2, !extracted_app. cbn [extracted].
      rewrite app_nil_r, <- app_assoc. reflexivity.
    + destruct (IH (trace ++ [ExtractToFile (dotted ++ s)])%list) as [H1 H2].
      split; [exact H1|]. rewrite H2, !extracted_app. cbn [extracted].
      rewrite <- app_assoc. reflexivity.
Qed.

(** X15.  Options -e and -u, once [tm.Init] has read the file: -e calls
    [ExtractToFile] on each file named on the command line, in order, and -u
    on the dotted path prefix followed by each file suffix, in order; a file
    that is not extracted does not stop the later ones, and the run returns
    0.  When [tm.Init] fails, nothing is extracted and the run exits with
    1. *)
Theorem extraction_attempts_every_file
        (suffix : string) (suffixes : list string)
        (answer : list call -> call -> bool) (argv : list string) :
  (4 <= List.length argv)%nat ->
  let r := run answer (main suffix suffixes argv) [] in
  (arg argv 1 = "-e" -> answer [] (Init (arg argv 2)) = true ->
   snd r = Return 0 /\ extracted (fst r) = skipn 3 argv)
  /\ (arg argv 1 = "-u" -> answer [] (Init (arg argv 2)) = true ->
      forall dotted, with_dot (arg argv 3) = Some dotted ->
      snd r = Return 0
      /\ extracted (fst r) = map (fun s => dotted ++ s) suffixes)
  /\ (arg argv 1 = "-e" \/ arg argv 1 = "-u" ->
      answer [] (Init (arg argv 2)) = false ->
      snd r = Exit 1 /\ extracted (fst r) = []).
Proof.
  intros Hargc. cbv zeta.
  assert (Hnot2 : is_combine argv = false).
  { unfold is_combine. apply Nat.eqb_neq. lia. }
  assert (Hge : (4 <=? List.length argv)%nat = true)
    by (apply Nat.leb_le; exact Hargc).
  split; [|split].
  - intros He Hinit. unfold main, is_extract_or_unpack.
    rewrite Hnot2, Hge, He. cbn [String.eqb Ascii.eqb Bool.eqb andb orb].
    cbn [run]. rewrite Hinit. cbn [negb run].
    destruct (run_extract_each answer (skipn 3 argv)
                ([Init (arg argv 2)] ++
                 [Printf ("Extracting tessdata components from "
                          ++ arg argv 2 ++ nl)])%list) as [H1 H2].
    cbn [app] in H1, H2 |- *. split; [exact H1 | exact H2].
  - intros Hu Hinit dotted Hdot. unfold main, is_extract_or_unpack.
    rewrite Hnot2, Hge, Hu. cbn [String.eqb Ascii.eqb Bool.eqb andb orb].
    cbn [run]. rewrite Hinit. cbn [negb run].
    destruct (run_unpack_each answer (arg argv 3) dotted suffixes Hdot
                ([Init (arg argv 2)] ++
                 [Printf ("Extracting tessdata components from "
                          ++ arg argv 2 ++ nl)])%list) as [H1 H2].
    cbn [app] in H1, H2 |- *. split; [exact H1 | exact H2].
  - intros Hopt Hinit. unfold main, is_extract_or_unpack.
    rewrite Hnot2, Hge.
    assert (Hor : (String.eqb (arg argv 1) "-e"
                   || String.eqb (arg argv 1) "-u") = true).
    { apply orb_true_iff. rewrite !String.eqb_eq. exact Hopt. }
    rewrite Hor. cbn [andb run]. rewrite Hinit.
    cbn [negb run fst snd app extracted]. split; reflexivity.
Qed.

Lemma extraction_attempts_every_file_two_files :
  (4 <= List.length ["combine_tessdata"; "-e"; "eng.traineddata";
                     "eng.config"; "eng.unicharset"])%nat
  /\ snd (run (fun _ c => match c with Init _ => true | _ => false end)
              (main "traineddata" [".config"]
                    ["combine_tessdata"; "-e"; "eng.traineddata";
                     "eng.config"; "eng.unicharset"]) []) = Return 0
  /\ extracted
       (fst (run (fun _ c => match c with Init _ => true | _ => false end)
                 (main "traineddata" [".config"]
                       ["combine_tessdata"; "-e"; "eng.traineddata";
                        "eng.config"; "eng.unicharset"]) []))
     = ["eng.config"; "eng.unicharset"].
Proof.
  assert (Hargc : (4 <= List.length ["combine_tessdata"; "-e";
                                     "eng.traineddata"; "eng.config";
                                     "eng.unicharset"])%nat)
    by (cbn; lia).
  split; [exact Hargc|].
  destruct (extraction_attempts_every_file
              "traineddata" [".config"]
              (fun _ c => match c with Init _ => true | _ => false end)
              ["combine_tessdata"; "-e"; "eng.traineddata";
               "eng.config"; "eng.unicharset"] Hargc) as [He _].
  apply He; reflexivity.
Defined.

End CombineTessdataFacts.
